(** * TAPjack: a shallow embedding of the blackjack round engine and of the
    gesture classifier of [TAPjack.c], and the properties of its
    specification.

    Conventions of the embedding.
    - A C [int] is a [Z].  Every integer the game computes stays far inside
      the 16-bit range of the target: [handsize] is at most 12, [handvalue]
      at most 132 and [soft] at most 12 ([dealt_hand_bounds]), [indexG] at
      most 52, and a debounce counter at most THRESHOLD + 1
      ([USS_loop_counts]).  No wrap-around is ever taken and none is written
      out, except for the conversion of [rand() % SINGLEDECK] to
      [unsigned int] in [shuffleDeck].
    - A C array is a list read with [arr_get] and written with [arr_set];
      an index outside the list is undefined behaviour in C, the model
      leaves the array as it is and reads the default element.
    - The globals of the program are the fields of [world].  A [hand *] is a
      [hid], the name of one of the nine global hands.  The globals
      [outcome] (never written) and [timerOverflow] (pulse timing) play no
      part in the game and are left out.
    - The display is a byte sink, seen in two ways.  In the round engine,
      [out] records, in call order, the texts that tell an event of the
      game: prompts, decisions, diagnostics and verdicts; the screens
      painted around them change no game state and are left out there.
      The functions that paint a screen ([cardPrint], [dispUpper],
      [dispBlank], [dispRound], [dispTurn] and their helpers) are embedded
      in the module [Display], on the bytes sent and the global
      [SCREENFILL].  The delays change neither.
    - [rand()] and the ultrasonic sensor are the environment: [rnd] lists the
      values successive [rand()] calls return, [sensor] the distance samples
      successive [USS_distance()] calls return.
    - Every [while (1)] loop is [while_loop] on its body, with a [fuel] that
      bounds the number of passes; [None] is a loop that has not returned
      yet, or a [USS_distance()] still blocked on a sample that never
      comes. *)

From Stdlib Require Import ZArith QArith Lia Ascii String.
From stdpp Require Import base decidable option list strings.

Local Open Scope Z_scope.

(** ** Constants ([#define]s of the source) *)

Definition THRESHOLD : Z := 200.
Definition WIDTH : Q := 22.
Definition DIST_HIT : Q := 8.
Definition DIST_STAY : Q := 35.

Definition NUMPLAYERS : Z := 5.
Definition SINGLEDECK : Z := 52.
Definition MAXSUIT : Z := 13.
Definition MAXRANK : Z := 4.
Definition MAXHAND : Z := 12.

Definition HIT : Z := 1.
Definition STAY : Z := 2.
Definition NOACTION : Z := 3.
Definition ERROR : Z := 0.
Definition DEALER : Z := 0.
Definition P1 : Z := 1.
Definition P2 : Z := 2.
Definition P3 : Z := 3.
Definition P4 : Z := 4.

Definition NL : string := String "010"%char EmptyString.

(** ** Arrays *)

#[global] Instance ascii_inhabited : Inhabited ascii := populate Ascii.zero.

Definition arr_get {A} `{Inhabited A} (a : list A) (i : Z) : A :=
  if 0 <=? i then a !!! Z.to_nat i else inhabitant.

Definition arr_set {A} (a : list A) (i : Z) (v : A) : list A :=
  if 0 <=? i then <[Z.to_nat i := v]> a else a.

(** ** The data model *)

Record hand : Type := mkHand {
  rank : list Z;        (* 1 = Ace, 2-9, 10 = T, 11 = Jack, 12 = Queen, 13 = King *)
  suit : list ascii;    (* h, d, c, s *)
  isFaceDown : list Z;
  handsize : Z;
  handvalue : Z;
  busted : Z;
  soft : Z;
  empty : Z
}.

Definition set_rank (v : list Z) (h : hand) : hand :=
  mkHand v (suit h) (isFaceDown h) (handsize h) (handvalue h) (busted h) (soft h) (empty h).
Definition set_suit (v : list ascii) (h : hand) : hand :=
  mkHand (rank h) v (isFaceDown h) (handsize h) (handvalue h) (busted h) (soft h) (empty h).
Definition set_isFaceDown (v : list Z) (h : hand) : hand :=
  mkHand (rank h) (suit h) v (handsize h) (handvalue h) (busted h) (soft h) (empty h).
Definition set_handsize (v : Z) (h : hand) : hand :=
  mkHand (rank h) (suit h) (isFaceDown h) v (handvalue h) (busted h) (soft h) (empty h).
Definition set_handvalue (v : Z) (h : hand) : hand :=
  mkHand (rank h) (suit h) (isFaceDown h) (handsize h) v (busted h) (soft h) (empty h).
Definition set_busted (v : Z) (h : hand) : hand :=
  mkHand (rank h) (suit h) (isFaceDown h) (handsize h) (handvalue h) v (soft h) (empty h).
Definition set_soft (v : Z) (h : hand) : hand :=
  mkHand (rank h) (suit h) (isFaceDown h) (handsize h) (handvalue h) (busted h) v (empty h).
Definition set_empty (v : Z) (h : hand) : hand :=
  mkHand (rank h) (suit h) (isFaceDown h) (handsize h) (handvalue h) (busted h) (soft h) v.

(** The nine global hands. *)
Inductive hid : Type :=
  p1a | p1b | p2a | p2b | p3a | p3b | p4a | p4b | dealer.

#[global] Instance hid_eq_dec : EqDecision hid.
Proof. solve_decision. Defined.

Record world : Type := mkWorld {
  suitG : list ascii;
  rankG : list Z;
  indexG : Z;
  hands : hid -> hand;
  out : list string;
  rnd : list Z;
  sensor : list Q
}.

Definition set_suitG (v : list ascii) (w : world) : world :=
  mkWorld v (rankG w) (indexG w) (hands w) (out w) (rnd w) (sensor w).
Definition set_rankG (v : list Z) (w : world) : world :=
  mkWorld (suitG w) v (indexG w) (hands w) (out w) (rnd w) (sensor w).
Definition set_indexG (v : Z) (w : world) : world :=
  mkWorld (suitG w) (rankG w) v (hands w) (out w) (rnd w) (sensor w).
Definition set_hand (p : hid) (h : hand) (w : world) : world :=
  mkWorld (suitG w) (rankG w) (indexG w)
          (fun q => if decide (q = p) then h else hands w q)
          (out w) (rnd w) (sensor w).
Definition set_rnd (v : list Z) (w : world) : world :=
  mkWorld (suitG w) (rankG w) (indexG w) (hands w) (out w) v (sensor w).
Definition set_sensor (v : list Q) (w : world) : world :=
  mkWorld (suitG w) (rankG w) (indexG w) (hands w) (out w) (rnd w) v.

(** [send]: one more text on the display. *)
Definition send (data : string) (w : world) : world :=
  mkWorld (suitG w) (rankG w) (indexG w) (hands w) (out w ++ [data]) (rnd w) (sensor w).

(** [for (int i = 0; i < n; i++) body] *)
Definition for_loop {S : Type} (n : nat) (body : Z -> S -> S) (s : S) : S :=
  fold_left (fun s i => body (Z.of_nat i) s) (seq 0 n) s.

(** ** Reset logic *)

Definition emptyHand_slot (i : Z) (h : hand) : hand :=
  let h := set_rank (arr_set (rank h) i 0) h in
  let h := set_suit (arr_set (suit h) i Ascii.zero) h in
  set_isFaceDown (arr_set (isFaceDown h) i 0) h.

Definition emptyHand (p : hid) (w : world) : world :=
  let h := for_loop (Z.to_nat MAXHAND) emptyHand_slot (hands w p) in
  let h := set_handsize 0 h in
  let h := set_handvalue 0 h in
  let h := set_busted 0 h in
  let h := set_soft 0 h in
  let h := set_empty 1 h in
  set_hand p h w.

Definition initDeck_slot (i : Z) (w : world) : world :=
  let w :=
    if i >? 3 * MAXSUIT - 1 then set_suitG (arr_set (suitG w) i "h"%char) w
    else if i >? 2 * MAXSUIT - 1 then set_suitG (arr_set (suitG w) i "d"%char) w
    else if i >? MAXSUIT - 1 then set_suitG (arr_set (suitG w) i "c"%char) w
    else set_suitG (arr_set (suitG w) i "s"%char) w in
  set_rankG (arr_set (rankG w) i (Z.rem i MAXSUIT + 1)) w.

Definition initDeck (w : world) : world :=
  let w := set_indexG 0 w in
  for_loop (Z.to_nat SINGLEDECK) initDeck_slot w.

(** [rand()]: the next value of the generator, in [0, RAND_MAX].  An
    exhausted list stands for a generator that answers [0] from then on. *)
Definition rand (w : world) : Z * world :=
  match rnd w with
  | [] => (0, w)
  | r :: rs => (r, set_rnd rs w)
  end.

(** [unsigned int j = rand() % SINGLEDECK]: the remainder truncates as in C
    and the conversion to a 16-bit [unsigned int] is reduction modulo 2^16.
    [tempR] and [tempS] hold array elements unchanged (a rank and a suit
    fit their unsigned types). *)
Definition shuffleDeck_slot (i : Z) (w : world) : world :=
  let '(r, w) := rand w in
  let j := (Z.rem r SINGLEDECK) mod 65536 in
  let tempR := arr_get (rankG w) j in
  let tempS := arr_get (suitG w) j in
  let w := set_rankG (arr_set (rankG w) j (arr_get (rankG w) i)) w in
  let w := set_suitG (arr_set (suitG w) j (arr_get (suitG w) i)) w in
  let w := set_rankG (arr_set (rankG w) i tempR) w in
  set_suitG (arr_set (suitG w) i tempS) w.

Definition shuffleDeck (w : world) : world :=
  let w := set_indexG 0 w in
  for_loop (Z.to_nat SINGLEDECK) shuffleDeck_slot w.

Definition newRound (w : world) : world :=
  let w := emptyHand dealer w in
  let w := emptyHand p1a w in
  let w := emptyHand p2a w in
  let w := emptyHand p3a w in
  let w := emptyHand p4a w in
  let w := emptyHand p1b w in
  let w := emptyHand p2b w in
  let w := emptyHand p3b w in
  let w := emptyHand p4b w in
  shuffleDeck w.

(** ** Dealing *)

Definition dealCard (p : hid) (w : world) : world :=
  if (indexG w >=? SINGLEDECK) || (handsize (hands w p) >=? MAXHAND) then
    send ("ERROR: Cannot Deal Card!" +:+ NL) w
  else
    let h := hands w p in
    let rank_ := arr_get (rankG w) (indexG w) in
    let h := set_rank (arr_set (rank h) (handsize h) rank_) h in
    let h := set_suit (arr_set (suit h) (handsize h) (arr_get (suitG w) (indexG w))) h in
    let h := set_handsize (handsize h + 1) h in
    let w := set_indexG (indexG w + 1) w in
    let h :=
      if rank_ =? 1 then set_soft (soft h + 1) (set_handvalue (handvalue h + 11) h)
      else if (rank_ =? 10) || (rank_ =? 11) || (rank_ =? 12) || (rank_ =? 13)
      then set_handvalue (handvalue h + 10) h
      else set_handvalue (handvalue h + rank_) h in
    let h :=
      if handvalue h >? 21 then
        if soft h >? 0 then set_soft (soft h - 1) (set_handvalue (handvalue h - 10) h)
        else set_busted 1 h
      else h in
    let h := set_empty 0 h in
    set_hand p h w.

(** ** Control flow: [while (1)] loops *)

(** What one pass through a loop body decides: go round again with a new
    state, or leave the loop ([break], or [return] with a value). *)
Inductive ctl (S R : Type) : Type :=
| Continue (s : S)
| Return (r : R).
Arguments Continue {S R} s.
Arguments Return {S R} r.

Fixpoint while_loop {S R : Type} (fuel : nat) (body : S -> option (ctl S R))
    (s : S) : option R :=
  match fuel with
  | O => None
  | Datatypes.S fuel =>
      match body s with
      | None => None
      | Some (Continue s') => while_loop fuel body s'
      | Some (Return r) => Some r
      end
  end.

(** C truth value of an [int]. *)
Definition truthy (x : Z) : bool := negb (x =? 0).

(** ** Splitting *)

Definition upd_hand (p : hid) (f : hand -> hand) (w : world) : world :=
  set_hand p (f (hands w p)) w.

(** [selectPlayer] assigns the two hand pointers for [P1..P4]; for [DEALER]
    it reports an error and, as for any other [ID], leaves them
    unassigned ([None]): using them afterwards is undefined behaviour. *)
Definition selectPlayer (ID : Z) (w : world) : option (hid * hid) * world :=
  if ID =? P1 then (Some (p1a, p1b), w)
  else if ID =? P2 then (Some (p2a, p2b), w)
  else if ID =? P3 then (Some (p3a, p3b), w)
  else if ID =? P4 then (Some (p4a, p4b), w)
  else if ID =? DEALER then (None, send ("ERROR in selectPlayer()" +:+ NL) w)
  else (None, w).

(** The part of [split] that moves the second card of [pA] to [pB], from
    [int cardR = pA->rank[1]] to the end of [if (cardR == 1) {...}]. *)
Definition split_move (pA pB : hid) (w : world) : world :=
  let cardR := arr_get (rank (hands w pA)) 1 in
  let cardS := arr_get (suit (hands w pA)) 1 in
  let w := upd_hand pB (fun h => set_rank (arr_set (rank h) 0 cardR) h) w in
  let w := upd_hand pB (fun h => set_suit (arr_set (suit h) 0 cardS) h) w in
  let w := upd_hand pB (fun h => set_handsize (handsize h + 1) h) w in
  let w := upd_hand pB (fun h => set_handvalue (handvalue h + cardR) h) w in
  let w := upd_hand pA (fun h => set_handsize (handsize h - 1) h) w in
  let w := upd_hand pA (fun h => set_handvalue (handvalue h - cardR) h) w in
  if cardR =? 1 then
    let w := upd_hand pB (set_soft 1) w in
    let w := upd_hand pB (set_handvalue 11) w in
    let w := upd_hand pA (set_soft 1) w in
    upd_hand pA (set_handvalue 11) w
  else w.

Definition split (ID : Z) (w : world) : option world :=
  let '(sel, w) := selectPlayer ID w in
  '(pA, pB) ← sel;
  let w := send "You split!" w in
  let w := split_move pA pB w in
  let w := dealCard pA w in
  let w := dealCard pB w in
  Some w.

(** ** The gesture classifier *)

Definition Qltb (x y : Q) : bool := (Qnum x * Zpos (Qden y) <? Qnum y * Zpos (Qden x)).

(** [USS_distance()]: one blocking read of the sensor.  A C [double] that
    is the quotient of a finite count by a positive constant is a finite
    number; it is modelled by its exact rational value, on which [<] and
    [>] agree with the floating-point comparisons. *)
Definition USS_distance (w : world) : option (Q * world) :=
  match sensor w with
  | [] => None
  | d :: ds => Some (d, set_sensor ds w)
  end.

(** The body of the [while(1)] of [USS_move]; the state is
    [(countS, countH, countN)]. *)
Definition USS_move_body (distance : Q) (c : Z * Z * Z) : option (ctl (Z * Z * Z) Z) :=
  let '(countS, countH, countN) := c in
  if Qltb DIST_HIT distance && Qltb distance (DIST_HIT + WIDTH) then
    let countN := 0 in
    let countS := countN in
    let countH := countH + 1 in
    if countH >? THRESHOLD then Some (Return HIT)
    else Some (Continue (countS, countH, countN))
  else if Qltb DIST_STAY distance && Qltb distance (DIST_STAY + WIDTH) then
    let countN := 0 in
    let countH := countN in
    let countS := countS + 1 in
    if countS >? THRESHOLD then Some (Return STAY)
    else Some (Continue (countS, countH, countN))
  else
    let countS := 0 in
    let countH := countS in
    let countN := countN + 1 in
    if countN >? THRESHOLD then Some (Return NOACTION)
    else Some (Continue (countS, countH, countN)).

Definition USS_move (fuel : nat) (w : world) : option (Z * world) :=
  '(distance, w) ← USS_distance w;
  r ← while_loop fuel (USS_move_body distance) (0, 0, 0);
  Some (r, w).

(** [while (USS_move() != NOACTION);] *)
Definition userInput_clear_body (fuel : nat) (w : world) : option (ctl world world) :=
  '(m, w) ← USS_move fuel w;
  if negb (m =? NOACTION) then Some (Continue w) else Some (Return w).

(** [while (1) { switch (USS_move()) {...} }]: a value that is none of the
    three cases falls out of the [switch] like [NOACTION]. *)
Definition userInput_commit_body (fuel : nat) (w : world) : option (ctl world (Z * world)) :=
  '(m, w) ← USS_move fuel w;
  if m =? STAY then Some (Return (STAY, w))
  else if m =? HIT then Some (Return (HIT, w))
  else Some (Continue w).

Definition userInput (fuel : nat) (w : world) : option (Z * world) :=
  w ← while_loop fuel (userInput_clear_body fuel) w;
  while_loop fuel (userInput_commit_body fuel) w.

(** ** A player's turn *)

(** The body of the first [while (1)] of [playTurn]; the state is
    [(askSplit, w)]. *)
Definition playTurn_first_body (fuel : nat) (ID : Z) (pA : hid) (s : Z * world) :
    option (ctl (Z * world) world) :=
  let '(askSplit, w) := s in
  if (arr_get (rank (hands w pA)) 0 =? arr_get (rank (hands w pA)) 1) && truthy askSplit then
    let w := send "SPLIT? (HIT for YES) (STAY for NO)" w in
    '(c, w) ← userInput fuel w;
    w ← (if c =? HIT then split ID w else Some w);
    let askSplit := 0 in
    Some (Continue (askSplit, w))
  else if truthy (busted (hands w pA)) then
    Some (Return (send "You BUSTED!" w))
  else if handvalue (hands w pA) =? 21 then
    Some (Return (send "You got TAPJACK!" w))
  else
    let w := send "HIT or STAY?" w in
    '(choice, w) ← userInput fuel w;
    if choice =? HIT then
      let w := send "You hit!" w in
      let w := dealCard pA w in
      Some (Continue (askSplit, w))
    else if choice =? STAY then
      Some (Return (send "You stayed!" w))
    else
      Some (Return (send "ERROR in playTurn()" w)).

(** The body of the second [while (1)] of [playTurn]. *)
Definition playTurn_second_body (fuel : nat) (pB : hid) (w : world) :
    option (ctl world world) :=
  if truthy (busted (hands w pB)) then
    Some (Return (send "You BUSTED!" w))
  else if handvalue (hands w pB) =? 21 then
    Some (Return (send "You got TAPJACK!" w))
  else
    let w := send "HIT or STAY?" w in
    '(choice, w) ← userInput fuel w;
    if choice =? HIT then
      let w := send "You hit!" w in
      let w := dealCard pB w in
      Some (Continue w)
    else if choice =? STAY then
      Some (Return (send "You stayed!" w))
    else
      Some (Return (send "ERROR in playTurn()" w)).

Definition playTurn (fuel : nat) (ID : Z) (w : world) : option world :=
  let askSplit := 1 in
  let '(sel, w) := selectPlayer ID w in
  '(pA, pB) ← sel;
  w ← while_loop fuel (playTurn_first_body fuel ID pA) (askSplit, w);
  if truthy (empty (hands w pB)) then Some w
  else while_loop fuel (playTurn_second_body fuel pB) w.

(** ** The dealer's turn and the results *)

(** The body of the dealer's [while (1)] in [main]. *)
Definition dealer_body (w : world) : option (ctl world world) :=
  if truthy (busted (hands w dealer)) then
    Some (Return (send "Dealer BUSTED!" w))
  else if (handvalue (hands w dealer) <? 17)
          || ((handvalue (hands w dealer) =? 17) && truthy (soft (hands w dealer))) then
    let w := send "Dealer hits!" w in
    let w := dealCard dealer w in
    Some (Continue w)
  else
    Some (Return (send "Dealer stays with " w)).

Definition dealerTurn (fuel : nat) (w : world) : option world :=
  while_loop fuel dealer_body w.

(** The [if] chain of [dispResults], written out twice in the source (for
    [pA] and for [pB]) with the same text: the verdict it sends. *)
Definition result_text (p d : hand) : string :=
  if truthy (busted p) then " LOST with "
  else if handvalue p =? handvalue d then " PUSHED with "
  else if (handvalue p <? handvalue d) && negb (truthy (busted d)) then " LOST with "
  else if (handvalue p >? handvalue d) || truthy (busted d) then " WON with "
  else "ERROR in dispResults()".

Definition dispResults_seat (ID : Z) (w : world) : option world :=
  let '(sel, w) := selectPlayer ID w in
  '(pA, pB) ← sel;
  let w := send "      Player " w in
  let w := send (result_text (hands w pA) (hands w dealer)) w in
  if negb (truthy (empty (hands w pB))) then
    let w := send " and" w in
    Some (send (result_text (hands w pB) (hands w dealer)) w)
  else Some w.

Definition dispResults (w : world) : option world :=
  let w := upd_hand dealer (fun h => set_isFaceDown (arr_set (isFaceDown h) 0 0) h) w in
  let w := if truthy (busted (hands w dealer)) then send "Dealer BUSTED!" w
           else send "Dealer stays with " w in
  w ← dispResults_seat P1 w;
  w ← dispResults_seat P2 w;
  w ← dispResults_seat P3 w;
  dispResults_seat P4 w.

(** ** One round of [main] *)

(** The opening deal: [for (int i = 0; i < 2; i++) { dealCard(&p1a); ...
    dealCard(&dealer); }]. *)
Definition opening_deal (w : world) : world :=
  for_loop 2 (fun _ w =>
    let w := dealCard p1a w in
    let w := dealCard p2a w in
    let w := dealCard p3a w in
    let w := dealCard p4a w in
    dealCard dealer w) w.

(** The round up to the end of the dealer's turn: the state on which
    [dispResults] decides the outcomes. *)
Definition round_play (fuel : nat) (w : world) : option world :=
  let w := newRound w in
  let w := opening_deal w in
  let w := upd_hand dealer (fun h => set_isFaceDown (arr_set (isFaceDown h) 0 1) h) w in
  w ← playTurn fuel P1 w;
  w ← playTurn fuel P2 w;
  w ← playTurn fuel P3 w;
  w ← playTurn fuel P4 w;
  let w := upd_hand dealer (fun h => set_isFaceDown (arr_set (isFaceDown h) 0 0) h) w in
  dealerTurn fuel w.

Definition round (fuel : nat) (w : world) : option world :=
  w ← round_play fuel w;
  dispResults w.

(** [main] after its initialisation: [n] rounds played one after the other
    (the source plays 999). *)
Fixpoint rounds (n : nat) (fuel : nat) (w : world) : option world :=
  match n with
  | O => Some w
  | Datatypes.S n => w ← round fuel w; rounds n fuel w
  end.

Definition main (fuel : nat) (w : world) : option world :=
  let w := initDeck w in
  rounds 999 fuel w.

(** ** Vocabulary of the specification *)

(** The deck as the sequence of its (rank, suit) pairs. *)
Definition cards (w : world) : list (Z * ascii) := zip (rankG w) (suitG w).

(** The 52 standard cards: 4 suits times the ranks 1..13. *)
Definition standard_deck : list (Z * ascii) :=
  s ← ["s"; "c"; "d"; "h"]%char; r ← seqZ 1 13; [(r, s)].

(** The two deck arrays have their declared size [SINGLEDECK]. *)
Definition deck_sized (w : world) : Prop :=
  length (rankG w) = Z.to_nat SINGLEDECK /\ length (suitG w) = Z.to_nat SINGLEDECK.

(** The globals of a C program start zeroed; [rs] and [ds] are what the
    generator and the sensor will answer. *)
Definition zero_hand : hand :=
  mkHand (replicate (Z.to_nat MAXHAND) 0) (replicate (Z.to_nat MAXHAND) Ascii.zero)
         (replicate (Z.to_nat MAXHAND) 0) 0 0 0 0 0.

Definition boot (rs : list Z) (ds : list Q) : world :=
  mkWorld (replicate (Z.to_nat SINGLEDECK) Ascii.zero) (replicate (Z.to_nat SINGLEDECK) 0)
          0 (fun _ => zero_hand) [] rs ds.

(** The three hand arrays have their declared size [MAXHAND]. *)
Definition hand_sized (h : hand) : Prop :=
  length (rank h) = Z.to_nat MAXHAND /\ length (suit h) = Z.to_nat MAXHAND /\
  length (isFaceDown h) = Z.to_nat MAXHAND.

(** The cards a hand holds: its first [handsize] (rank, suit) slots. *)
Definition hand_cards (h : hand) : list (Z * ascii) :=
  take (Z.to_nat (handsize h)) (zip (rank h) (suit h)).

(** The card under the cursor of the deck. *)
Definition next_card (w : world) : Z * ascii :=
  (arr_get (rankG w) (indexG w), arr_get (suitG w) (indexG w)).

(** The card at position [i] of the deck. *)
Definition card_at (w : world) (i : Z) : Z * ascii :=
  (arr_get (rankG w) i, arr_get (suitG w) i).

(** The diagnostic of a refused deal. *)
Definition deal_error : string := "ERROR: Cannot Deal Card!" +:+ NL.

(** A rank of a playing card. *)
Definition rank_ok (r : Z) : Prop := 1 <= r <= 13.

#[global] Instance rank_ok_dec (r : Z) : Decision (rank_ok r).
Proof. unfold rank_ok. apply _. Defined.

(** The hands that come from an empty hand by dealing cards to it, whatever
    happens to the rest of the world in between. *)
Inductive dealt_hand : hand -> Prop :=
| dealt_empty (p : hid) (w : world) :
    dealt_hand (hands (emptyHand p w) p)
| dealt_card (p : hid) (w : world) :
    dealt_hand (hands w p) ->
    rank_ok (fst (next_card w)) ->
    dealt_hand (hands (dealCard p w) p).

(** The same, when no Ace is ever dealt to a hand that stands at 21. *)
Inductive dealt_hand_no_ace_on_21 : hand -> Prop :=
| dealt21_empty (p : hid) (w : world) :
    dealt_hand_no_ace_on_21 (hands (emptyHand p w) p)
| dealt21_card (p : hid) (w : world) :
    dealt_hand_no_ace_on_21 (hands w p) ->
    rank_ok (fst (next_card w)) ->
    ~ (handvalue (hands w p) = 21 /\ fst (next_card w) = 1) ->
    dealt_hand_no_ace_on_21 (hands (dealCard p w) p).

(** The flags of a hand agree with its value. *)
Definition hand_consistent (h : hand) : Prop :=
  0 <= soft h /\
  ((busted h = 0 /\ handvalue h <= 21) \/ (busted h = 1 /\ 21 < handvalue h /\ soft h = 0)).

(** ** Vocabulary of the gesture classifier *)

(** The zone of a distance: [HIT] strictly inside
    (DIST_HIT, DIST_HIT + WIDTH), [STAY] strictly inside
    (DIST_STAY, DIST_STAY + WIDTH), [NOACTION] otherwise. *)
Definition in_hit_zone (d : Q) : Prop := (DIST_HIT < d /\ d < DIST_HIT + WIDTH)%Q.
Definition in_stay_zone (d : Q) : Prop := (DIST_STAY < d /\ d < DIST_STAY + WIDTH)%Q.

Definition zone (d : Q) : Z :=
  if Qltb DIST_HIT d && Qltb d (DIST_HIT + WIDTH) then HIT
  else if Qltb DIST_STAY d && Qltb d (DIST_STAY + WIDTH) then STAY
  else NOACTION.

(** The counter of [USS_move] that a sample at distance [d] increments. *)
Definition zone_count (d : Q) (c : Z * Z * Z) : Z :=
  let '(countS, countH, countN) := c in
  if zone d =? HIT then countH else if zone d =? STAY then countS else countN.

(** Number of classifications [USS_move] makes before it returns. *)
Definition classifications : nat := Z.to_nat (THRESHOLD + 1).

(** The samples one call of [userInput] consumes, in order: samples that are
    not in the [NOACTION] zone, one sample [c] that is (the gesture area is
    clear), samples in the [NOACTION] zone, and one sample [x] in the zone of
    the action [a] it returns, [HIT] or [STAY]; [rest] is left unread. *)
Definition clear_then_commit (samples : list Q) (a : Z) (rest : list Q) : Prop :=
  exists pre c mid x,
    samples = pre ++ c :: mid ++ x :: rest /\
    Forall (fun d => zone d <> NOACTION) pre /\ zone c = NOACTION /\
    Forall (fun d => zone d = NOACTION) mid /\ zone x = a /\
    (a = HIT \/ a = STAY).

(** ** Vocabulary of the split offer *)

(** Number of splits the display has announced. *)
Definition splits (w : world) : nat :=
  length (filter (fun s => s = "You split!") (out w)).

(** The guard of the split offer in [playTurn]. *)
Definition split_offered (pA : hid) (askSplit : Z) (w : world) : Prop :=
  arr_get (rank (hands w pA)) 0 = arr_get (rank (hands w pA)) 1 /\ askSplit <> 0.

(** The world after one pass of a loop body. *)
Definition ctl_world {X : Type} (c : ctl (X * world) world) : world :=
  match c with
  | Continue (_, w) => w
  | Return w => w
  end.

(** ** Vocabulary of the dealer's policy *)

(** The dealer's hand is a soft 17. *)
Definition soft_17 (h : hand) : Prop := handvalue h = 17 /\ soft h <> 0.

(** The condition under which the dealer's loop draws. *)
Definition dealer_draws (w : world) : Prop :=
  busted (hands w dealer) = 0 /\
  (handvalue (hands w dealer) < 17 \/ soft_17 (hands w dealer)).

(** What the dealer's hand is when the loop is left: bust, or at least 17
    and not a soft 17. *)
Definition dealer_stopped (h : hand) : Prop :=
  busted h <> 0 \/ (17 <= handvalue h /\ ~ soft_17 h).

(** The value of a hand with every Ace counted as 1, and what a card of
    rank [r] adds to it. *)
Definition hard_total (h : hand) : Z := handvalue h - 10 * soft h.

Definition hard_value (r : Z) : Z :=
  if r =? 1 then 1 else if (10 <=? r) && (r <=? 13) then 10 else r.

(** The [hard_value]s of the [k] cards of the deck from position [i] on. *)
Fixpoint upcoming (k : nat) (ranks : list Z) (i : Z) : Z :=
  match k with
  | O => 0
  | Datatypes.S k => hard_value (arr_get ranks i) + upcoming k ranks (i + 1)
  end.

(** The sum of the [hard_value]s of a list of ranks. *)
Definition hard_sum (l : list Z) : Z := foldr (fun r s => hard_value r + s) 0 l.

(** ** Vocabulary of a round *)

(** The deck of a running game: arrays of the declared size, every rank a
    rank of a playing card, a cursor that is not negative. *)
Definition deck_ok (w : world) : Prop :=
  deck_sized w /\ Forall rank_ok (rankG w) /\ 0 <= indexG w.

(** What [main] hands to each round: a deck as [initDeck] or an earlier
    shuffle left it, hand arrays of the declared size, and a generator that
    answers in [0, RAND_MAX]. *)
Definition round_ready (w : world) : Prop :=
  deck_sized w /\ Forall rank_ok (rankG w) /\
  (forall p, hand_sized (hands w p)) /\
  Forall (fun r => 0 <= r) (rnd w).

(** The invariant of the play: the deck is in order and the flags of every
    hand agree with its value. *)
Definition table_ok (w : world) : Prop :=
  deck_ok w /\ forall p, hand_consistent (hands w p).

(** The hand arrays have their declared size and the generator answers in
    [0, RAND_MAX]: what a round leaves as it found it. *)
Definition table_sized (w : world) : Prop :=
  (forall p, hand_sized (hands w p)) /\ Forall (fun r => 0 <= r) (rnd w).

(** A hand that has been dealt [k] cards in the opening deal. *)
Definition opening_hand (k : Z) (h : hand) : Prop :=
  hand_sized h /\ handsize h = k /\ busted h = 0 /\ 0 <= soft h /\
  (k = 0 -> handvalue h = 0 /\ soft h = 0) /\
  (k = 1 -> handvalue h <= 11) /\
  (k = 2 -> handvalue h <= 21 /\ rank_ok (arr_get (rank h) 1)).

(** A seat before its turn: two cards in the primary hand, an untouched
    secondary hand. *)
Definition seat_fresh (pA pB : hid) (w : world) : Prop :=
  opening_hand 2 (hands w pA) /\ opening_hand 0 (hands w pB).

(** The table during the opening deal: the cursor is at [i] and hand [q]
    holds [cnt q] cards. *)
Definition opening (i : Z) (cnt : hid -> Z) (w : world) : Prop :=
  deck_ok w /\ indexG w = i /\ forall q, opening_hand (cnt q) (hands w q).

(** Only the two hands of the seat being played change. *)
Definition frame (pA pB : hid) (w w' : world) : Prop :=
  forall q, q <> pA -> q <> pB -> hands w' q = hands w q.

(** The invariant of the first loop of [playTurn], on its state
    [(askSplit, w1)], for a turn that started in [w]: as long as the split
    offer is open the primary hand keeps its first two cards and the
    secondary hand is untouched. *)
Definition first_loop_inv (pA pB : hid) (w : world) (s : Z * world) : Prop :=
  let '(askSplit, w1) := s in
  table_ok w1 /\ frame pA pB w w1 /\
  (askSplit <> 0 ->
     2 <= handsize (hands w1 pA) /\
     rank_ok (arr_get (rank (hands w1 pA)) 1) /\
     opening_hand 0 (hands w1 pB) /\
     (arr_get (rank (hands w1 pA)) 0 = arr_get (rank (hands w1 pA)) 1 ->
      busted (hands w1 pA) = 0)).

(** The verdicts of [dispResults]. *)
Definition Won (p d : hand) : Prop := result_text p d = " WON with ".
Definition Lost (p d : hand) : Prop := result_text p d = " LOST with ".
Definition Pushed (p d : hand) : Prop := result_text p d = " PUSHED with ".

(** The lines [dispResults] sends for one seat. *)
Definition seat_lines (pA pB : hid) (w : world) : list string :=
  ["      Player "; result_text (hands w pA) (hands w dealer)] ++
  (if truthy (empty (hands w pB)) then []
   else [" and"; result_text (hands w pB) (hands w dealer)]).

(** ** Vocabulary of the table as a whole *)

(** The nine hands, in the order of their declaration. *)
Definition all_hands : list hid := [p1a; p1b; p2a; p2b; p3a; p3b; p4a; p4b; dealer].

(** The cards the hands hold between them. *)
Definition dealt_cards (w : world) : list (Z * ascii) :=
  p ← all_hands; hand_cards (hands w p).

(** The cards that left the deck are the cards the hands hold: arrays of
    the declared size, hand sizes that are not negative, a cursor inside
    the deck, and the dealt cards are the cards before the cursor. *)
Definition cards_ok (w : world) : Prop :=
  (forall p, hand_sized (hands w p) /\ 0 <= handsize (hands w p)) /\
  deck_sized w /\ 0 <= indexG w <= SINGLEDECK /\
  dealt_cards w ≡ₚ take (Z.to_nat (indexG w)) (cards w).

(** What [emptyHand] leaves of a hand. *)
Definition cleared_hand : hand :=
  mkHand (replicate (Z.to_nat MAXHAND) 0) (replicate (Z.to_nat MAXHAND) Ascii.zero)
         (replicate (Z.to_nat MAXHAND) 0) 0 0 0 0 1.

(** The table during a deal from the deck of [w0]: the cursor is at [k],
    nothing was displayed and hand [q] holds the cards [f q]. *)
Definition dealing (w0 : world) (k : Z) (f : hid -> list (Z * ascii)) (w : world) : Prop :=
  rankG w = rankG w0 /\ suitG w = suitG w0 /\ indexG w = k /\ out w = out w0 /\
  forall q, hand_sized (hands w q) /\ handsize (hands w q) = Z.of_nat (length (f q)) /\
            hand_cards (hands w q) = f q.

(** ** Vocabulary of a turn *)

(** What the play leaves of the world outside the hands: the deck arrays
    and the generator are kept, the cursor only advances, the display only
    grows and the sensor stream is only consumed. *)
Definition turn_frame (w w' : world) : Prop :=
  rankG w' = rankG w /\ suitG w' = suitG w /\ rnd w' = rnd w /\
  indexG w <= indexG w' /\ out w `prefix_of` out w' /\ sensor w' `suffix_of` sensor w.

(** The diagnostics of the branches that no run should reach. *)
Definition internal_error (s : string) : Prop :=
  s = "ERROR in playTurn()" \/ s = "ERROR in dispResults()" \/
  s = ("ERROR in selectPlayer()" +:+ NL).

#[global] Instance internal_error_dec (s : string) : Decision (internal_error s).
Proof. unfold internal_error. apply _. Defined.

Definition internal_errors (w : world) : list string := filter internal_error (out w).

(** What a turn of the seat [pA], [pB] that started in [w] has kept so
    far. *)
Definition turn_kept (pA pB : hid) (w w1 : world) : Prop :=
  frame pA pB w w1 /\ turn_frame w w1 /\ internal_errors w1 = internal_errors w.

(** The invariant of the first loop of [playTurn] on the cards: as long as
    the split offer is open the secondary hand is empty, and a primary hand
    that shows a pair holds just the two cards. *)
Definition first_loop_cards (pA pB : hid) (s : Z * world) : Prop :=
  let '(askSplit, w1) := s in
  cards_ok w1 /\
  (askSplit <> 0 ->
     handsize (hands w1 pB) = 0 /\ 2 <= handsize (hands w1 pA) /\
     (arr_get (rank (hands w1 pA)) 0 = arr_get (rank (hands w1 pA)) 1 ->
      handsize (hands w1 pA) = 2)).

(** How the play of a hand ends, and what the display says last. *)
Definition turn_over (h : hand) (o : list string) : Prop :=
  (last o = Some "You BUSTED!" /\ busted h <> 0) \/
  (last o = Some "You got TAPJACK!" /\ busted h = 0 /\ handvalue h = 21) \/
  (last o = Some "You stayed!" /\ busted h = 0 /\ handvalue h <> 21).

(** The ranks of the cards a hand holds. *)
Definition hand_ranks (h : hand) : list Z := (hand_cards h).*1.

(** The value of a hand is the value of its cards: with every Ace counted
    as 1, the total of the [hard_value]s of its ranks. *)
Definition exact_hand (h : hand) : Prop := hard_total h = hard_sum (hand_ranks h).

(** What holds of the value of every hand of a round, split or not: the
    cards count at most 3 more than the hand says (a split counts a moved
    Jack, Queen or King by its rank), and the value is at most 31. *)
Definition val_ok (h : hand) : Prop :=
  0 <= soft h /\ hard_sum (hand_ranks h) <= hard_total h + 3 /\ handvalue h <= 31.

(** The refused deals the display has reported. *)
Definition refusals (w : world) : list string := filter (fun s => s = deal_error) (out w).

(** The table of a round played with the 52 standard cards. *)
Definition sound (w : world) : Prop :=
  table_ok w /\ cards_ok w /\ cards w ≡ₚ standard_deck /\ forall p, val_ok (hands w p).

(** The invariant of the first loop of [playTurn] for a round played with
    the 52 standard cards. *)
Definition first_loop_sound (pA pB : hid) (w : world) (s : Z * world) : Prop :=
  first_loop_inv pA pB w s /\ first_loop_cards pA pB s /\
  cards (snd s) ≡ₚ standard_deck /\ (forall p, val_ok (hands (snd s) p)) /\
  refusals (snd s) = refusals w /\
  (fst s <> 0 -> exact_hand (hands (snd s) pA)).

(** The table during the opening deal of a round played with the 52
    standard cards. *)
Definition opening_sound (w0 : world) (i : Z) (cnt : hid -> Z) (w : world) : Prop :=
  opening i cnt w /\ sound w /\ (forall q, exact_hand (hands w q)) /\ out w = out w0.

(** The round of [main] up to the dealer's turn: [newRound], the opening
    deal, the four turns, and the dealer's first card turned face up. *)
Definition before_dealer (fuel : nat) (w : world) : option world :=
  let w := newRound w in
  let w := opening_deal w in
  let w := upd_hand dealer (fun h => set_isFaceDown (arr_set (isFaceDown h) 0 1) h) w in
  w ← playTurn fuel P1 w;
  w ← playTurn fuel P2 w;
  w ← playTurn fuel P3 w;
  w ← playTurn fuel P4 w;
  Some (upd_hand dealer (fun h => set_isFaceDown (arr_set (isFaceDown h) 0 0) h) w).

(** ** The display *)

(** The screens of the game as the bytes the terminal receives.  The
    terminal is what [send] and [sendChar] have written to the USART so far,
    together with the global [SCREENFILL], the number of lines still to be
    filled on the current screen.  The delays change neither. *)
Module Display.

Definition TERMHEIGHT : Z := 28.
Definition TERMWIDTH : Z := 165.
Definition ASCII_NUM : Z := 48.

Definition NLc : ascii := "010"%char.
Definition TAB : ascii := "009"%char.

Record term : Type := mkTerm {
  SCREENFILL : Z;
  sent : list ascii
}.

Definition set_SCREENFILL (v : Z) (t : term) : term := mkTerm v (sent t).

Definition sendChar (data : ascii) (t : term) : term :=
  mkTerm (SCREENFILL t) (sent t ++ [data]).

(** [send]: the characters of the string, one [sendChar] each. *)
Definition send (data : string) (t : term) : term :=
  mkTerm (SCREENFILL t) (sent t ++ list_ascii_of_string data).

(** The conversion of an [int] to [char]: its low eight bits. *)
Definition to_char (x : Z) : ascii := ascii_of_nat (Z.to_nat (x mod 256)).

Definition rankConvert (rank_ : Z) : ascii :=
  if rank_ =? 1 then "A"%char
  else if rank_ =? 13 then "K"%char
  else if rank_ =? 12 then "Q"%char
  else if rank_ =? 11 then "J"%char
  else if rank_ =? 10 then "T"%char
  else to_char (rank_ + ASCII_NUM).

(** [for (; lines > 0; lines--) sendChar(NL);] *)
Definition fillScreen (lines : Z) (t : term) : term :=
  Nat.iter (Z.to_nat lines) (sendChar NLc) t.

(** [for (int i = (TERMWIDTH - strWidth)/2; i > 0; i--) sendChar(' ');]
    the division of C truncates towards zero. *)
Definition alignCenter (strWidth : Z) (t : term) : term :=
  Nat.iter (Z.to_nat (Z.quot (TERMWIDTH - strWidth) 2)) (sendChar " "%char) t.

(** [itoa(value, buf, 10)] of the C library: the decimal digits of an
    [int], after a minus sign if it is negative.  Five digits are enough
    for a 16-bit [int]. *)
Fixpoint digits (n : nat) (v : Z) (acc : list ascii) : list ascii :=
  match n with
  | O => acc
  | Datatypes.S n =>
      let acc := to_char (v mod 10 + ASCII_NUM) :: acc in
      if v / 10 =? 0 then acc else digits n (v / 10) acc
  end.

Definition itoa (value : Z) : list ascii :=
  if value <? 0 then "-"%char :: digits 5 (- value) [] else digits 5 value [].

(** [char buf[size]; itoa(value, buf, 10); send(buf);] the digits and the
    terminating zero must fit the buffer, writing past it is undefined
    behaviour ([None]). *)
Definition send_itoa (size : nat) (value : Z) (t : term) : option term :=
  let s := itoa value in
  if decide (length s < size)%nat then Some (mkTerm (SCREENFILL t) (sent t ++ s)) else None.

(** One row of [cardPrint]: [alignCenter(numCards*14); for (k = 0; k <
    numCards; k++) {...} sendChar(NL);].  [k] is an [unsigned int], so the
    comparison is made on the 16-bit unsigned value of [numCards]. *)
Definition card_row (numCards : Z) (cell : Z -> term -> term) (t : term) : term :=
  let t := alignCenter (numCards * 14) t in
  let t := for_loop (Z.to_nat (numCards mod 65536)) cell t in
  sendChar NLc t.

Definition border_cell (p : hand) (k : Z) (t : term) : term :=
  send " +-----------+" t.

Definition toprank_cell (p : hand) (k : Z) (t : term) : term :=
  if truthy (arr_get (isFaceDown p) k) then send " |###########|" t
  else
    let t := send " | " t in
    let t := sendChar (rankConvert (arr_get (rank p) k)) t in
    let t := send "         " t in
    send "|" t.

Definition spacer_cell (p : hand) (k : Z) (t : term) : term :=
  if truthy (arr_get (isFaceDown p) k) then send " |####   ####|" t
  else send " |           |" t.

(** [if (p->isFaceDown[k]) send(down); else switch (p->suit[k]) {...}] *)
Definition body_cell (down h d c s : string) (p : hand) (k : Z) (t : term) : term :=
  if truthy (arr_get (isFaceDown p) k) then send down t
  else
    let x := arr_get (suit p) k in
    if Ascii.eqb x "h" then send h t
    else if Ascii.eqb x "d" then send d t
    else if Ascii.eqb x "c" then send c t
    else if Ascii.eqb x "s" then send s t
    else send " |   ERROR   |" t.

Definition botrank_cell (p : hand) (k : Z) (t : term) : term :=
  if truthy (arr_get (isFaceDown p) k) then send " |###########|" t
  else
    let t := send " |" t in
    let t := send "         " t in
    let t := sendChar (rankConvert (arr_get (rank p) k)) t in
    send " |" t.

Definition cardPrint (p : hand) (t : term) : term :=
  let numCards := handsize p in
  let t := card_row numCards (border_cell p) t in
  let t := card_row numCards (toprank_cell p) t in
  let t := card_row numCards (spacer_cell p) t in
  let t := card_row numCards
             (body_cell " |#### U ####|" " |    _ _    |" " |     ^     |"
                        " |     _     |" " |     .     |" p) t in
  let t := card_row numCards
             (body_cell " |#### N ####|" " |   ( V )   |" " |    / \    |"
                        " |    (&)    |" " |    /&\    |" p) t in
  let t := card_row numCards
             (body_cell " |#### L ####|" " |    \ /    |" " |    \ /    |"
                        " |   (&&&)   |" " |   (&&&)   |" p) t in
  let t := card_row numCards
             (body_cell " |#### V ####|" " |     V     |" " |     V     |"
                        " |     ^     |" " |     ^     |" p) t in
  let t := card_row numCards (spacer_cell p) t in
  let t := card_row numCards (botrank_cell p) t in
  let t := card_row numCards (border_cell p) t in
  set_SCREENFILL (SCREENFILL t - 10) t.

(** One pass of the loop of [dispUpper] over the seats.  The state is the
    two hand pointers and the terminal; [selectPlayer] assigns the pointers
    for [P1..P4] and leaves them as they are for any other [i]. *)
Definition dispUpper_seat (w : world) (i : Z) (s : option (option (hid * hid) * term)) :
    option (option (hid * hid) * term) :=
  '(sel, t) ← s;
  let sel := match fst (selectPlayer i w) with Some x => Some x | None => sel end in
  '(pA, pB) ← sel;
  let t := send "Player " t in
  let t := sendChar (to_char (i + ASCII_NUM)) t in
  let t := send "'s hand: [" t in
  t ← send_itoa 6 (handvalue (hands w pA)) t;
  t ← (if negb (truthy (empty (hands w pB))) then
         let t := send "][" t in
         send_itoa 6 (handvalue (hands w pB)) t
       else Some t);
  Some (Some (pA, pB), send (String "]" (String TAB EmptyString)) t).

Definition dispUpper (ID : Z) (w : world) (t : term) : option term :=
  let '(ID, t) :=
    if ID =? DEALER then (4, send "DEALER'S TURN.  " t)
    else
      let t := send "PLAYER " t in
      let t := sendChar (to_char (ID + ASCII_NUM)) t in
      (ID, send "'S TURN." t) in
  let t := send (String TAB (String TAB (String TAB (String TAB EmptyString)))) t in
  '(_, t) ← for_loop (Z.to_nat ID) (fun i => dispUpper_seat w (i + 1)) (Some (None, t));
  let t := sendChar NLc t in
  let t := sendChar NLc t in
  let t := alignCenter 18 t in
  let t := send "Dealer is showing:" t in
  let t := sendChar NLc t in
  let t := set_SCREENFILL (SCREENFILL t - 3) t in
  Some (cardPrint (hands w dealer) t).

Definition dispBlank (t : term) : term :=
  let t := set_SCREENFILL TERMHEIGHT t in
  let t := fillScreen (SCREENFILL t) t in
  sendChar NLc t.

Definition dispRound (round : Z) (t : term) : option term :=
  let t := set_SCREENFILL TERMHEIGHT t in
  let t := fillScreen 15 t in
  let t := alignCenter 7 t in
  let t := send "Round " t in
  t ← send_itoa 5 round t;
  let t := set_SCREENFILL (SCREENFILL t - 15) t in
  let t := fillScreen (SCREENFILL t) t in
  Some (sendChar NLc t).

Definition dispTurn (ID : Z) (t : term) : term :=
  let t := set_SCREENFILL TERMHEIGHT t in
  let t := fillScreen 15 t in
  let t :=
    if ID =? DEALER then
      let t := alignCenter 13 t in
      send "DEALER'S TURN" t
    else
      let t := alignCenter 15 t in
      let t := send "PLAYER " t in
      let t := sendChar (to_char (ID + ASCII_NUM)) t in
      send "'S TURN" t in
  let t := set_SCREENFILL (SCREENFILL t - 15) t in
  let t := fillScreen (SCREENFILL t) t in
  sendChar NLc t.

(** The number of line feeds the terminal has received. *)
Definition lines (t : term) : nat := length (filter (fun c => c = NLc) (sent t)).

(** [f] does nothing but send the characters [s]. *)
Definition writes (f : term -> term) (s : list ascii) : Prop :=
  forall t, f t = mkTerm (SCREENFILL t) (sent t ++ s).

(** The same for a function that may fail. *)
Definition writes_opt (f : term -> option term) (s : list ascii) : Prop :=
  forall t, f t = Some (mkTerm (SCREENFILL t) (sent t ++ s)).

(** A character of a line: any character but the line feed. *)
Definition inline (s : list ascii) : Prop := Forall (fun c => c <> NLc) s.

(** A title screen: fifteen line feeds, a title centred on its line to
    within two columns, and line feeds to the end of the screen and one
    more. *)
Definition title_screen (title : list ascii) (t t' : term) : Prop :=
  exists pad : nat,
    sent t' = sent t ++ replicate 15 NLc ++ replicate pad " "%char ++ title ++
              replicate 14 NLc /\
    inline title /\
    -2 <= 2 * Z.of_nat pad + Z.of_nat (length title) - TERMWIDTH <= 2 /\
    SCREENFILL t' = TERMHEIGHT - 15.

(** What a face-up look at two hands cannot tell apart: the same number of
    cards, the same cards face down, and the same rank and suit wherever a
    card is face up. *)
Definition same_face_up (p q : hand) : Prop :=
  handsize p = handsize q /\
  forall k, 0 <= k < handsize p ->
    truthy (arr_get (isFaceDown p) k) = truthy (arr_get (isFaceDown q) k) /\
    (truthy (arr_get (isFaceDown p) k) = false ->
     arr_get (rank p) k = arr_get (rank q) k /\ arr_get (suit p) k = arr_get (suit q) k).

(** What a cell of a card picture writes: fourteen characters of a line. *)
Definition cell_ok (s : list ascii) : Prop := length s = 14%nat /\ inline s.

(** A row of a card picture: the left margin, the cells, no line feed. *)
Definition row_ok (numCards : Z) (row : list ascii) : Prop :=
  let pad := Z.to_nat (Z.quot (TERMWIDTH - numCards * 14) 2) in
  length row = (pad + 14 * Z.to_nat numCards)%nat /\ inline row /\
  take pad row = replicate pad " "%char.

(** The pointers of the loop of [dispUpper] name hands of players. *)
Definition seat_pointers_ok (s : option (option (hid * hid) * term)) : Prop :=
  match s with
  | Some (Some (pA, pB), _) => pA <> dealer /\ pB <> dealer
  | _ => True
  end.

End Display.

(** ** Example states *)

(** An unshuffled deck (spades A..K, clubs A..K, ...) and two empty hands. *)
Definition fresh_table : world :=
  emptyHand p2a (emptyHand p1a (initDeck (boot [] []))).

(** [p1a] is dealt 5, 6, 10 and stands at a hard 21, [p2a] takes the cards
    in between; then [p1a] is dealt the Ace of clubs. *)
Definition hard_21 : world :=
  Nat.iter 3 (dealCard p2a)
    (dealCard p1a (Nat.iter 3 (dealCard p2a)
       (Nat.iter 2 (dealCard p1a) (Nat.iter 4 (dealCard p2a) fresh_table)))).

Definition ace_on_hard_21 : world := dealCard p1a hard_21.

(** The stream alternates between the [NOACTION] zone and the [HIT] zone at
    every sample. *)
Definition alternating_table : world :=
  set_sensor [100; 10; 100; 10; 100; 10]%Q (boot [] []).

(** [p1a] holds the King of spades and the King of clubs (value 20); the
    cards between them went to [p2a] and [p2b].  The next cards of the deck
    are the Ace and the 2 of diamonds. *)
Definition two_kings : world :=
  dealCard p1a (Nat.iter 12 (dealCard p2b)
    (dealCard p1a (Nat.iter 12 (dealCard p2a)
       (emptyHand p1b (emptyHand p2b fresh_table))))).

(** [p1a] holds a 5 and a 9: not a pair. *)
Definition five_nine : world :=
  dealCard p1a (Nat.iter 3 (dealCard p2a)
    (dealCard p1a (Nat.iter 4 (dealCard p2a) (emptyHand p1b fresh_table)))).

(** Seat 1 holds a 5 and a 9; the player clears the gesture area and then
    holds the hand in the [STAY] zone. *)
Definition five_nine_stay : world := set_sensor [100; 40]%Q five_nine.

(** The dealer holds the Ace and the 6 of spades, a soft 17; the deck goes
    on with the 7 and the 8 of spades. *)
Definition dealer_soft_17 : world :=
  dealCard dealer (Nat.iter 4 (dealCard p1a)
    (dealCard dealer (emptyHand dealer fresh_table))).

(** The dealer holds the Ace and the 7 of spades: a soft 18. *)
Definition dealer_soft_18 : world :=
  dealCard dealer (Nat.iter 5 (dealCard p1a)
    (dealCard dealer (emptyHand dealer fresh_table))).


(** A first round: the generator answers 17, 4, 51, ...; seat 1 hits once
    and stays, seat 2 stays, seat 3 hits once, seat 4 stays. *)
Definition first_night : world :=
  initDeck (boot [17; 4; 51; 0; 23; 8; 40; 12; 33; 5; 29; 46; 2; 19; 37; 44; 10; 27; 1; 50]
                 [100; 10; 100; 40; 100; 40; 100; 10; 100; 40; 100; 40]%Q).

(** * Properties *)

(** ** Loops *)

Lemma for_loop_S {S : Type} (n : nat) (body : Z -> S -> S) (s : S) :
  for_loop (Datatypes.S n) body s = body (Z.of_nat n) (for_loop n body s).
Proof.
  unfold for_loop. rewrite seq_S, fold_left_app. reflexivity.
Qed.

(** An invariant of the body of a [for] loop holds when the loop ends. *)
Lemma for_loop_inv {S : Type} (I : S -> Prop) (n : nat) (body : Z -> S -> S) (s : S) :
  I s ->
  (forall i s, 0 <= i < Z.of_nat n -> I s -> I (body i s)) ->
  I (for_loop n body s).
Proof.
  intros Hs Hbody. induction n as [|n IH].
  - exact Hs.
  - rewrite for_loop_S. apply Hbody; [lia|].
    apply IH. intros i s' Hi. apply Hbody. lia.
Qed.

(** ** The deck: [initDeck] and [shuffleDeck] *)

Lemma standard_deck_NoDup : NoDup standard_deck.
Proof. apply (bool_decide_unpack _). vm_compute. reflexivity. Qed.

Lemma standard_deck_elem (r : Z) (s : ascii) :
  (r, s) ∈ standard_deck <-> 1 <= r <= 13 /\ s ∈ ["h"; "d"; "c"; "s"]%char.
Proof.
  unfold standard_deck. rewrite list_elem_of_bind. split.
  - intros (s' & Hin & Hs'). apply list_elem_of_bind in Hin as (r' & Hin & Hr').
    apply list_elem_of_singleton in Hin. injection Hin as -> ->.
    apply elem_of_seqZ in Hr'. split; [lia|].
    rewrite !elem_of_cons, elem_of_nil in *. tauto.
  - intros [Hr Hs]. exists s. split.
    + apply list_elem_of_bind. exists r. split; [apply list_elem_of_singleton; reflexivity|].
      apply elem_of_seqZ. lia.
    + rewrite !elem_of_cons, elem_of_nil in *. tauto.
Qed.

(** A list of known length is a list of that many elements. *)
Ltac explode_list l H :=
  repeat (destruct l as [|? l]; simpl in H;
          [try discriminate H | try discriminate H; try (injection H as H)]).

Lemma initDeck_cards (w : world) :
  deck_sized w -> cards (initDeck w) = standard_deck.
Proof.
  intros [Hr Hs]. destruct w as [sG rG iG hs o rn se]. simpl in Hr, Hs.
  change (Z.to_nat SINGLEDECK) with 52%nat in Hr, Hs.
  explode_list rG Hr. explode_list sG Hs.
  vm_compute. reflexivity.
Qed.

Lemma insert_zip {A B} (l : list A) (k : list B) (i : nat) (a : A) (b : B) :
  zip (<[i:=a]> l) (<[i:=b]> k) = <[i:=(a, b)]> (zip l k).
Proof.
  revert k i. induction l as [|x l IH]; intros [|y k] [|i]; simpl; try reflexivity.
  f_equal. apply IH.
Qed.

Lemma lookup_zip_total {A B} `{Inhabited A, Inhabited B} (l : list A) (k : list B) (i : nat) :
  (i < length l)%nat -> (i < length k)%nat ->
  zip l k !! i = Some (l !!! i, k !!! i).
Proof.
  intros Hl Hk.
  destruct (lookup_lt_is_Some_2 l i Hl) as [a Ha].
  destruct (lookup_lt_is_Some_2 k i Hk) as [b Hb].
  rewrite (list_lookup_total_correct _ _ _ Ha), (list_lookup_total_correct _ _ _ Hb).
  rewrite lookup_zip_with, Ha. simpl. rewrite Hb. reflexivity.
Qed.

(** The index [rand() % SINGLEDECK] of a non-negative [rand()] is inside the deck. *)
Lemma shuffle_index_bound (r : Z) :
  0 <= r -> 0 <= (Z.rem r SINGLEDECK) mod 65536 < SINGLEDECK.
Proof.
  intros Hr. unfold SINGLEDECK.
  pose proof (Z.rem_bound_pos r 52 Hr ltac:(lia)) as Hb.
  rewrite Z.mod_small; lia.
Qed.

(** What one pass of the shuffle loop keeps. *)
Definition shuffle_inv (w0 w : world) : Prop :=
  deck_sized w /\ cards w ≡ₚ cards w0 /\ Forall (fun r => 0 <= r) (rnd w) /\
  indexG w = 0 /\ hands w = hands w0 /\ out w = out w0 /\ sensor w = sensor w0.

Lemma shuffleDeck_slot_inv (w0 w : world) (i : Z) :
  0 <= i < SINGLEDECK -> shuffle_inv w0 w -> shuffle_inv w0 (shuffleDeck_slot i w).
Proof.
  intros Hi ([Hlr Hls] & Hperm & Hrnd & Hidx & Hh & Ho & Hse).
  unfold shuffleDeck_slot, rand.
  assert (exists r w1, (match rnd w with [] => (0, w) | r :: rs => (r, set_rnd rs w) end) = (r, w1)
            /\ 0 <= r /\ rankG w1 = rankG w /\ suitG w1 = suitG w /\ indexG w1 = indexG w
            /\ hands w1 = hands w /\ out w1 = out w /\ sensor w1 = sensor w
            /\ Forall (fun r => 0 <= r) (rnd w1)) as (r & w1 & -> & Hr & Er & Es & Ei & Eh & Eo & Ese & Hrnd1).
  { destruct (rnd w) as [|r rs] eqn:E.
    - exists 0, w. rewrite E. repeat split; auto; lia.
    - exists r, (set_rnd rs w). inversion Hrnd; subst. repeat split; auto. }
  pose proof (shuffle_index_bound r Hr) as Hj.
  set (j := Z.rem r SINGLEDECK mod 65536) in *.
  unfold arr_set, arr_get; simpl.
  replace (0 <=? j) with true by (symmetry; apply Z.leb_le; lia).
  replace (0 <=? i) with true by (symmetry; apply Z.leb_le; lia).
  unfold shuffle_inv, deck_sized, cards; simpl.
  rewrite !length_insert, Er, Es.
  repeat split; try congruence.
  rewrite <- Hperm. unfold cards.
  rewrite !insert_zip.
  unfold SINGLEDECK in *.
  apply Permutation_insert_swap; apply lookup_zip_total; lia.
Qed.

Lemma shuffleDeck_inv (w : world) :
  deck_sized w -> Forall (fun r => 0 <= r) (rnd w) -> shuffle_inv w (shuffleDeck w).
Proof.
  intros Hsz Hrnd. unfold shuffleDeck.
  apply for_loop_inv.
  - unfold shuffle_inv. simpl. repeat split; try apply Hsz; auto.
  - intros i s Hi Hs. apply shuffleDeck_slot_inv; [|exact Hs].
    unfold SINGLEDECK in *. lia.
Qed.

(** C7.  After [initDeck] the deck holds exactly the 52 standard cards, each
    (rank, suit) pair of the 4 suits and the ranks 1..13 once, and the cursor
    [indexG] is 0.  After [shuffleDeck] the cursor is 0 and the cards are a
    permutation of the cards before the shuffle: the same multiset. *)
Theorem deck_init_and_shuffle (w : world) :
  deck_sized w ->
  (indexG (initDeck w) = 0 /\
   length (cards (initDeck w)) = 52%nat /\
   NoDup (cards (initDeck w)) /\
   (forall r s, (r, s) ∈ cards (initDeck w) <->
                1 <= r <= 13 /\ s ∈ ["h"; "d"; "c"; "s"]%char)) /\
  (Forall (fun r => 0 <= r) (rnd w) ->
   indexG (shuffleDeck w) = 0 /\ cards (shuffleDeck w) ≡ₚ cards w).
Proof.
  intros Hsz. split.
  - rewrite (initDeck_cards w Hsz). split; [|split; [|split]].
    + unfold initDeck. apply (for_loop_inv (fun w => indexG w = 0)); [reflexivity|].
      intros i s _ Hs. unfold initDeck_slot.
      repeat match goal with |- context [if ?b then _ else _] => destruct b end; exact Hs.
    + reflexivity.
    + apply standard_deck_NoDup.
    + apply standard_deck_elem.
  - intros Hrnd. destruct (shuffleDeck_inv w Hsz Hrnd) as (_ & Hperm & _ & Hidx & _).
    split; assumption.
Qed.

Lemma deck_init_and_shuffle_witness :
  let w := initDeck (boot [17; 4; 51; 0; 23] []) in
  indexG (shuffleDeck w) = 0 /\ cards (shuffleDeck w) ≡ₚ cards w.
Proof.
  intros w.
  assert (Hsz : deck_sized w) by (split; reflexivity).
  apply (deck_init_and_shuffle w Hsz).
  vm_compute. repeat constructor; discriminate.
Defined.

(** ** Dealing a card *)

Lemma set_hand_same (p : hid) (h : hand) (w : world) : hands (set_hand p h w) p = h.
Proof. simpl. destruct (decide (p = p)); [reflexivity|contradiction]. Qed.

Lemma set_hand_other (p q : hid) (h : hand) (w : world) :
  q <> p -> hands (set_hand p h w) q = hands w q.
Proof. intros Hq. simpl. destruct (decide (q = p)); [contradiction|reflexivity]. Qed.

(** [dealCard] refuses exactly on an exhausted deck or a full hand. *)
Lemma dealCard_guard (p : hid) (w : world) :
  (indexG w >=? SINGLEDECK) || (handsize (hands w p) >=? MAXHAND) = true <->
  SINGLEDECK <= indexG w \/ MAXHAND <= handsize (hands w p).
Proof.
  rewrite orb_true_iff, !Z.geb_le. reflexivity.
Qed.

Lemma dealCard_refused (p : hid) (w : world) :
  SINGLEDECK <= indexG w \/ MAXHAND <= handsize (hands w p) ->
  dealCard p w = send deal_error w.
Proof.
  intros H. apply dealCard_guard in H. unfold dealCard. rewrite H. reflexivity.
Qed.

(** The hand after a deal that is not refused, field by field. *)
Lemma dealCard_dealt (p : hid) (w : world) :
  indexG w < SINGLEDECK -> handsize (hands w p) < MAXHAND ->
  let h := hands w p in
  let r := arr_get (rankG w) (indexG w) in
  let pts := if r =? 1 then 11 else if (10 <=? r) && (r <=? 13) then 10 else r in
  let sft := if r =? 1 then soft h + 1 else soft h in
  let h' := hands (dealCard p w) p in
  indexG (dealCard p w) = indexG w + 1 /\
  rankG (dealCard p w) = rankG w /\ suitG (dealCard p w) = suitG w /\
  out (dealCard p w) = out w /\ rnd (dealCard p w) = rnd w /\
  sensor (dealCard p w) = sensor w /\
  (forall q, q <> p -> hands (dealCard p w) q = hands w q) /\
  rank h' = arr_set (rank h) (handsize h) r /\
  suit h' = arr_set (suit h) (handsize h) (arr_get (suitG w) (indexG w)) /\
  isFaceDown h' = isFaceDown h /\
  handsize h' = handsize h + 1 /\
  empty h' = 0 /\
  (handvalue h + pts <= 21 ->
     handvalue h' = handvalue h + pts /\ soft h' = sft /\ busted h' = busted h) /\
  (21 < handvalue h + pts -> 0 < sft ->
     handvalue h' = handvalue h + pts - 10 /\ soft h' = sft - 1 /\ busted h' = busted h) /\
  (21 < handvalue h + pts -> sft <= 0 ->
     handvalue h' = handvalue h + pts /\ soft h' = sft /\ busted h' = 1).
Proof.
  intros Hi Hn h r pts sft h'.
  assert (Hg : (indexG w >=? SINGLEDECK) || (handsize (hands w p) >=? MAXHAND) = false).
  { apply orb_false_iff. split; rewrite Z.geb_leb; apply Z.leb_gt; assumption. }
  subst h'. unfold dealCard. rewrite Hg. cbv zeta.
  change (arr_get (rankG w) (indexG w)) with r. change (hands w p) with h.
  rewrite set_hand_same. subst pts sft.
  assert (Hother : forall h0 w0 q, q <> p -> hands (set_hand p h0 w0) q = hands w0 q).
  { intros h0 w0 q Hq. apply set_hand_other. exact Hq. }
  destruct (Z.eqb_spec r 1) as [E1|E1]; simpl;
    [| destruct (Z.eqb_spec r 10), (Z.eqb_spec r 11), (Z.eqb_spec r 12), (Z.eqb_spec r 13);
       destruct (Z.leb_spec 10 r), (Z.leb_spec r 13); simpl; try lia ];
    (match goal with |- context [?a >? 21] => destruct (Z.gtb_spec a 21) end; simpl;
     [ match goal with |- context [?a >? 0] => destruct (Z.gtb_spec a 0) end; simpl | ]);
    (repeat split; try reflexivity; try lia; try (intros q Hq; apply Hother; exact Hq)).
Qed.

Lemma dealCard_appends (p : hid) (w : world) :
  indexG w < SINGLEDECK -> handsize (hands w p) < MAXHAND ->
  0 <= handsize (hands w p) -> hand_sized (hands w p) ->
  hand_cards (hands (dealCard p w) p) = hand_cards (hands w p) ++ [next_card w].
Proof.
  intros Hi Hn H0 (Hlr & Hls & _).
  destruct (dealCard_dealt p w Hi Hn) as (_ & _ & _ & _ & _ & _ & _ & Er & Es & _ & En & _).
  unfold hand_cards, next_card. rewrite Er, Es, En. unfold arr_set.
  replace (0 <=? handsize (hands w p)) with true by (symmetry; apply Z.leb_le; lia).
  rewrite insert_zip.
  replace (Z.to_nat (handsize (hands w p) + 1)) with (S (Z.to_nat (handsize (hands w p)))) by lia.
  unfold MAXHAND in *.
  erewrite take_S_r.
  - rewrite take_insert_ge by lia. reflexivity.
  - apply list_lookup_insert_eq. rewrite length_zip_with_l_eq; lia.
Qed.

(** C8.  [dealCard] fails exactly when the deck cursor has reached 52 or the
    hand already holds 12 cards.  A failed call only sends the diagnostic and
    leaves every hand, the deck and its cursor as they were.  A successful
    call appends the card under the cursor to the hand, advances the cursor
    by one and clears the [empty] flag. *)
Theorem dealCard_fails_or_appends (p : hid) (w : world) :
  let refused := SINGLEDECK <= indexG w \/ MAXHAND <= handsize (hands w p) in
  (out (dealCard p w) = out w ++ [deal_error] <-> refused) /\
  (refused ->
     dealCard p w = send deal_error w /\
     hands (dealCard p w) = hands w /\ indexG (dealCard p w) = indexG w /\
     rankG (dealCard p w) = rankG w /\ suitG (dealCard p w) = suitG w) /\
  (~ refused ->
     out (dealCard p w) = out w /\
     indexG (dealCard p w) = indexG w + 1 /\
     handsize (hands (dealCard p w) p) = handsize (hands w p) + 1 /\
     empty (hands (dealCard p w) p) = 0 /\
     (0 <= handsize (hands w p) -> hand_sized (hands w p) ->
      hand_cards (hands (dealCard p w) p) = hand_cards (hands w p) ++ [next_card w])).
Proof.
  intros refused.
  assert (Hdec : refused \/ (indexG w < SINGLEDECK /\ handsize (hands w p) < MAXHAND))
    by (unfold refused; lia).
  split; [|split].
  - split.
    + intros Hout. destruct Hdec as [H|[Hi Hn]]; [exact H|].
      destruct (dealCard_dealt p w Hi Hn) as (_ & _ & _ & Eo & _).
      rewrite Eo in Hout. apply (f_equal length) in Hout.
      rewrite length_app in Hout. simpl in Hout. lia.
    + intros H. rewrite (dealCard_refused p w H). reflexivity.
  - intros H. rewrite (dealCard_refused p w H). repeat split.
  - intros Hnot. destruct Hdec as [H|[Hi Hn]]; [contradiction|].
    destruct (dealCard_dealt p w Hi Hn) as (Ei & _ & _ & Eo & _ & _ & _ & _ & _ & _ & En & Ee & _).
    repeat split; try assumption.
    intros H0 Hsz. apply dealCard_appends; assumption.
Qed.

Lemma dealCard_fails_or_appends_witness :
  let w := emptyHand p1a (initDeck (boot [] [])) in
  (hand_cards (hands (dealCard p1a w) p1a) = hand_cards (hands w p1a) ++ [(1, "s"%char)] /\
   indexG (dealCard p1a w) = 1) /\
  (let wx := set_indexG 52 w in dealCard p1a wx = send deal_error wx).
Proof.
  intros w. split.
  - destruct (dealCard_fails_or_appends p1a w) as (_ & _ & Hok).
    destruct Hok as (_ & Hi & _ & _ & Happ); [vm_compute; intros [H|H]; apply H; reflexivity|].
    split; [|exact Hi].
    apply Happ; [vm_compute; discriminate|repeat split].
  - intros wx. destruct (dealCard_fails_or_appends p1a wx) as (_ & Hfail & _).
    apply Hfail. left. vm_compute. discriminate.
Defined.

(** ** The value of a hand and its [busted] flag *)

Lemma emptyHand_fields (p : hid) (w : world) :
  let h := hands (emptyHand p w) p in
  handsize h = 0 /\ handvalue h = 0 /\ busted h = 0 /\ soft h = 0 /\ empty h = 1.
Proof.
  intros h. subst h. unfold emptyHand. rewrite set_hand_same.
  generalize (for_loop (Z.to_nat MAXHAND) emptyHand_slot (hands w p)). intros h0.
  repeat split.
Qed.

Lemma dealCard_consistent (p : hid) (w : world) :
  hand_consistent (hands w p) ->
  (indexG w < SINGLEDECK -> rank_ok (fst (next_card w))) ->
  ~ (handvalue (hands w p) = 21 /\ fst (next_card w) = 1) ->
  hand_consistent (hands (dealCard p w) p).
Proof.
  intros [Hs Hc] Hr Hno. unfold next_card, rank_ok in *. simpl in Hr, Hno.
  destruct (Z_lt_le_dec (indexG w) SINGLEDECK) as [Hi|Hi];
    [destruct (Z_lt_le_dec (handsize (hands w p)) MAXHAND) as [Hn|Hn]|].
  2,3: rewrite dealCard_refused by lia; split; assumption.
  specialize (Hr Hi).
  destruct (dealCard_dealt p w Hi Hn) as (_ & _ & _ & _ & _ & _ & _ & _ & _ & _ & _ & _ & Hle & Hdem & Hbust).
  revert Hle Hdem Hbust.
  set (r := arr_get (rankG w) (indexG w)) in *.
  set (h' := hands (dealCard p w) p). set (h := hands w p) in *.
  set (pts := if r =? 1 then 11 else if (10 <=? r) && (r <=? 13) then 10 else r).
  set (sft := if r =? 1 then soft h + 1 else soft h).
  assert (Hpts : 1 <= pts <= 11 /\ (r = 1 -> pts = 11 /\ sft = soft h + 1) /\
                 (r <> 1 -> pts <= 10 /\ sft = soft h)).
  { subst pts sft.
    destruct (Z.eqb_spec r 1); [|destruct (Z.leb_spec 10 r), (Z.leb_spec r 13); simpl]; lia. }
  clearbody pts sft. intros Hle Hdem Hbust. unfold hand_consistent.
  destruct (Z_le_gt_dec (handvalue h + pts) 21) as [Hv|Hv];
    [destruct (Hle Hv) as (-> & -> & ->); lia|].
  destruct (Z_lt_le_dec 0 sft) as [Hp|Hp];
    [destruct (Hdem ltac:(lia) Hp) as (-> & -> & ->)
    |destruct (Hbust ltac:(lia) Hp) as (-> & -> & ->)]; lia.
Qed.

Lemma dealCard_other (p q : hid) (w : world) :
  q <> p -> hands (dealCard p w) q = hands w q.
Proof.
  intros Hq. unfold dealCard.
  destruct ((indexG w >=? SINGLEDECK) || (handsize (hands w p) >=? MAXHAND)).
  - reflexivity.
  - cbv zeta. rewrite set_hand_other by exact Hq. reflexivity.
Qed.

Lemma dealt_no_ace_consistent (h : hand) :
  dealt_hand_no_ace_on_21 h -> hand_consistent h.
Proof.
  induction 1 as [p w|p w _ IH Hr Hno].
  - destruct (emptyHand_fields p w) as (_ & Ev & Eb & Es & _).
    unfold hand_consistent. rewrite Ev, Eb, Es. lia.
  - apply dealCard_consistent; [assumption|intros _; assumption|assumption].
Qed.

Lemma consistent_busted_iff (h : hand) :
  hand_consistent h -> (truthy (busted h) = true <-> 21 < handvalue h).
Proof.
  intros [_ [[Eb Hv]|[Eb [Hv _]]]]; unfold truthy; rewrite Eb; simpl; split;
    intros; try lia; try discriminate; reflexivity.
Qed.

(** C1 (as amended).  For every sequence of cards dealt to a hand by
    [dealCard], starting from an empty hand, in which no Ace is dealt to a
    hand that stands at 21: the hand is [busted] if and only if its
    [handvalue] exceeds 21. *)
Theorem busted_iff_over_21 (h : hand) :
  dealt_hand_no_ace_on_21 h ->
  (truthy (busted h) = true <-> 21 < handvalue h).
Proof.
  intros Hd. apply consistent_busted_iff, dealt_no_ace_consistent, Hd.
Qed.

Lemma busted_iff_over_21_witness :
  let h := hands hard_21 p1a in
  handvalue h = 21 /\ (truthy (busted h) = true <-> 21 < handvalue h).
Proof.
  intros h. split; [reflexivity|].
  apply (busted_iff_over_21 h).
  subst h. unfold hard_21.
  set (w2 := Nat.iter 2 (dealCard p1a) (Nat.iter 4 (dealCard p2a) fresh_table)).
  cbn [Nat.iter nat_rect]; rewrite !dealCard_other by discriminate.
  apply dealt21_card; [|vm_compute; split; discriminate|vm_compute; intros [H _]; discriminate H].
  cbn [Nat.iter nat_rect]; rewrite !dealCard_other by discriminate.
  subst w2. cbn [Nat.iter nat_rect].
  apply dealt21_card; [|vm_compute; split; discriminate|vm_compute; intros [H _]; discriminate H].
  apply dealt21_card; [|vm_compute; split; discriminate|vm_compute; intros [H _]; discriminate H].
  cbn [Nat.iter nat_rect]; rewrite !dealCard_other by discriminate.
  unfold fresh_table. unfold emptyHand at 1. rewrite set_hand_other by discriminate.
  apply dealt21_empty.
Defined.

(** C1 as the specification states it fails: an Ace dealt to a hand that
    stands at 21 is counted as 1 by the single soft-Ace step of [dealCard],
    the hand then reports 22 and is not [busted]. *)
Lemma ace_on_21_not_busted :
  let h := hands ace_on_hard_21 p1a in
  dealt_hand h /\ handvalue h = 22 /\ busted h = 0 /\
  ~ (truthy (busted h) = true <-> 21 < handvalue h).
Proof.
  intros h. split; [|split; [reflexivity|split; [reflexivity|]]].
  - subst h. unfold ace_on_hard_21.
    apply dealt_card; [|vm_compute; split; discriminate].
    unfold hard_21.
    cbn [Nat.iter nat_rect]; rewrite !dealCard_other by discriminate.
    apply dealt_card; [|vm_compute; split; discriminate].
    cbn [Nat.iter nat_rect]; rewrite !dealCard_other by discriminate.
    apply dealt_card; [|vm_compute; split; discriminate].
    apply dealt_card; [|vm_compute; split; discriminate].
    rewrite !dealCard_other by discriminate.
    unfold fresh_table. unfold emptyHand at 1. rewrite set_hand_other by discriminate.
    apply dealt_empty.
  - intros [_ H]. vm_compute in H. specialize (H eq_refl). discriminate H.
Qed.

(** ** The gesture classifier *)

Lemma Qltb_lt (x y : Q) : Qltb x y = true <-> (x < y)%Q.
Proof. unfold Qltb, Qlt. apply Z.ltb_lt. Qed.

Lemma zone_cases (d : Q) :
  (zone d = HIT /\ in_hit_zone d) \/
  (zone d = STAY /\ in_stay_zone d /\ ~ in_hit_zone d) \/
  (zone d = NOACTION /\ ~ in_hit_zone d /\ ~ in_stay_zone d).
Proof.
  unfold zone, in_hit_zone, in_stay_zone.
  destruct (Qltb DIST_HIT d) eqn:E1, (Qltb d (DIST_HIT + WIDTH)) eqn:E2; simpl;
    [left; split; [reflexivity|split; apply Qltb_lt; assumption]|..];
    (destruct (Qltb DIST_STAY d) eqn:E3, (Qltb d (DIST_STAY + WIDTH)) eqn:E4; simpl;
     [right; left|right; right..]);
    repeat split; try (apply Qltb_lt; assumption);
    intros [H1 H2]; apply Qltb_lt in H1, H2; congruence.
Qed.

(** The two windows are disjoint, so the zone is each of the three exactly
    on its own set of distances. *)
Lemma zone_spec (d : Q) :
  (zone d = HIT <-> in_hit_zone d) /\
  (zone d = STAY <-> in_stay_zone d) /\
  (zone d = NOACTION <-> ~ in_hit_zone d /\ ~ in_stay_zone d).
Proof.
  assert (Hdisj : in_hit_zone d -> in_stay_zone d -> False).
  { intros [_ H1] [H2 _]. unfold DIST_HIT, WIDTH, DIST_STAY in *.
    pose proof (Qlt_trans _ _ _ H2 H1) as H. vm_compute in H. discriminate H. }
  destruct (zone_cases d) as [[E H]|[(E & H & Hn)|(E & Hn & Hn')]]; rewrite E;
    unfold HIT, STAY, NOACTION;
    (split; [|split]); split; intros; try discriminate; try tauto; try reflexivity.
Qed.

(** One pass of the loop of [USS_move]: the counter of the zone of the
    sample goes up by one, and the loop returns the zone once that counter
    exceeds [THRESHOLD]. *)
Lemma USS_move_body_step (d : Q) (c : Z * Z * Z) :
  (zone_count d c + 1 > THRESHOLD /\ USS_move_body d c = Some (Return (zone d))) \/
  (zone_count d c + 1 <= THRESHOLD /\
   exists c', USS_move_body d c = Some (Continue c') /\
              zone_count d c' = zone_count d c + 1).
Proof.
  destruct c as [[cS cH] cN]. unfold USS_move_body, zone_count, zone.
  destruct (Qltb DIST_HIT d && Qltb d (DIST_HIT + WIDTH));
    [|destruct (Qltb DIST_STAY d && Qltb d (DIST_STAY + WIDTH))]; simpl;
    match goal with |- context [?a >? THRESHOLD] => destruct (Z.gtb_spec a THRESHOLD) end;
    ((left; split; [lia|reflexivity]) || (right; split; [lia|eexists; split; reflexivity])).
Qed.

(** The loop of [USS_move] returns the zone of its sample after as many
    passes as the counter of that zone still needs to exceed [THRESHOLD]. *)
Lemma USS_loop_counts (d : Q) (fuel : nat) (c : Z * Z * Z) :
  0 <= zone_count d c <= THRESHOLD ->
  while_loop fuel (USS_move_body d) c =
  if decide (THRESHOLD + 1 - zone_count d c <= Z.of_nat fuel) then Some (zone d) else None.
Proof.
  revert c. induction fuel as [|fuel IH]; intros c Hc.
  - simpl. destruct (decide _); [lia|reflexivity].
  - cbn [while_loop].
    destruct (USS_move_body_step d c) as [[Hgt ->]|(Hle & c' & -> & Hc')].
    + destruct (decide _); [reflexivity|lia].
    + rewrite IH by lia. rewrite Hc'.
      destruct (decide _), (decide _); try reflexivity; lia.
Qed.

Lemma USS_loop_from_zero (d : Q) (fuel : nat) :
  while_loop fuel (USS_move_body d) (0, 0, 0) =
  if decide (classifications <= fuel)%nat then Some (zone d) else None.
Proof.
  assert (Hz : zone_count d (0, 0, 0) = 0)
    by (unfold zone_count; repeat destruct (_ =? _); reflexivity).
  rewrite USS_loop_counts by (rewrite Hz; unfold THRESHOLD; lia).
  rewrite Hz. unfold classifications, THRESHOLD.
  destruct (decide _), (decide _); try reflexivity; lia.
Qed.

Lemma USS_move_result (fuel : nat) (w : world) :
  USS_move fuel w =
  match sensor w with
  | [] => None
  | d :: ds => if decide (classifications <= fuel)%nat
               then Some (zone d, set_sensor ds w) else None
  end.
Proof.
  unfold USS_move, USS_distance. destruct (sensor w) as [|d ds]; [reflexivity|].
  simpl. rewrite USS_loop_from_zero.
  destruct (decide _); reflexivity.
Qed.

(** C10.  Each call of [USS_move] consumes exactly one distance sample and
    returns the zone of that sample alone: [HIT] strictly inside
    (DIST_HIT, DIST_HIT + WIDTH), [STAY] strictly inside
    (DIST_STAY, DIST_STAY + WIDTH), [NOACTION] otherwise.  It returns after
    THRESHOLD + 1 classifications of that sample, and not before. *)
Theorem USS_move_one_sample (w : world) (d : Q) (ds : list Q) :
  sensor w = d :: ds ->
  classifications = 201%nat /\
  (forall fuel, (classifications <= fuel)%nat ->
     USS_move fuel w = Some (zone d, set_sensor ds w)) /\
  (forall fuel, (fuel < classifications)%nat -> USS_move fuel w = None) /\
  (zone d = HIT <-> in_hit_zone d) /\
  (zone d = STAY <-> in_stay_zone d) /\
  (zone d = NOACTION <-> ~ in_hit_zone d /\ ~ in_stay_zone d).
Proof.
  intros Hs. split; [reflexivity|]. split; [|split; [|apply zone_spec]].
  - intros fuel Hf. rewrite USS_move_result, Hs.
    destruct (decide _); [reflexivity|lia].
  - intros fuel Hf. rewrite USS_move_result, Hs.
    destruct (decide _); [lia|reflexivity].
Qed.

Lemma USS_move_one_sample_witness :
  let w := set_sensor [12.5; 40; 80]%Q (boot [] []) in
  USS_move classifications w = Some (HIT, set_sensor [40; 80]%Q w) /\
  USS_move 200 w = None.
Proof.
  intros w.
  destruct (USS_move_one_sample w 12.5%Q [40; 80]%Q eq_refl) as (_ & Hret & Hnot & _).
  split.
  - apply (Hret classifications). apply Nat.le_refl.
  - apply (Hnot 200%nat). vm_compute. reflexivity.
Defined.

(** ** [userInput]: clear, then commit *)

Lemma zone_values (d : Q) : zone d = HIT \/ zone d = STAY \/ zone d = NOACTION.
Proof. destruct (zone_cases d) as [[E _]|[[E _]|[E _]]]; auto. Qed.

Lemma clear_loop_sound (fuel n : nat) (w w1 : world) :
  while_loop n (userInput_clear_body fuel) w = Some w1 ->
  exists pre c,
    sensor w = pre ++ c :: sensor w1 /\ w1 = set_sensor (sensor w1) w /\
    Forall (fun d => zone d <> NOACTION) pre /\ zone c = NOACTION.
Proof.
  revert w. induction n as [|n IH]; intros w Hrun; [discriminate Hrun|].
  cbn [while_loop] in Hrun. unfold userInput_clear_body in Hrun.
  rewrite USS_move_result in Hrun.
  destruct (sensor w) as [|d ds] eqn:Es; [discriminate Hrun|].
  destruct (decide _); [|discriminate Hrun]. simpl in Hrun.
  destruct (Z.eqb_spec (zone d) NOACTION) as [Ez|Ez]; simpl in Hrun.
  - injection Hrun as <-. exists [], d. simpl. repeat split; auto.
  - destruct (IH _ Hrun) as (pre & c & Hs & Hw & Hpre & Hc). simpl in Hs.
    exists (d :: pre), c. rewrite Hs. repeat split; auto.
Qed.

Lemma clear_loop_complete (fuel n : nat) (w : world) (pre : list Q) (c : Q) (rest : list Q) :
  sensor w = pre ++ c :: rest ->
  Forall (fun d => zone d <> NOACTION) pre -> zone c = NOACTION ->
  (classifications <= fuel)%nat -> (length pre < n)%nat ->
  while_loop n (userInput_clear_body fuel) w = Some (set_sensor rest w).
Proof.
  intros Hs Hpre Hc Hf. revert w n Hs.
  induction Hpre as [|d pre Hd Hpre IH]; intros w n Hs Hn;
    (destruct n as [|n]; [simpl in Hn; lia|]);
    cbn [while_loop]; unfold userInput_clear_body;
    rewrite USS_move_result, Hs; simpl;
    (destruct (decide _); [|lia]); simpl.
  - rewrite Hc. reflexivity.
  - destruct (Z.eqb_spec (zone d) NOACTION) as [Ez|Ez]; [contradiction|]. simpl.
    assert (Hn' : (length pre < n)%nat) by (simpl in Hn; lia).
    exact (IH (set_sensor (pre ++ c :: rest) w) n eq_refl Hn').
Qed.

Lemma commit_loop_sound (fuel n : nat) (w w1 : world) (a : Z) :
  while_loop n (userInput_commit_body fuel) w = Some (a, w1) ->
  exists mid x,
    sensor w = mid ++ x :: sensor w1 /\ w1 = set_sensor (sensor w1) w /\
    Forall (fun d => zone d = NOACTION) mid /\ zone x = a /\ (a = HIT \/ a = STAY).
Proof.
  revert w. induction n as [|n IH]; intros w Hrun; [discriminate Hrun|].
  cbn [while_loop] in Hrun. unfold userInput_commit_body in Hrun.
  rewrite USS_move_result in Hrun.
  destruct (sensor w) as [|d ds] eqn:Es; [discriminate Hrun|].
  destruct (decide _); [|discriminate Hrun]. simpl in Hrun.
  destruct (Z.eqb_spec (zone d) STAY) as [Ez|Ez]; simpl in Hrun.
  { injection Hrun as <- <-. exists [], d. simpl. repeat split; auto. }
  destruct (Z.eqb_spec (zone d) HIT) as [Ez'|Ez']; simpl in Hrun.
  { injection Hrun as <- <-. exists [], d. simpl. repeat split; auto. }
  destruct (IH _ Hrun) as (mid & x & Hs & Hw & Hmid & Hx & Ha). simpl in Hs.
  exists (d :: mid), x. rewrite Hs. repeat split; auto.
  constructor; [|exact Hmid]. destruct (zone_values d) as [?|[?|?]]; congruence.
Qed.

Lemma commit_loop_complete (fuel n : nat) (w : world) (mid : list Q) (x : Q) (rest : list Q) :
  sensor w = mid ++ x :: rest ->
  Forall (fun d => zone d = NOACTION) mid -> zone x = HIT \/ zone x = STAY ->
  (classifications <= fuel)%nat -> (length mid < n)%nat ->
  while_loop n (userInput_commit_body fuel) w = Some (zone x, set_sensor rest w).
Proof.
  intros Hs Hmid Hx Hf. revert w n Hs.
  induction Hmid as [|d mid Hd Hmid IH]; intros w n Hs Hn;
    (destruct n as [|n]; [simpl in Hn; lia|]);
    cbn [while_loop]; unfold userInput_commit_body;
    rewrite USS_move_result, Hs; simpl;
    (destruct (decide _); [|lia]); simpl.
  - destruct Hx as [-> | ->]; reflexivity.
  - rewrite Hd. simpl.
    assert (Hn' : (length mid < n)%nat) by (simpl in Hn; lia).
    exact (IH (set_sensor (mid ++ x :: rest) w) n eq_refl Hn').
Qed.

(** What a call of [userInput] that returns has read. *)
Lemma userInput_sound (fuel : nat) (w w' : world) (a : Z) :
  userInput fuel w = Some (a, w') ->
  (a = HIT \/ a = STAY) /\ w' = set_sensor (sensor w') w /\
  clear_then_commit (sensor w) a (sensor w').
Proof.
  intros Hrun. unfold userInput in Hrun.
  destruct (while_loop fuel (userInput_clear_body fuel) w) as [w1|] eqn:Hclear;
    [|discriminate Hrun]. simpl in Hrun.
  destruct (clear_loop_sound _ _ _ _ Hclear) as (pre & c & Hs & Hw & Hpre & Hc).
  destruct (commit_loop_sound _ _ _ _ _ Hrun) as (mid & x & Hs' & Hw' & Hmid & Hx & Ha).
  split; [exact Ha|]. split.
  - rewrite Hw' at 1. rewrite Hw. reflexivity.
  - exists pre, c, mid, x. rewrite Hs, Hs'. repeat split; auto.
Qed.

(** A stream that clears and then commits makes [userInput] return. *)
Lemma userInput_complete (fuel : nat) (w : world) (a : Z) (rest : list Q) :
  clear_then_commit (sensor w) a rest ->
  (classifications <= fuel)%nat -> (length (sensor w) <= fuel)%nat ->
  userInput fuel w = Some (a, set_sensor rest w).
Proof.
  intros (pre & c & mid & x & Hs & Hpre & Hc & Hmid & Hx & Ha) Hf Hlen.
  rewrite Hs in Hlen. rewrite length_app in Hlen. simpl in Hlen.
  rewrite length_app in Hlen. simpl in Hlen.
  unfold userInput.
  rewrite (clear_loop_complete fuel fuel w pre c (mid ++ x :: rest) Hs Hpre Hc Hf) by lia.
  simpl.
  assert (Hx' : zone x = HIT \/ zone x = STAY) by (rewrite Hx; exact Ha).
  assert (Hm : (length mid < fuel)%nat) by lia.
  rewrite <- Hx.
  exact (commit_loop_complete fuel fuel (set_sensor (mid ++ x :: rest) w) mid x rest
           eq_refl Hmid Hx' Hf Hm).
Qed.

(** C9.  [userInput] returns only [HIT] or [STAY], and only after the
    two-phase handshake: it calls the classifier until one call reports
    [NOACTION], then calls it until one call reports [HIT] or [STAY], and
    returns that action.  Every sample read stands for one report of the
    classifier (its zone, see [USS_move_result]), so a returned decision is
    always preceded, in the same call, by a [NOACTION] report; and a sample
    stream of that shape makes [userInput] return. *)
Theorem userInput_handshake (fuel : nat) (w : world) :
  (forall a w', userInput fuel w = Some (a, w') ->
     (a = HIT \/ a = STAY) /\ w' = set_sensor (sensor w') w /\
     clear_then_commit (sensor w) a (sensor w')) /\
  (forall a rest, clear_then_commit (sensor w) a rest ->
     (classifications <= fuel)%nat -> (length (sensor w) <= fuel)%nat ->
     userInput fuel w = Some (a, set_sensor rest w)).
Proof.
  split.
  - intros a w'. apply userInput_sound.
  - intros a rest. apply userInput_complete.
Qed.

Lemma userInput_handshake_witness :
  let w := set_sensor [10; 100; 100; 40; 12]%Q (boot [] []) in
  userInput classifications w = Some (STAY, set_sensor [12]%Q w).
Proof.
  intros w.
  destruct (userInput_handshake classifications w) as [_ Hret].
  apply (Hret STAY [12]%Q).
  - exists [10]%Q, 100%Q, [100]%Q, 40%Q.
    split; [reflexivity|].
    split; [repeat constructor; vm_compute; discriminate|].
    split; [reflexivity|].
    split; [repeat constructor|].
    split; [reflexivity|right; reflexivity].
  - apply Nat.le_refl.
  - vm_compute. repeat constructor.
Defined.

(** C4 (the code does otherwise).  [USS_move] reads one sample and classifies
    that one sample THRESHOLD + 1 times, so its counters never see a second
    sample: on a stream that changes zone at every sample [userInput] commits
    [HIT] with the second sample. *)
Theorem alternating_stream_commits :
  map zone (sensor alternating_table) = [NOACTION; HIT; NOACTION; HIT; NOACTION; HIT] /\
  userInput classifications alternating_table =
    Some (HIT, set_sensor [100; 10; 100; 10]%Q alternating_table).
Proof.
  split; [reflexivity|].
  apply (userInput_complete classifications alternating_table HIT [100; 10; 100; 10]%Q).
  - exists [], 100%Q, [], 10%Q.
    split; [reflexivity|]. split; [constructor|]. split; [reflexivity|].
    split; [constructor|]. split; [reflexivity|left; reflexivity].
  - apply Nat.le_refl.
  - vm_compute. repeat constructor.
Qed.

(** ** Splitting a hand *)

Lemma selectPlayer_seat (ID : Z) (w : world) :
  1 <= ID <= 4 ->
  exists pA pB, selectPlayer ID w = (Some (pA, pB), w) /\ pA <> pB /\
                pA <> dealer /\ pB <> dealer.
Proof.
  intros HID. assert (ID = 1 \/ ID = 2 \/ ID = 3 \/ ID = 4) as [-> | [-> | [-> | ->]]] by lia;
    [exists p1a, p1b|exists p2a, p2b|exists p3a, p3b|exists p4a, p4b];
    repeat split; discriminate.
Qed.

Lemma upd_hand_same (p : hid) (f : hand -> hand) (w : world) :
  hands (upd_hand p f w) p = f (hands w p).
Proof. unfold upd_hand. apply set_hand_same. Qed.

Lemma upd_hand_other (p q : hid) (f : hand -> hand) (w : world) :
  q <> p -> hands (upd_hand p f w) q = hands w q.
Proof. intros Hq. unfold upd_hand. apply set_hand_other, Hq. Qed.

(** What the card move of [split] does: the moved card is counted by its
    rank, not by its blackjack value, unless it is an Ace. *)
Lemma split_move_values (pA pB : hid) (w : world) :
  pA <> pB ->
  let r := arr_get (rank (hands w pA)) 1 in
  let w' := split_move pA pB w in
  handsize (hands w' pA) = handsize (hands w pA) - 1 /\
  handsize (hands w' pB) = handsize (hands w pB) + 1 /\
  rank (hands w' pB) = arr_set (rank (hands w pB)) 0 r /\
  suit (hands w' pB) = arr_set (suit (hands w pB)) 0 (arr_get (suit (hands w pA)) 1) /\
  busted (hands w' pA) = busted (hands w pA) /\
  busted (hands w' pB) = busted (hands w pB) /\
  empty (hands w' pB) = empty (hands w pB) /\
  (forall q, q <> pA -> q <> pB -> hands w' q = hands w q) /\
  indexG w' = indexG w /\ rankG w' = rankG w /\ suitG w' = suitG w /\ out w' = out w /\
  (r = 1 ->
     handvalue (hands w' pA) = 11 /\ soft (hands w' pA) = 1 /\
     handvalue (hands w' pB) = 11 /\ soft (hands w' pB) = 1) /\
  (r <> 1 ->
     handvalue (hands w' pA) = handvalue (hands w pA) - r /\
     soft (hands w' pA) = soft (hands w pA) /\
     handvalue (hands w' pB) = handvalue (hands w pB) + r /\
     soft (hands w' pB) = soft (hands w pB)).
Proof.
  intros Hne r w'. subst w'. unfold split_move. fold r.
  assert (Hne' : pB <> pA) by congruence.
  destruct (Z.eqb_spec r 1) as [E|E];
    repeat rewrite ?upd_hand_same, ?upd_hand_other by assumption;
    (repeat split; try reflexivity; try contradiction);
    try (intros q Hq1 Hq2; repeat rewrite ?upd_hand_other by assumption; reflexivity);
    intros; try contradiction; repeat split.
Qed.

(** C5 (the code does otherwise).  [split] moves the second card and deals
    one card to each hand, but it subtracts and adds the rank of the moved
    card, not its blackjack value: splitting two Kings (value 20) leaves the
    primary hand at 20 - 13 = 7 and puts the secondary hand at 13, where the
    scoring of [dealCard] gives 10 and 10; after the two deals (Ace and 2 of
    diamonds) the hands report 18 and 15 instead of 21 and 12. *)
Theorem split_kings_by_rank :
  hand_cards (hands two_kings p1a) = [(13, "s"%char); (13, "c"%char)] /\
  handvalue (hands two_kings p1a) = 20 /\
  hand_cards (hands two_kings p1b) = [] /\
  (let m := split_move p1a p1b two_kings in
   hand_cards (hands m p1a) = [(13, "s"%char)] /\ handvalue (hands m p1a) = 7 /\
   hand_cards (hands m p1b) = [(13, "c"%char)] /\ handvalue (hands m p1b) = 13) /\
  exists w', split P1 two_kings = Some w' /\
    hand_cards (hands w' p1a) = [(13, "s"%char); (1, "d"%char)] /\
    handvalue (hands w' p1a) = 18 /\
    hand_cards (hands w' p1b) = [(13, "c"%char); (2, "d"%char)] /\
    handvalue (hands w' p1b) = 15.
Proof.
  repeat split; try reflexivity.
  eexists. split; [reflexivity|]. repeat split; reflexivity.
Qed.

(** *** The split offer *)

Lemma splits_send (s : string) (w : world) :
  splits (send s w) = (splits w + if decide (s = "You split!") then 1 else 0)%nat.
Proof.
  unfold splits, send. simpl. rewrite filter_app, length_app. f_equal.
  rewrite filter_cons, filter_nil. destruct (decide (s = "You split!")); reflexivity.
Qed.

Lemma splits_dealCard (p : hid) (w : world) : splits (dealCard p w) = splits w.
Proof.
  unfold dealCard.
  destruct ((indexG w >=? SINGLEDECK) || (handsize (hands w p) >=? MAXHAND)).
  - rewrite splits_send. destruct (decide _) as [E|_]; [discriminate E|lia].
  - reflexivity.
Qed.

Lemma splits_split_move (pA pB : hid) (w : world) : splits (split_move pA pB w) = splits w.
Proof.
  unfold split_move. destruct (_ =? 1); reflexivity.
Qed.

(** [split] has no precondition: for every seat it is carried out. *)
Lemma split_total (ID : Z) (w : world) :
  1 <= ID <= 4 ->
  exists pA pB, selectPlayer ID w = (Some (pA, pB), w) /\ pA <> pB /\
    split ID w = Some (dealCard pB (dealCard pA (split_move pA pB (send "You split!" w)))) /\
    forall w', split ID w = Some w' -> splits w' = S (splits w).
Proof.
  intros HID. destruct (selectPlayer_seat ID w HID) as (pA & pB & Hsel & Hne & _).
  exists pA, pB. split; [exact Hsel|]. split; [exact Hne|].
  unfold split. rewrite Hsel. simpl. split; [reflexivity|].
  intros w' [= <-].
  rewrite !splits_dealCard, splits_split_move, splits_send. simpl. lia.
Qed.

Lemma userInput_world (fuel : nat) (w w' : world) (a : Z) :
  userInput fuel w = Some (a, w') -> w' = set_sensor (sensor w') w /\ (a = HIT \/ a = STAY).
Proof.
  intros H. destruct (userInput_sound fuel w w' a H) as (Ha & Hw & _). split; assumption.
Qed.

(** An invariant of the body of a [while (1)] loop holds of what the loop
    returns. *)
Lemma while_loop_inv {S R : Type} (I : S -> Prop) (Q : R -> Prop)
    (body : S -> option (ctl S R)) :
  (forall s c, I s -> body s = Some c ->
     match c with Continue s' => I s' | Return r => Q r end) ->
  forall n s r, I s -> while_loop n body s = Some r -> Q r.
Proof.
  intros Hbody. induction n as [|n IH]; intros s r Hs Hrun; [discriminate Hrun|].
  cbn [while_loop] in Hrun.
  destruct (body s) as [[s'|r']|] eqn:Eb; [| |discriminate Hrun].
  - apply (IH s' r); [|exact Hrun]. exact (Hbody s _ Hs Eb).
  - injection Hrun as <-. exact (Hbody s _ Hs Eb).
Qed.

(** More fuel does not change what a loop returns. *)
Lemma while_loop_fuel {S R : Type} (body : S -> option (ctl S R)) (n m : nat) (s : S) (r : R) :
  while_loop n body s = Some r -> (n <= m)%nat -> while_loop m body s = Some r.
Proof.
  revert m s. induction n as [|n IH]; intros m s Hrun Hm; [discriminate Hrun|].
  destruct m as [|m]; [lia|]. cbn [while_loop] in *.
  destruct (body s) as [[s'|r']|]; [|exact Hrun|discriminate Hrun].
  apply IH; [exact Hrun|lia].
Qed.

Lemma split_splits (ID : Z) (w w' : world) :
  split ID w = Some w' -> splits w' = S (splits w).
Proof.
  unfold split, selectPlayer.
  repeat (destruct (ID =? _); simpl;
          [intros [= <-]; rewrite !splits_dealCard, splits_split_move, splits_send; simpl; lia|]);
    discriminate.
Qed.

Lemma split_offered_guard (pA : hid) (askSplit : Z) (w : world) :
  (arr_get (rank (hands w pA)) 0 =? arr_get (rank (hands w pA)) 1) && truthy askSplit = true
  <-> split_offered pA askSplit w.
Proof.
  unfold split_offered, truthy.
  rewrite andb_true_iff, Z.eqb_eq, negb_true_iff, Z.eqb_neq. reflexivity.
Qed.

(** A pass of the first loop of [playTurn] whose guard fails does no split:
    no split is announced, and no hand but [pA] (which may be dealt a card
    on [HIT]) changes. *)
Lemma playTurn_pass_without_offer (fuel : nat) (ID : Z) (pA : hid) (askSplit : Z)
    (w : world) (c : ctl (Z * world) world) :
  playTurn_first_body fuel ID pA (askSplit, w) = Some c ->
  ~ split_offered pA askSplit w ->
  splits (ctl_world c) = splits w /\
  (forall q, q <> pA -> hands (ctl_world c) q = hands w q) /\
  (forall a w', c = Continue (a, w') -> a = askSplit).
Proof.
  intros Hrun Hno. unfold playTurn_first_body in Hrun.
  destruct ((arr_get (rank (hands w pA)) 0 =? arr_get (rank (hands w pA)) 1) && truthy askSplit)
    eqn:Eg; [apply split_offered_guard in Eg; contradiction|].
  destruct (truthy (busted (hands w pA))).
  { injection Hrun as <-. simpl. rewrite splits_send. simpl.
    repeat split; try lia; try reflexivity; discriminate. }
  destruct (handvalue (hands w pA) =? 21).
  { injection Hrun as <-. simpl. rewrite splits_send. simpl.
    repeat split; try lia; try reflexivity; discriminate. }
  cbv zeta in Hrun.
  destruct (userInput fuel (send "HIT or STAY?" w)) as [[choice w1]|] eqn:Eu;
    [|discriminate Hrun].
  destruct (userInput_world _ _ _ _ Eu) as [Hw1 _]. simpl in Hrun.
  assert (Hs1 : splits w1 = splits w) by (rewrite Hw1; unfold splits; simpl;
    rewrite filter_app, length_app; simpl; lia).
  assert (Hh1 : hands w1 = hands w) by (rewrite Hw1; reflexivity).
  destruct (choice =? HIT); [|destruct (choice =? STAY)]; injection Hrun as <-; simpl.
  - rewrite splits_dealCard, splits_send. simpl. split; [lia|]. split.
    + intros q Hq. rewrite dealCard_other by exact Hq. simpl. rewrite Hh1. reflexivity.
    + intros a w' [= <- _]. reflexivity.
  - rewrite splits_send. simpl. rewrite Hh1. repeat split; try lia; discriminate.
  - rewrite splits_send. simpl. rewrite Hh1. repeat split; try lia; discriminate.
Qed.

(** A pass whose guard holds makes the offer once: [askSplit] is cleared,
    and at most one split is carried out. *)
Lemma playTurn_pass_with_offer (fuel : nat) (ID : Z) (pA : hid) (askSplit : Z)
    (w : world) (c : ctl (Z * world) world) :
  playTurn_first_body fuel ID pA (askSplit, w) = Some c ->
  split_offered pA askSplit w ->
  exists w', c = Continue (0, w') /\ (splits w' = splits w \/ splits w' = S (splits w)).
Proof.
  intros Hrun Hyes. unfold playTurn_first_body in Hrun.
  apply split_offered_guard in Hyes. rewrite Hyes in Hrun. cbv zeta in Hrun.
  destruct (userInput fuel (send "SPLIT? (HIT for YES) (STAY for NO)" w)) as [[ch w1]|] eqn:Eu;
    [|discriminate Hrun].
  destruct (userInput_world _ _ _ _ Eu) as [Hw1 _]. simpl in Hrun.
  assert (Hs1 : splits w1 = splits w) by (rewrite Hw1; unfold splits; simpl;
    rewrite filter_app, length_app; simpl; lia).
  destruct (ch =? HIT).
  - destruct (split ID w1) as [w2|] eqn:Esp; [|discriminate Hrun].
    simpl in Hrun. injection Hrun as <-. exists w2. split; [reflexivity|].
    right. rewrite (split_splits _ _ _ Esp), Hs1. reflexivity.
  - simpl in Hrun. injection Hrun as <-. exists w1. split; [reflexivity|]. left. exact Hs1.
Qed.

(** Over the whole first loop of a turn at most one split is carried out,
    and none once the offer has been made. *)
Lemma playTurn_first_splits (fuel n : nat) (ID : Z) (pA : hid) (askSplit : Z) (w w' : world) :
  while_loop n (playTurn_first_body fuel ID pA) (askSplit, w) = Some w' ->
  (splits w <= splits w' <= splits w + 1)%nat /\ (askSplit = 0 -> splits w' = splits w).
Proof.
  intros Hrun.
  set (B := (splits w + if decide (askSplit = 0%Z) then 0 else 1)%nat).
  assert (HQ : (splits w <= splits w' <= B)%nat).
  { apply (while_loop_inv
             (fun s => (splits w <= splits (snd s))%nat /\
                       (splits (snd s) + (if decide (fst s = 0%Z) then 0 else 1) <= B)%nat)
             (fun r => (splits w <= splits r <= B)%nat)
             (playTurn_first_body fuel ID pA)) with (n := n) (s := (askSplit, w));
      [|simpl; subst B; lia|exact Hrun].
    intros [a w1] c [Hlo Hhi] Hb. simpl in Hlo, Hhi.
    destruct ((arr_get (rank (hands w1 pA)) 0 =? arr_get (rank (hands w1 pA)) 1) && truthy a)
      eqn:Eg.
    - apply split_offered_guard in Eg.
      destruct (playTurn_pass_with_offer _ _ _ _ _ _ Hb Eg) as (w2 & -> & Hs).
      destruct Eg as [_ Ha]. simpl.
      destruct (decide (a = 0)); [contradiction|].
      destruct (decide (0 = 0)); [|contradiction]. lia.
    - assert (Hno : ~ split_offered pA a w1).
      { intros H. apply split_offered_guard in H. congruence. }
      destruct (playTurn_pass_without_offer _ _ _ _ _ _ Hb Hno) as (Hs & _ & Ha).
      destruct c as [[a' w2]|w2]; simpl in *.
      + rewrite (Ha a' w2 eq_refl). lia.
      + destruct (decide (a = 0)); lia. }
  subst B. split.
  - destruct (decide (askSplit = 0)); lia.
  - intros ->. simpl in HQ. lia.
Qed.

(** The card move of [split] leaves the arrays of the primary hand. *)
Lemma split_move_arrays (pA pB : hid) (w : world) :
  pA <> pB ->
  let w' := split_move pA pB w in
  rank (hands w' pA) = rank (hands w pA) /\ suit (hands w' pA) = suit (hands w pA) /\
  isFaceDown (hands w' pA) = isFaceDown (hands w pA) /\
  isFaceDown (hands w' pB) = isFaceDown (hands w pB).
Proof.
  intros Hne w'. subst w'. unfold split_move.
  assert (Hne' : pB <> pA) by congruence.
  destruct (_ =? 1);
    repeat rewrite ?upd_hand_same, ?upd_hand_other by assumption; repeat split.
Qed.

(** The cards of the two hands before and after the card move of a split of
    a two-card hand. *)
Lemma split_move_cards (pA pB : hid) (w : world) :
  pA <> pB -> hand_sized (hands w pA) -> hand_sized (hands w pB) ->
  handsize (hands w pA) = 2 -> handsize (hands w pB) = 0 ->
  let c0 := (arr_get (rank (hands w pA)) 0, arr_get (suit (hands w pA)) 0) in
  let c1 := (arr_get (rank (hands w pA)) 1, arr_get (suit (hands w pA)) 1) in
  let w' := split_move pA pB w in
  hand_cards (hands w pA) = [c0; c1] /\ hand_cards (hands w pB) = [] /\
  hand_cards (hands w' pA) = [c0] /\ hand_cards (hands w' pB) = [c1] /\
  hand_sized (hands w' pA) /\ hand_sized (hands w' pB).
Proof.
  intros Hne (HrA & HsA & HfA) (HrB & HsB & HfB) HnA HnB c0 c1 w'.
  destruct (split_move_values pA pB w Hne) as (EnA & EnB & ErB & EsB & _).
  destruct (split_move_arrays pA pB w Hne) as (ErA & EsA & EfA & EfB).
  fold w' in EnA, EnB, ErB, EsB, ErA, EsA, EfA, EfB.
  unfold hand_cards, hand_sized.
  rewrite EnA, EnB, ErB, EsB, ErA, EsA, EfA, EfB, HnA, HnB. subst c0 c1.
  destruct (rank (hands w pA)) as [|r0 [|r1 lr]]; try discriminate HrA.
  destruct (suit (hands w pA)) as [|s0 [|s1 ls]]; try discriminate HsA.
  destruct (rank (hands w pB)) as [|b0 lb]; try discriminate HrB.
  destruct (suit (hands w pB)) as [|t0 lt]; try discriminate HsB.
  split; [reflexivity|]. split; [reflexivity|]. split; [reflexivity|]. split; [reflexivity|].
  split; (split; [|split]); assumption.
Qed.

(** A deal never takes a card from the hand. *)
Lemma dealCard_handsize (p : hid) (w : world) :
  handsize (hands w p) <= handsize (hands (dealCard p w) p).
Proof.
  unfold dealCard.
  destruct ((indexG w >=? SINGLEDECK) || (handsize (hands w p) >=? MAXHAND)); [simpl; lia|].
  cbv zeta. rewrite set_hand_same.
  destruct (_ =? 1); [|destruct (_ || _)];
    (match goal with |- context [?a >? 21] => destruct (a >? 21) end;
     [match goal with |- context [?a >? 0] => destruct (a >? 0) end|]); simpl; lia.
Qed.

(** Whatever the hands hold, [split] is carried out: the secondary hand
    ends with more cards than it had. *)
Lemma split_gains (ID : Z) (pA pB : hid) (w w' : world) :
  selectPlayer ID w = (Some (pA, pB), w) -> pA <> pB ->
  split ID w = Some w' ->
  out w ++ ["You split!"] `prefix_of` out w' /\
  handsize (hands w pB) < handsize (hands w' pB).
Proof.
  intros Hsel Hne Hrun. unfold split in Hrun. rewrite Hsel in Hrun. simpl in Hrun.
  injection Hrun as <-.
  set (w0 := send "You split!" w).
  destruct (split_move_values pA pB w0 Hne) as (_ & EnB & _ & _ & _ & _ & _ & _ & _ & _ & _ & Eo & _).
  split.
  - assert (Hd : forall p v, out v `prefix_of` out (dealCard p v)).
    { intros p v. unfold dealCard. destruct (_ || _); simpl;
        [apply prefix_app_r|]; reflexivity. }
    etrans; [|apply Hd]. etrans; [|apply Hd]. rewrite Eo. reflexivity.
  - pose proof (dealCard_handsize pB (dealCard pA (split_move pA pB w0))) as H.
    rewrite (dealCard_other pA pB) in H by congruence.
    rewrite EnB in H. change (hands w0 pB) with (hands w pB) in H. lia.
Qed.

(** [split] on a hand of two cards, with an empty secondary hand and two
    cards left in the deck: the second card goes to the secondary hand and
    each hand is dealt one card, whatever the ranks of the two cards. *)
Lemma split_two_cards (ID : Z) (pA pB : hid) (w : world) :
  selectPlayer ID w = (Some (pA, pB), w) -> pA <> pB ->
  hand_sized (hands w pA) -> hand_sized (hands w pB) ->
  handsize (hands w pA) = 2 -> handsize (hands w pB) = 0 ->
  0 <= indexG w -> indexG w + 2 <= SINGLEDECK ->
  exists w', split ID w = Some w' /\
    out w' = out w ++ ["You split!"] /\
    hand_cards (hands w' pA) =
      [(arr_get (rank (hands w pA)) 0, arr_get (suit (hands w pA)) 0); card_at w (indexG w)] /\
    hand_cards (hands w' pB) =
      [(arr_get (rank (hands w pA)) 1, arr_get (suit (hands w pA)) 1);
       card_at w (indexG w + 1)] /\
    indexG w' = indexG w + 2 /\
    (forall q, q <> pA -> q <> pB -> hands w' q = hands w q).
Proof.
  intros Hsel Hne HsA HsB HnA HnB Hi0 Hi2.
  eexists. split; [unfold split; rewrite Hsel; reflexivity|].
  set (w0 := send "You split!" w).
  assert (Hne' : pB <> pA) by congruence.
  destruct (split_move_values pA pB w0 Hne)
    as (EnA & EnB & _ & _ & _ & _ & _ & Hother & Ei & Er & Es & Eo & _).
  destruct (split_move_cards pA pB w0 Hne HsA HsB HnA HnB)
    as (_ & _ & EcA & EcB & HsA1 & HsB1).
  change (hands w0 pA) with (hands w pA) in *. change (hands w0 pB) with (hands w pB) in *.
  change (indexG w0) with (indexG w) in Ei. change (out w0) with (out w ++ ["You split!"]) in Eo.
  change (rankG w0) with (rankG w) in Er. change (suitG w0) with (suitG w) in Es.
  assert (Hother' : forall q, q <> pA -> q <> pB -> hands (split_move pA pB w0) q = hands w q)
    by exact Hother.
  clear Hother.
  set (w1 := split_move pA pB w0) in *. clearbody w1. clear w0.
  unfold MAXHAND, SINGLEDECK in *.
  assert (Hi1 : indexG w1 < SINGLEDECK) by (unfold SINGLEDECK; lia).
  assert (Hn1 : handsize (hands w1 pA) < MAXHAND) by (unfold MAXHAND; lia).
  destruct (dealCard_dealt pA w1 Hi1 Hn1) as (Ei2 & Er2 & Es2 & Eo2 & _ & _ & Hother2 & _).
  pose proof (dealCard_appends pA w1 Hi1 Hn1 ltac:(lia) HsA1) as EcA2.
  set (w2 := dealCard pA w1) in *. clearbody w2.
  assert (Hi2' : indexG w2 < SINGLEDECK) by (unfold SINGLEDECK; lia).
  assert (Hn2 : handsize (hands w2 pB) < MAXHAND)
    by (rewrite (Hother2 pB Hne'); unfold MAXHAND; lia).
  destruct (dealCard_dealt pB w2 Hi2' Hn2) as (Ei3 & _ & _ & Eo3 & _ & _ & Hother3 & _).
  assert (EcB3 : hand_cards (hands (dealCard pB w2) pB) = hand_cards (hands w2 pB) ++ [next_card w2]).
  { apply dealCard_appends; try assumption; rewrite (Hother2 pB Hne'); [lia|exact HsB1]. }
  split; [rewrite Eo3, Eo2, Eo; reflexivity|].
  split; [|split; [|split]].
  - rewrite (Hother3 pA Hne), EcA2, EcA. unfold next_card, card_at. rewrite Er, Es, Ei. reflexivity.
  - rewrite EcB3, (Hother2 pB Hne'), EcB. unfold next_card, card_at.
    rewrite Er2, Es2, Ei2, Er, Es, Ei. reflexivity.
  - rewrite Ei3, Ei2, Ei. lia.
  - intros q HA HB. rewrite (Hother3 q HB), (Hother2 q HA). apply Hother'; assumption.
Qed.

(** The second loop of [playTurn] never splits. *)
Lemma playTurn_second_splits (fuel n : nat) (pB : hid) (w w' : world) :
  while_loop n (playTurn_second_body fuel pB) w = Some w' -> splits w' = splits w.
Proof.
  apply (while_loop_inv (fun v => splits v = splits w) (fun v => splits v = splits w)
           (playTurn_second_body fuel pB)); [|reflexivity].
  intros v c Hv Hb. unfold playTurn_second_body in Hb.
  destruct (truthy (busted (hands v pB))); [injection Hb as <-; rewrite splits_send; simpl; lia|].
  destruct (handvalue (hands v pB) =? 21); [injection Hb as <-; rewrite splits_send; simpl; lia|].
  cbv zeta in Hb.
  destruct (userInput fuel (send "HIT or STAY?" v)) as [[choice v1]|] eqn:Eu;
    [|discriminate Hb].
  destruct (userInput_world _ _ _ _ Eu) as [Hw1 _]. simpl in Hb.
  assert (Hs1 : splits v1 = splits w).
  { rewrite <- Hv, Hw1. unfold splits. simpl. rewrite filter_app, length_app. simpl. lia. }
  destruct (choice =? HIT); [|destruct (choice =? STAY)]; injection Hb as <-;
    rewrite ?splits_dealCard, splits_send; simpl; lia.
Qed.

(** A whole turn carries out at most one split. *)
Lemma playTurn_splits (fuel : nat) (ID : Z) (w w' : world) :
  playTurn fuel ID w = Some w' -> (splits w <= splits w' <= splits w + 1)%nat.
Proof.
  intros Hrun. unfold playTurn in Hrun.
  destruct (selectPlayer ID w) as [[[pA pB]|] w0] eqn:Esel; [|discriminate Hrun].
  assert (E0 : w0 = w).
  { unfold selectPlayer in Esel.
    repeat (destruct (ID =? _); [injection Esel as _ _ <-; reflexivity|]).
    destruct (ID =? DEALER); discriminate Esel. }
  subst w0. simpl in Hrun.
  destruct (while_loop fuel (playTurn_first_body fuel ID pA) (1, w)) as [w1|] eqn:E1;
    [|discriminate Hrun]. simpl in Hrun.
  destruct (playTurn_first_splits _ _ _ _ _ _ _ E1) as [H1 _].
  destruct (truthy (empty (hands w1 pB))); [injection Hrun as <-; exact H1|].
  rewrite (playTurn_second_splits _ _ _ _ _ Hrun). exact H1.
Qed.

(** C6 (as amended).  [split] makes no check of its own and never refuses:
    for each of the four seats it is carried out whatever the hand holds.
    It announces the split and the secondary hand ends with more cards than
    it had; on a hand of two cards, with an empty secondary hand and two
    cards left in the deck, the second card goes to the secondary hand and
    each hand is dealt one card, whatever the two ranks.  The precondition
    is the guard of its caller.  A pass of the first loop of [playTurn] in
    which the first two ranks of the hand differ, or in which the offer was
    made before ([askSplit] is 0), calls no [split] and changes no hand but,
    on [HIT], the hand that is played; the offer clears [askSplit], so that
    the loop carries out no split after the offer and a whole turn
    ([playTurn]) carries out at most one split. *)
Theorem split_guarded_by_playTurn :
  (forall ID w, 1 <= ID <= 4 ->
     exists pA pB w',
       selectPlayer ID w = (Some (pA, pB), w) /\
       split ID w = Some w' /\ splits w' = S (splits w) /\
       out w ++ ["You split!"] `prefix_of` out w' /\
       handsize (hands w pB) < handsize (hands w' pB) /\
       (hand_sized (hands w pA) -> hand_sized (hands w pB) ->
        handsize (hands w pA) = 2 -> handsize (hands w pB) = 0 ->
        0 <= indexG w -> indexG w + 2 <= SINGLEDECK ->
        out w' = out w ++ ["You split!"] /\
        hand_cards (hands w' pA) =
          [(arr_get (rank (hands w pA)) 0, arr_get (suit (hands w pA)) 0);
           card_at w (indexG w)] /\
        hand_cards (hands w' pB) =
          [(arr_get (rank (hands w pA)) 1, arr_get (suit (hands w pA)) 1);
           card_at w (indexG w + 1)] /\
        indexG w' = indexG w + 2 /\
        (forall q, q <> pA -> q <> pB -> hands w' q = hands w q))) /\
  (forall fuel ID pA askSplit w c,
     playTurn_first_body fuel ID pA (askSplit, w) = Some c ->
     ~ split_offered pA askSplit w ->
     splits (ctl_world c) = splits w /\
     (forall q, q <> pA -> hands (ctl_world c) q = hands w q)) /\
  (forall fuel n ID pA askSplit w w',
     while_loop n (playTurn_first_body fuel ID pA) (askSplit, w) = Some w' ->
     (splits w' <= splits w + 1)%nat /\ (askSplit = 0 -> splits w' = splits w)) /\
  (forall fuel ID w w',
     playTurn fuel ID w = Some w' -> (splits w <= splits w' <= splits w + 1)%nat).
Proof.
  split; [|split; [|split]].
  - intros ID w HID. destruct (split_total ID w HID) as (pA & pB & Hsel & Hne & Hs & Hn).
    exists pA, pB. eexists. split; [exact Hsel|]. split; [exact Hs|].
    split; [apply Hn, Hs|].
    destruct (split_gains ID pA pB w _ Hsel Hne Hs) as [Ho Hg].
    split; [exact Ho|]. split; [exact Hg|].
    intros HsA HsB HnA HnB Hi0 Hi2.
    destruct (split_two_cards ID pA pB w Hsel Hne HsA HsB HnA HnB Hi0 Hi2)
      as (w' & E & Hout & HcA & HcB & Hi & Hfr).
    rewrite Hs in E. injection E as <-.
    split; [exact Hout|]. split; [exact HcA|]. split; [exact HcB|]. split; assumption.
  - intros fuel ID pA askSplit w c Hrun Hno.
    destruct (playTurn_pass_without_offer _ _ _ _ _ _ Hrun Hno) as (Hs & Hh & _).
    split; assumption.
  - intros fuel n ID pA askSplit w w' Hrun.
    destruct (playTurn_first_splits _ _ _ _ _ _ _ Hrun) as [[_ H1] H2]. split; assumption.
  - intros fuel ID w w'. apply playTurn_splits.
Qed.

Lemma split_guarded_by_playTurn_witness :
  let w := five_nine_stay in
  (exists w', split P1 w = Some w' /\ splits w' = S (splits w) /\
     handsize (hands w p1b) < handsize (hands w' p1b) /\
     hand_cards (hands w' p1a) = [(5, "s"%char); (10, "s"%char)] /\
     hand_cards (hands w' p1b) = [(9, "s"%char); (11, "s"%char)]) /\
  (forall w', while_loop 3 (playTurn_first_body classifications P1 p1a) (1, w) = Some w' ->
     splits w' = splits w /\ hands w' p1b = hands w p1b) /\
  (exists w', playTurn classifications P1 w = Some w' /\
     (splits w <= splits w' <= splits w + 1)%nat).
Proof.
  intros w. destruct split_guarded_by_playTurn as (Htot & Hpass & _ & Hturn).
  split; [|split].
  - destruct (Htot P1 w) as (pA & pB & w' & Hsel & Hs & Hn & _ & Hg & Hcards);
      [vm_compute; split; discriminate|].
    assert (Hseat : (Some (pA, pB), w) = (Some (p1a, p1b), w)) by (rewrite <- Hsel; reflexivity).
    assert (EA : pA = p1a) by congruence. assert (EB : pB = p1b) by congruence.
    subst pA pB. clear Hsel Hseat.
    destruct Hcards as (_ & HcA & HcB & _);
      [repeat split|repeat split|reflexivity|reflexivity
      |vm_compute; discriminate|vm_compute; discriminate|].
    exists w'. split; [exact Hs|]. split; [exact Hn|]. split; [exact Hg|].
    rewrite HcA, HcB. split; vm_compute; reflexivity.
  - intros w' Hrun.
    assert (Hb : playTurn_first_body classifications P1 p1a (1, w) =
                 Some (Return (send "You stayed!" (set_sensor [] (send "HIT or STAY?" w)))))
      by (vm_compute; reflexivity).
    cbn [while_loop] in Hrun. rewrite Hb in Hrun. injection Hrun as <-.
    destruct (Hpass classifications P1 p1a 1 w _ Hb) as [Hs Hh].
    + vm_compute. intros [H _]. discriminate H.
    + split; [exact Hs|]. apply (Hh p1b). discriminate.
  - destruct (playTurn classifications P1 w) as [w'|] eqn:E;
      [|exfalso; vm_compute in E; discriminate E].
    exists w'. split; [reflexivity|]. exact (Hturn _ _ _ _ E).
Defined.

(** C6 as the specification states it fails: called on a hand whose first
    two ranks differ (a 5 and a 9), [split] reports nothing and splits the
    hand all the same. *)
Lemma split_without_pair :
  arr_get (rank (hands five_nine p1a)) 0 <> arr_get (rank (hands five_nine p1a)) 1 /\
  exists w', split P1 five_nine = Some w' /\
    out w' = out five_nine ++ ["You split!"] /\
    hand_cards (hands five_nine p1a) = [(5, "s"%char); (9, "s"%char)] /\
    hand_cards (hands five_nine p1b) = [] /\
    hand_cards (hands w' p1a) = [(5, "s"%char); (10, "s"%char)] /\
    hand_cards (hands w' p1b) = [(9, "s"%char); (11, "s"%char)].
Proof.
  split; [vm_compute; discriminate|].
  eexists. split; [reflexivity|]. repeat split; reflexivity.
Qed.

(** ** The dealer's policy *)

Lemma truthy_true (x : Z) : truthy x = true <-> x <> 0.
Proof. unfold truthy. rewrite negb_true_iff, Z.eqb_neq. reflexivity. Qed.

Lemma truthy_false (x : Z) : truthy x = false <-> x = 0.
Proof. unfold truthy. rewrite negb_false_iff, Z.eqb_eq. reflexivity. Qed.

Lemma dealer_draws_guard (w : world) :
  let h := hands w dealer in
  truthy (busted h) = false /\
  ((handvalue h <? 17) || ((handvalue h =? 17) && truthy (soft h))) = true
  <-> dealer_draws w.
Proof.
  intros h. unfold dealer_draws, soft_17. fold h.
  rewrite truthy_false, orb_true_iff, andb_true_iff, Z.ltb_lt, Z.eqb_eq, truthy_true.
  reflexivity.
Qed.

(** One pass of the dealer's loop. *)
Lemma dealer_body_cases (w : world) :
  (dealer_draws w /\
   dealer_body w = Some (Continue (dealCard dealer (send "Dealer hits!" w)))) \/
  (~ dealer_draws w /\ dealer_stopped (hands w dealer) /\
   exists msg, dealer_body w = Some (Return (send msg w))).
Proof.
  unfold dealer_body.
  destruct (truthy (busted (hands w dealer))) eqn:Eb.
  { right. apply truthy_true in Eb. split; [intros [H _]; contradiction|].
    split; [left; exact Eb|]. eexists. reflexivity. }
  destruct ((handvalue (hands w dealer) <? 17)
            || ((handvalue (hands w dealer) =? 17) && truthy (soft (hands w dealer)))) eqn:Ed.
  { left. split; [|reflexivity]. apply dealer_draws_guard. split; assumption. }
  right. split; [|split].
  - intros H. apply dealer_draws_guard in H. destruct H as [_ H]. congruence.
  - right. apply orb_false_iff in Ed as [Hlt Hs]. apply Z.ltb_ge in Hlt.
    split; [exact Hlt|]. intros [H17 Hsoft].
    apply andb_false_iff in Hs as [Hs|Hs].
    + apply Z.eqb_neq in Hs. contradiction.
    + apply truthy_false in Hs. contradiction.
  - eexists. reflexivity.
Qed.

Lemma dealerTurn_stopped (n : nat) (w w' : world) :
  dealerTurn n w = Some w' -> dealer_stopped (hands w' dealer).
Proof.
  unfold dealerTurn.
  apply (while_loop_inv (fun _ => True) (fun r => dealer_stopped (hands r dealer)) dealer_body);
    [|exact I].
  intros s c _ Hb.
  destruct (dealer_body_cases s) as [[_ E]|(_ & Hst & msg & E)]; rewrite E in Hb;
    injection Hb as <-; [exact I|exact Hst].
Qed.

(** A dealt card adds its [hard_value] to the [hard_total] of the hand. *)
Lemma dealCard_hard_total (p : hid) (w : world) :
  indexG w < SINGLEDECK -> handsize (hands w p) < MAXHAND ->
  0 <= soft (hands w p) ->
  0 <= soft (hands (dealCard p w) p) /\
  hard_total (hands (dealCard p w) p) =
    hard_total (hands w p) + hard_value (arr_get (rankG w) (indexG w)).
Proof.
  intros Hi Hn Hs.
  destruct (dealCard_dealt p w Hi Hn)
    as (_ & _ & _ & _ & _ & _ & _ & _ & _ & _ & _ & _ & Hle & Hdem & Hbust).
  revert Hle Hdem Hbust. unfold hard_total, hard_value.
  set (r := arr_get (rankG w) (indexG w)).
  set (h' := hands (dealCard p w) p). set (h := hands w p) in *.
  set (pts := if r =? 1 then 11 else if (10 <=? r) && (r <=? 13) then 10 else r).
  set (sft := if r =? 1 then soft h + 1 else soft h).
  set (hv := if r =? 1 then 1 else if (10 <=? r) && (r <=? 13) then 10 else r).
  assert (Hpts : pts - 10 * sft = hv - 10 * soft h /\ soft h <= sft).
  { subst pts sft hv. destruct (r =? 1); [lia|]. destruct ((10 <=? r) && (r <=? 13)); lia. }
  clearbody pts sft hv. intros Hle Hdem Hbust.
  destruct (Z_le_gt_dec (handvalue h + pts) 21) as [Hv|Hv];
    [destruct (Hle Hv) as (-> & -> & _); lia|].
  destruct (Z_lt_le_dec 0 sft) as [Hp|Hp];
    [destruct (Hdem ltac:(lia) Hp) as (-> & -> & _)
    |destruct (Hbust ltac:(lia) Hp) as (-> & -> & _)]; lia.
Qed.

(** The dealer's loop returns as soon as the cards to come lift the
    [hard_total] of the hand to 18, if the deck and the hand have room for
    them. *)
Lemma dealerTurn_returns (k : nat) (w : world) :
  0 <= soft (hands w dealer) ->
  indexG w + Z.of_nat k <= SINGLEDECK ->
  handsize (hands w dealer) + Z.of_nat k <= MAXHAND ->
  18 - hard_total (hands w dealer) <= upcoming k (rankG w) (indexG w) ->
  exists w', dealerTurn (S k) w = Some w'.
Proof.
  revert w. induction k as [|k IH]; intros w Hs Hi Hn Hup;
    unfold dealerTurn in *; cbn [while_loop];
    destruct (dealer_body_cases w) as [[Hd E]|(_ & _ & msg & E)]; rewrite E;
    try (eexists; reflexivity).
  - exfalso. destruct Hd as [_ Hd]. simpl in Hup. unfold hard_total, soft_17 in *. nia.
  - assert (Hi' : indexG (send "Dealer hits!" w) < SINGLEDECK) by (simpl; lia).
    assert (Hn' : handsize (hands (send "Dealer hits!" w) dealer) < MAXHAND) by (simpl; lia).
    destruct (dealCard_hard_total dealer _ Hi' Hn' Hs) as [Hs' Hh].
    destruct (dealCard_dealt dealer _ Hi' Hn') as (Ei & Er & _ & _ & _ & _ & _ & _ & _ & _ & En & _).
    apply IH.
    + exact Hs'.
    + rewrite Ei. simpl. lia.
    + rewrite En. simpl. lia.
    + rewrite Hh, Er, Ei. simpl in *. lia.
Qed.


(** ** The invariant of a round *)

Lemma deck_ok_next (w : world) :
  deck_ok w -> indexG w < SINGLEDECK -> rank_ok (fst (next_card w)).
Proof.
  intros ([Hl _] & Hr & H0) Hi. unfold next_card, arr_get. simpl.
  replace (0 <=? indexG w) with true by (symmetry; apply Z.leb_le; exact H0).
  unfold SINGLEDECK in *.
  apply (Forall_lookup_total_1 _ _ _ Hr). lia.
Qed.

Lemma dealCard_deck (p : hid) (w : world) :
  rankG (dealCard p w) = rankG w /\ suitG (dealCard p w) = suitG w /\
  indexG w <= indexG (dealCard p w) <= indexG w + 1.
Proof.
  unfold dealCard.
  destruct ((indexG w >=? SINGLEDECK) || (handsize (hands w p) >=? MAXHAND)); simpl;
    repeat split; lia.
Qed.

Lemma dealCard_deck_ok (p : hid) (w : world) : deck_ok w -> deck_ok (dealCard p w).
Proof.
  intros ([Hl Hs] & Hr & H0). destruct (dealCard_deck p w) as (Er & Es & Hi).
  unfold deck_ok, deck_sized. rewrite Er, Es. repeat split; try assumption. lia.
Qed.

(** A card dealt to a hand that is not busted and stands below 21, as the
    round engine deals them, keeps the table in order. *)
Lemma dealCard_table_ok (p : hid) (w : world) :
  table_ok w -> handvalue (hands w p) <> 21 -> table_ok (dealCard p w).
Proof.
  intros [Hd Hc] Hv. split; [apply dealCard_deck_ok, Hd|].
  intros q. destruct (decide (q = p)) as [->|Hq].
  - apply dealCard_consistent; [apply Hc|apply deck_ok_next, Hd|tauto].
  - rewrite dealCard_other by exact Hq. apply Hc.
Qed.

Lemma for_loop_emptyHand_sized (h : hand) :
  hand_sized h ->
  hand_sized (for_loop (Z.to_nat MAXHAND) emptyHand_slot h).
Proof.
  intros Hs. apply for_loop_inv; [exact Hs|].
  intros i s _ (H1 & H2 & H3). unfold emptyHand_slot, hand_sized, arr_set; simpl.
  destruct (0 <=? i); rewrite ?length_insert; repeat split; assumption.
Qed.

Lemma emptyHand_opening (p : hid) (w : world) :
  hand_sized (hands w p) -> opening_hand 0 (hands (emptyHand p w) p).
Proof.
  intros Hs. unfold emptyHand. rewrite set_hand_same.
  pose proof (for_loop_emptyHand_sized _ Hs) as Hs'.
  set (h0 := for_loop (Z.to_nat MAXHAND) emptyHand_slot (hands w p)) in *. clearbody h0.
  unfold opening_hand, hand_sized in *.
  cbn [rank suit isFaceDown handsize handvalue busted soft
       set_handsize set_handvalue set_busted set_soft set_empty].
  split; [exact Hs'|]. repeat split; intros; lia.
Qed.

Lemma emptyHand_other (p q : hid) (w : world) :
  q <> p -> hands (emptyHand p w) q = hands w q.
Proof. intros Hq. unfold emptyHand. apply set_hand_other, Hq. Qed.

Lemma fst_cards (w : world) : deck_sized w -> (cards w).*1 = rankG w.
Proof. intros [Hr Hs]. unfold cards. apply fst_zip. lia. Qed.

(** After [newRound] every hand is empty and the deck is in order. *)
Lemma newRound_opening (w : world) :
  round_ready w ->
  deck_ok (newRound w) /\ indexG (newRound w) = 0 /\
  Forall (fun r => 0 <= r) (rnd (newRound w)) /\
  forall p, opening_hand 0 (hands (newRound w) p).
Proof.
  intros (Hsz & Hr & Hh & Hrnd). unfold newRound.
  set (w9 := emptyHand p4b _).
  assert (Hsz9 : deck_sized w9) by exact Hsz.
  assert (Hrnd9 : Forall (fun r => 0 <= r) (rnd w9)) by exact Hrnd.
  destruct (shuffleDeck_inv w9 Hsz9 Hrnd9) as (Hsz' & Hperm & Hrnd' & Hidx & Ehands & _).
  split; [|split; [exact Hidx|split; [exact Hrnd'|]]].
  - split; [exact Hsz'|]. split; [|lia].
    rewrite <- (fst_cards _ Hsz'). rewrite Hperm. rewrite (fst_cards _ Hsz9). exact Hr.
  - intros p. rewrite Ehands. subst w9.
    destruct p;
      repeat first [ apply emptyHand_opening | rewrite emptyHand_other by discriminate ];
      repeat rewrite emptyHand_other by discriminate; apply Hh.
Qed.

Lemma arr_get_set_same {A} `{Inhabited A} (l : list A) (i : Z) (v : A) :
  0 <= i < Z.of_nat (length l) -> arr_get (arr_set l i v) i = v.
Proof.
  intros Hi. unfold arr_get, arr_set.
  replace (0 <=? i) with true by (symmetry; apply Z.leb_le; lia).
  apply list_lookup_total_insert_eq. lia.
Qed.

Lemma arr_get_set_other {A} `{Inhabited A} (l : list A) (i j : Z) (v : A) :
  0 <= j -> i <> j -> arr_get (arr_set l i v) j = arr_get l j.
Proof.
  intros Hj Hij. unfold arr_get, arr_set.
  replace (0 <=? j) with true by (symmetry; apply Z.leb_le; lia).
  destruct (0 <=? i) eqn:Ei; [|reflexivity].
  apply Z.leb_le in Ei. apply list_lookup_total_insert_ne. lia.
Qed.

Lemma arr_set_length {A} (l : list A) (i : Z) (v : A) : length (arr_set l i v) = length l.
Proof. unfold arr_set. destruct (0 <=? i); [apply length_insert|reflexivity]. Qed.

(** One card of the opening deal. *)
Lemma dealCard_opening (p : hid) (w : world) (k : Z) :
  deck_ok w -> indexG w < SINGLEDECK -> 0 <= k < 2 ->
  opening_hand k (hands w p) ->
  opening_hand (k + 1) (hands (dealCard p w) p) /\ indexG (dealCard p w) = indexG w + 1.
Proof.
  intros Hd Hi Hk ((Hlr & Hls & Hlf) & Hn & Hb & Hs & H0 & H1 & _).
  assert (Hn' : handsize (hands w p) < MAXHAND) by (unfold MAXHAND; lia).
  pose proof (deck_ok_next w Hd Hi) as Hr. unfold next_card, rank_ok in Hr. simpl in Hr.
  destruct (dealCard_dealt p w Hi Hn')
    as (Ei & _ & _ & _ & _ & _ & _ & Er & Es & Ef & En & _ & Hle & Hdem & Hbust).
  split; [|exact Ei].
  revert Hle Hdem Hbust.
  set (r := arr_get (rankG w) (indexG w)) in *.
  set (h' := hands (dealCard p w) p) in *. set (h := hands w p) in *.
  set (pts := if r =? 1 then 11 else if (10 <=? r) && (r <=? 13) then 10 else r).
  set (sft := if r =? 1 then soft h + 1 else soft h).
  assert (Hpts : 1 <= pts <= 11 /\ (pts = 11 -> sft = soft h + 1) /\ soft h <= sft).
  { subst pts sft.
    destruct (Z.eqb_spec r 1); [|destruct (Z.leb_spec 10 r), (Z.leb_spec r 13); simpl]; lia. }
  clearbody pts sft. intros Hle Hdem Hbust.
  assert (Hv : handvalue h <= 11) by (destruct (Z.eq_dec k 0); [destruct H0; lia|apply H1; lia]).
  assert (Hval : busted h' = 0 /\ 0 <= soft h' /\ handvalue h' <= 21 /\
                 (handvalue h = 0 -> handvalue h' <= 11)).
  { destruct (Z_le_gt_dec (handvalue h + pts) 21) as [Hv'|Hv'].
    - destruct (Hle Hv') as (-> & -> & ->). lia.
    - destruct (Hdem ltac:(lia) ltac:(lia)) as (-> & -> & ->). lia. }
  destruct Hval as (Hb' & Hs' & Hv21 & Hv11).
  unfold opening_hand, hand_sized. rewrite Er, Es, Ef, En, !arr_set_length.
  split; [repeat split; assumption|]. split; [lia|].
  split; [assumption|]. split; [assumption|].
  split; [intros; exfalso; lia|].
  split; [intros; apply Hv11; destruct (H0 ltac:(lia)) as [E _]; exact E|].
  intros Hk2. split; [assumption|]. replace (handsize h) with 1 by lia.
  rewrite arr_get_set_same by (rewrite Hlr; unfold MAXHAND; lia). exact Hr.
Qed.

Lemma opening_step (i : Z) (cnt : hid -> Z) (p : hid) (w : world) :
  opening i cnt w -> i < SINGLEDECK -> 0 <= cnt p < 2 ->
  opening (i + 1) (fun q => if decide (q = p) then cnt p + 1 else cnt q) (dealCard p w).
Proof.
  intros (Hd & Hi & Hh) Hlt Hk. subst i.
  destruct (dealCard_opening p w (cnt p) Hd Hlt Hk (Hh p)) as [Ho Ei].
  split; [apply dealCard_deck_ok, Hd|]. split; [exact Ei|].
  intros q. destruct (decide (q = p)) as [->|Hq]; [exact Ho|].
  rewrite dealCard_other by exact Hq. apply Hh.
Qed.

Ltac deal_step H p :=
  let H' := fresh "Hop" in
  pose proof (opening_step _ _ p _ H ltac:(unfold SINGLEDECK; lia)
                ltac:(vm_compute; split; [discriminate|reflexivity])) as H';
  clear H; rename H' into H.

(** After the opening deal every seat is fresh, the dealer holds two cards
    and ten cards have left the deck. *)
Lemma opening_deal_fresh (w : world) :
  opening 0 (fun _ => 0) w ->
  let w' := opening_deal w in
  deck_ok w' /\ indexG w' = 10 /\
  seat_fresh p1a p1b w' /\ seat_fresh p2a p2b w' /\
  seat_fresh p3a p3b w' /\ seat_fresh p4a p4b w' /\
  opening_hand 2 (hands w' dealer).
Proof.
  intros H w'. subst w'. unfold opening_deal.
  rewrite !for_loop_S. change (for_loop 0 ?b ?s) with s. cbv beta zeta.
  deal_step H p1a. deal_step H p2a. deal_step H p3a. deal_step H p4a. deal_step H dealer.
  deal_step H p1a. deal_step H p2a. deal_step H p3a. deal_step H p4a. deal_step H dealer.
  destruct H as (Hd & Hi & Hh).
  split; [exact Hd|]. split; [rewrite Hi; reflexivity|].
  unfold seat_fresh.
  split; [split; [exact (Hh p1a)|exact (Hh p1b)]|].
  split; [split; [exact (Hh p2a)|exact (Hh p2b)]|].
  split; [split; [exact (Hh p3a)|exact (Hh p3b)]|].
  split; [split; [exact (Hh p4a)|exact (Hh p4b)]|].
  exact (Hh dealer).
Qed.

Lemma table_ok_ext (w w1 : world) :
  hands w1 = hands w -> rankG w1 = rankG w -> suitG w1 = suitG w ->
  indexG w1 = indexG w -> table_ok w -> table_ok w1.
Proof.
  intros Eh Er Es Ei [Hd Hc]. unfold table_ok, deck_ok, deck_sized in *.
  rewrite Eh, Er, Es, Ei. split; assumption.
Qed.

Lemma userInput_frame (fuel : nat) (w w1 : world) (a : Z) :
  userInput fuel w = Some (a, w1) ->
  hands w1 = hands w /\ rankG w1 = rankG w /\ suitG w1 = suitG w /\
  indexG w1 = indexG w /\ out w1 = out w /\ rnd w1 = rnd w.
Proof.
  intros H. destruct (userInput_world _ _ _ _ H) as [Hw _].
  rewrite Hw. repeat split.
Qed.

Lemma userInput_table_ok (fuel : nat) (s : string) (w w1 : world) (a : Z) :
  userInput fuel (send s w) = Some (a, w1) ->
  hands w1 = hands w /\ (table_ok w -> table_ok w1).
Proof.
  intros H. destruct (userInput_frame _ _ _ _ H) as (Eh & Er & Es & Ei & _).
  split; [exact Eh|]. apply table_ok_ext; assumption.
Qed.

(** A card dealt to a hand of two or more cards leaves its first two ranks. *)
Lemma dealCard_keeps_first_two (p : hid) (w : world) :
  2 <= handsize (hands w p) ->
  2 <= handsize (hands (dealCard p w) p) /\
  arr_get (rank (hands (dealCard p w) p)) 0 = arr_get (rank (hands w p)) 0 /\
  arr_get (rank (hands (dealCard p w) p)) 1 = arr_get (rank (hands w p)) 1.
Proof.
  intros H2.
  destruct (Z_lt_le_dec (indexG w) SINGLEDECK) as [Hi|Hi];
    [destruct (Z_lt_le_dec (handsize (hands w p)) MAXHAND) as [Hn|Hn]|].
  2,3: rewrite dealCard_refused by lia; simpl; repeat split; lia.
  destruct (dealCard_dealt p w Hi Hn) as (_ & _ & _ & _ & _ & _ & _ & Er & _ & _ & En & _).
  rewrite Er, En, !arr_get_set_other by lia. repeat split; lia.
Qed.

(** [split], called as [playTurn] calls it (on a two-card hand that is not
    busted, with an untouched secondary hand), keeps the table in order. *)
Lemma split_table_ok (ID : Z) (pA pB : hid) (w w' : world) :
  (forall w0, selectPlayer ID w0 = (Some (pA, pB), w0)) -> pA <> pB ->
  table_ok w ->
  busted (hands w pA) = 0 -> rank_ok (arr_get (rank (hands w pA)) 1) ->
  opening_hand 0 (hands w pB) ->
  split ID w = Some w' ->
  table_ok w' /\ frame pA pB w w'.
Proof.
  intros Hsel Hne [Hd Hc] HbA Hr (_ & _ & HbB & _ & HvB & _) Hrun.
  destruct (HvB eq_refl) as [HvB0 HsB0].
  unfold split in Hrun. rewrite Hsel in Hrun. simpl in Hrun. injection Hrun as <-.
  set (ws := send "You split!" w).
  destruct (split_move_values pA pB ws Hne)
    as (_ & _ & _ & _ & EbA & EbB & _ & Hfr & Ei & Er & Es & _ & Hace & Hnon).
  set (m := split_move pA pB ws) in *.
  assert (HcA : hand_consistent (hands w pA)) by apply Hc.
  destruct HcA as [HsA [[_ HvA]|[HbA' _]]]; [|congruence].
  assert (Hm : table_ok m /\ handvalue (hands m pA) <> 21 /\ handvalue (hands m pB) <> 21).
  { change (hands ws) with (hands w) in *. unfold rank_ok in Hr.
    destruct (Z.eq_dec (arr_get (rank (hands w pA)) 1) 1) as [E1|E1].
    - destruct (Hace E1) as (EvA & EsA & EvB & EsB).
      split; [|lia]. split.
      + unfold deck_ok, deck_sized. rewrite Er, Es, Ei. exact Hd.
      + intros q. destruct (decide (q = pA)) as [->|HqA]; [|destruct (decide (q = pB)) as [->|HqB]].
        * unfold hand_consistent. rewrite EbA, EvA, EsA. lia.
        * unfold hand_consistent. rewrite EbB, EvB, EsB. lia.
        * rewrite Hfr by assumption. apply Hc.
    - destruct (Hnon E1) as (EvA & EsA & EvB & EsB).
      split; [|lia]. split.
      + unfold deck_ok, deck_sized. rewrite Er, Es, Ei. exact Hd.
      + intros q. destruct (decide (q = pA)) as [->|HqA]; [|destruct (decide (q = pB)) as [->|HqB]].
        * unfold hand_consistent. rewrite EbA, EvA, EsA. lia.
        * unfold hand_consistent. rewrite EbB, EvB, EsB. lia.
        * rewrite Hfr by assumption. apply Hc. }
  destruct Hm as (Hm & HmA & HmB).
  assert (Hne' : pB <> pA) by congruence.
  split.
  - apply dealCard_table_ok; [apply dealCard_table_ok; assumption|].
    rewrite dealCard_other by exact Hne'. exact HmB.
  - intros q HqA HqB. rewrite !dealCard_other by assumption.
    rewrite Hfr by assumption. reflexivity.
Qed.

(** One pass of the first loop of [playTurn] keeps [first_loop_inv]. *)
Lemma playTurn_first_body_inv (fuel : nat) (ID : Z) (pA pB : hid) (w : world)
    (s : Z * world) (c : ctl (Z * world) world) :
  (forall w0, selectPlayer ID w0 = (Some (pA, pB), w0)) -> pA <> pB ->
  first_loop_inv pA pB w s ->
  playTurn_first_body fuel ID pA s = Some c ->
  match c with
  | Continue s' => first_loop_inv pA pB w s'
  | Return r => table_ok r /\ frame pA pB w r
  end.
Proof.
  intros Hsel Hne Hinv Hrun. destruct s as [a w1].
  destruct Hinv as (Hok & Hfr & Hopen).
  assert (Hne' : pB <> pA) by congruence.
  unfold playTurn_first_body in Hrun.
  destruct ((arr_get (rank (hands w1 pA)) 0 =? arr_get (rank (hands w1 pA)) 1) && truthy a)
    eqn:Eg.
  - (* the split is offered *)
    apply split_offered_guard in Eg. destruct Eg as [Eeq Ha].
    destruct (Hopen Ha) as (_ & Hr & HB & Hb). specialize (Hb Eeq).
    cbv zeta in Hrun.
    destruct (userInput fuel (send "SPLIT? (HIT for YES) (STAY for NO)" w1))
      as [[ch w2]|] eqn:Eu; [|discriminate Hrun].
    destruct (userInput_table_ok _ _ _ _ _ Eu) as [Eh Hok2]. specialize (Hok2 Hok).
    simpl in Hrun. destruct (ch =? HIT).
    + destruct (split ID w2) as [w3|] eqn:Esp; [|discriminate Hrun].
      simpl in Hrun. injection Hrun as <-.
      destruct (split_table_ok ID pA pB w2 w3 Hsel Hne Hok2) as [Hok3 Hfr3];
        try (rewrite Eh; assumption); [exact Esp|].
      split; [exact Hok3|]. split; [|intros H; contradiction].
      intros q HqA HqB. rewrite Hfr3 by assumption. rewrite Eh. apply Hfr; assumption.
    + simpl in Hrun. injection Hrun as <-.
      split; [exact Hok2|]. split; [|intros H; contradiction].
      intros q HqA HqB. rewrite Eh. apply Hfr; assumption.
  - (* no offer *)
    assert (Hno : a <> 0 -> arr_get (rank (hands w1 pA)) 0 <> arr_get (rank (hands w1 pA)) 1).
    { intros Ha Heq. assert (split_offered pA a w1) as H by (split; assumption).
      apply split_offered_guard in H. congruence. }
    destruct (truthy (busted (hands w1 pA))).
    { injection Hrun as <-. split; [exact Hok|exact Hfr]. }
    destruct (Z.eqb_spec (handvalue (hands w1 pA)) 21) as [E21|E21].
    { injection Hrun as <-. split; [exact Hok|exact Hfr]. }
    cbv zeta in Hrun.
    destruct (userInput fuel (send "HIT or STAY?" w1)) as [[choice w2]|] eqn:Eu;
      [|discriminate Hrun].
    destruct (userInput_table_ok _ _ _ _ _ Eu) as [Eh Hok2]. specialize (Hok2 Hok).
    simpl in Hrun.
    destruct (choice =? HIT); [|destruct (choice =? STAY)]; injection Hrun as <-.
    + set (wh := send "You hit!" w2).
      assert (Ehh : hands wh = hands w1) by exact Eh.
      split; [|split].
      * apply dealCard_table_ok; [exact Hok2|]. rewrite Ehh. exact E21.
      * intros q HqA HqB. rewrite dealCard_other by exact HqA. rewrite Ehh.
        apply Hfr; assumption.
      * intros Ha. destruct (Hopen Ha) as (H2 & Hr & HB & _).
        destruct (dealCard_keeps_first_two pA wh) as (H2' & E0 & E1);
          [rewrite Ehh; exact H2|].
        rewrite E0, E1, (dealCard_other pA pB wh Hne'), Ehh.
        split; [exact H2'|]. split; [exact Hr|]. split; [exact HB|].
        intros Heq. exfalso. apply (Hno Ha Heq).
    + split; [exact Hok2|]. intros q HqA HqB. simpl. rewrite Eh. apply Hfr; assumption.
    + split; [exact Hok2|]. intros q HqA HqB. simpl. rewrite Eh. apply Hfr; assumption.
Qed.

(** One pass of the second loop of [playTurn]. *)
Lemma playTurn_second_body_inv (fuel : nat) (pA pB : hid) (w w1 : world)
    (c : ctl world world) :
  table_ok w1 /\ frame pA pB w w1 ->
  playTurn_second_body fuel pB w1 = Some c ->
  match c with
  | Continue w2 => table_ok w2 /\ frame pA pB w w2
  | Return r => table_ok r /\ frame pA pB w r
  end.
Proof.
  intros [Hok Hfr] Hrun. unfold playTurn_second_body in Hrun.
  destruct (truthy (busted (hands w1 pB))).
  { injection Hrun as <-. split; [exact Hok|exact Hfr]. }
  destruct (Z.eqb_spec (handvalue (hands w1 pB)) 21) as [E21|E21].
  { injection Hrun as <-. split; [exact Hok|exact Hfr]. }
  cbv zeta in Hrun.
  destruct (userInput fuel (send "HIT or STAY?" w1)) as [[choice w2]|] eqn:Eu;
    [|discriminate Hrun].
  destruct (userInput_table_ok _ _ _ _ _ Eu) as [Eh Hok2]. specialize (Hok2 Hok).
  simpl in Hrun.
  destruct (choice =? HIT); [|destruct (choice =? STAY)]; injection Hrun as <-.
  - set (wh := send "You hit!" w2).
    assert (Ehh : hands wh = hands w1) by exact Eh.
    split.
    + apply dealCard_table_ok; [exact Hok2|]. rewrite Ehh. exact E21.
    + intros q HqA HqB. rewrite dealCard_other by exact HqB. rewrite Ehh.
      apply Hfr; assumption.
  - split; [exact Hok2|]. intros q HqA HqB. simpl. rewrite Eh. apply Hfr; assumption.
  - split; [exact Hok2|]. intros q HqA HqB. simpl. rewrite Eh. apply Hfr; assumption.
Qed.

(** The turn of a fresh seat keeps the table in order and touches no hand
    of another seat. *)
Lemma playTurn_table_ok (fuel : nat) (ID : Z) (pA pB : hid) (w w' : world) :
  (forall w0, selectPlayer ID w0 = (Some (pA, pB), w0)) -> pA <> pB ->
  table_ok w -> seat_fresh pA pB w ->
  playTurn fuel ID w = Some w' ->
  table_ok w' /\ frame pA pB w w'.
Proof.
  intros Hsel Hne Hok [HA HB] Hrun. unfold playTurn in Hrun.
  rewrite Hsel in Hrun. simpl in Hrun.
  destruct (while_loop fuel (playTurn_first_body fuel ID pA) (1, w)) as [w1|] eqn:E1;
    [|discriminate Hrun]. simpl in Hrun.
  assert (H1 : table_ok w1 /\ frame pA pB w w1).
  { apply (while_loop_inv (first_loop_inv pA pB w)
             (fun r => table_ok r /\ frame pA pB w r)
             (playTurn_first_body fuel ID pA)) with (n := fuel) (s := (1, w));
      [|split; [exact Hok|split]|exact E1].
    - intros s c Hs Hb. exact (playTurn_first_body_inv fuel ID pA pB w s c Hsel Hne Hs Hb).
    - intros q _ _. reflexivity.
    - intros _. destruct HA as (_ & En & Eb & _ & _ & _ & H2). destruct (H2 eq_refl) as [_ Hr].
      split; [lia|]. split; [exact Hr|]. split; [exact HB|]. intros _. exact Eb. }
  assert (H2 : table_ok w' /\ frame pA pB w w').
  { destruct (truthy (empty (hands w1 pB))).
    - injection Hrun as <-. exact H1.
    - apply (while_loop_inv (fun w2 => table_ok w2 /\ frame pA pB w w2)
               (fun r => table_ok r /\ frame pA pB w r)
               (playTurn_second_body fuel pB)) with (n := fuel) (s := w1);
        [|exact H1|exact Hrun].
      intros s c Hs Hb. exact (playTurn_second_body_inv fuel pA pB w s c Hs Hb). }
  exact H2.
Qed.

(** The dealer's turn keeps the table in order. *)
Lemma dealerTurn_table_ok (n : nat) (w w' : world) :
  table_ok w -> dealerTurn n w = Some w' -> table_ok w'.
Proof.
  unfold dealerTurn. intros Hok.
  apply (while_loop_inv table_ok table_ok dealer_body); [|exact Hok].
  intros s c Hs Hb.
  destruct (dealer_body_cases s) as [[Hd E]|(_ & _ & msg & E)]; rewrite E in Hb;
    injection Hb as <-; [|exact Hs].
  apply dealCard_table_ok; [exact Hs|].
  destruct Hd as [_ [Hlt|[H17 _]]]; simpl; lia.
Qed.

Lemma opening_hand_consistent (k : Z) (h : hand) :
  k = 0 \/ k = 2 -> opening_hand k h -> hand_consistent h.
Proof.
  intros Hk (_ & _ & Hb & Hs & H0 & _ & H2). split; [exact Hs|]. left.
  split; [exact Hb|]. destruct Hk as [->| ->].
  - destruct (H0 eq_refl) as [-> _]. lia.
  - apply (H2 eq_refl).
Qed.

(** Turning the dealer's first card over changes no value and no flag. *)
Lemma faceDown_table (v : Z) (w : world) :
  let w' := upd_hand dealer (fun h => set_isFaceDown (arr_set (isFaceDown h) 0 v) h) w in
  (table_ok w -> table_ok w') /\
  (forall pA pB, pA <> dealer -> pB <> dealer -> seat_fresh pA pB w -> seat_fresh pA pB w').
Proof.
  intros w'. split.
  - intros [Hd Hc]. split; [exact Hd|]. intros q. subst w'.
    destruct (decide (q = dealer)) as [->|Hq].
    + rewrite upd_hand_same. exact (Hc dealer).
    + rewrite upd_hand_other by exact Hq. apply Hc.
  - intros pA pB HA HB [H1 H2]. subst w'. unfold seat_fresh.
    rewrite !upd_hand_other by assumption. split; assumption.
Qed.

Lemma seat_fresh_frame (pA pB qA qB : hid) (w w' : world) :
  frame qA qB w w' -> pA <> qA -> pA <> qB -> pB <> qA -> pB <> qB ->
  seat_fresh pA pB w -> seat_fresh pA pB w'.
Proof.
  intros Hfr H1 H2 H3 H4 [HA HB]. unfold seat_fresh.
  rewrite !Hfr by assumption. split; assumption.
Qed.

(** In every round the flags of every hand agree with its value when the
    dealer's turn is over. *)
Lemma round_play_table_ok (fuel : nat) (w w' : world) :
  round_ready w -> round_play fuel w = Some w' -> table_ok w'.
Proof.
  intros Hready Hrun. unfold round_play in Hrun.
  destruct (newRound_opening w Hready) as (Hd0 & Hi0 & _ & Hh0).
  assert (Hop : opening 0 (fun _ => 0) (newRound w)) by (split; [exact Hd0|split; [exact Hi0|exact Hh0]]).
  destruct (opening_deal_fresh _ Hop) as (Hd & _ & F1 & F2 & F3 & F4 & HD).
  set (w2 := opening_deal (newRound w)) in *.
  assert (Hok2 : table_ok w2).
  { split; [exact Hd|]. intros q.
    destruct q;
      first [ apply (opening_hand_consistent 2); [right; reflexivity|];
              first [apply F1|apply F2|apply F3|apply F4|exact HD]
            | apply (opening_hand_consistent 0); [left; reflexivity|];
              first [apply F1|apply F2|apply F3|apply F4] ]. }
  cbv zeta in Hrun.
  destruct (faceDown_table 1 w2) as [Hok3 Hfresh3].
  set (w3 := upd_hand dealer _ w2) in *.
  specialize (Hok3 Hok2).
  apply (Hfresh3 p1a p1b) in F1; try discriminate.
  apply (Hfresh3 p2a p2b) in F2; try discriminate.
  apply (Hfresh3 p3a p3b) in F3; try discriminate.
  apply (Hfresh3 p4a p4b) in F4; try discriminate.
  destruct (playTurn fuel P1 w3) as [w4|] eqn:E1; [|discriminate Hrun]. simpl in Hrun.
  destruct (playTurn_table_ok fuel P1 p1a p1b w3 w4) as [Hok4 Hfr4];
    try assumption; try reflexivity; try discriminate.
  apply (seat_fresh_frame p2a p2b _ _ _ _ Hfr4) in F2; try discriminate.
  apply (seat_fresh_frame p3a p3b _ _ _ _ Hfr4) in F3; try discriminate.
  apply (seat_fresh_frame p4a p4b _ _ _ _ Hfr4) in F4; try discriminate.
  destruct (playTurn fuel P2 w4) as [w5|] eqn:E2; [|discriminate Hrun]. simpl in Hrun.
  destruct (playTurn_table_ok fuel P2 p2a p2b w4 w5) as [Hok5 Hfr5];
    try assumption; try reflexivity; try discriminate.
  apply (seat_fresh_frame p3a p3b _ _ _ _ Hfr5) in F3; try discriminate.
  apply (seat_fresh_frame p4a p4b _ _ _ _ Hfr5) in F4; try discriminate.
  destruct (playTurn fuel P3 w5) as [w6|] eqn:E3; [|discriminate Hrun]. simpl in Hrun.
  destruct (playTurn_table_ok fuel P3 p3a p3b w5 w6) as [Hok6 Hfr6];
    try assumption; try reflexivity; try discriminate.
  apply (seat_fresh_frame p4a p4b _ _ _ _ Hfr6) in F4; try discriminate.
  destruct (playTurn fuel P4 w6) as [w7|] eqn:E4; [|discriminate Hrun]. simpl in Hrun.
  destruct (playTurn_table_ok fuel P4 p4a p4b w6 w7) as [Hok7 Hfr7];
    try assumption; try reflexivity; try discriminate.
  destruct (faceDown_table 0 w7) as [Hok8 _].
  apply (dealerTurn_table_ok fuel _ w' (Hok8 Hok7) Hrun).
Qed.

(** ** The results *)

(** The verdict on a hand, read off the [if] chain of [dispResults]. *)
Lemma result_text_cases (p d : hand) :
  (busted p <> 0 -> Lost p d) /\
  (busted p = 0 -> busted d = 0 ->
     (Won p d <-> handvalue p > handvalue d) /\
     (Pushed p d <-> handvalue p = handvalue d) /\
     (Lost p d <-> handvalue p < handvalue d)) /\
  (busted p = 0 -> busted d <> 0 -> handvalue p <> handvalue d -> Won p d).
Proof.
  unfold Won, Lost, Pushed, result_text.
  split; [|split].
  - intros Hb. apply truthy_true in Hb. rewrite Hb. reflexivity.
  - intros Hp Hd. apply truthy_false in Hp, Hd. rewrite Hp, Hd. simpl.
    destruct (Z.eqb_spec (handvalue p) (handvalue d));
      [|destruct (Z.ltb_spec (handvalue p) (handvalue d)); simpl;
        [|destruct (Z.gtb_spec (handvalue p) (handvalue d)); simpl]];
      (split; [|split]); split; intros Hx; try discriminate Hx; try lia; reflexivity.
  - intros Hp Hd Hne. apply truthy_false in Hp. apply truthy_true in Hd. rewrite Hp, Hd.
    destruct (Z.eqb_spec (handvalue p) (handvalue d)); [contradiction|].
    rewrite andb_false_r, orb_true_r. reflexivity.
Qed.

Lemma dispResults_seat_out (ID : Z) (pA pB : hid) (w : world) :
  (forall w0, selectPlayer ID w0 = (Some (pA, pB), w0)) ->
  exists w', dispResults_seat ID w = Some w' /\
             out w' = out w ++ seat_lines pA pB w /\ hands w' = hands w /\
             rankG w' = rankG w /\ suitG w' = suitG w /\ indexG w' = indexG w /\
             rnd w' = rnd w.
Proof.
  intros Hsel. unfold dispResults_seat, seat_lines. rewrite Hsel. simpl.
  destruct (truthy (empty (hands w pB))); simpl;
    (eexists; split; [reflexivity|]); simpl; rewrite <- ?app_assoc;
    (split; [reflexivity|]); (split; [reflexivity|]); repeat split.
Qed.

(** [dispResults] sends, after the dealer's line, the verdicts of the four
    seats on the hands as the dealer's turn left them. *)
Lemma dispResults_out (w : world) :
  exists w',
    dispResults w = Some w' /\
    out w' = out w ++
      [if truthy (busted (hands w dealer)) then "Dealer BUSTED!" else "Dealer stays with "] ++
      seat_lines p1a p1b w ++ seat_lines p2a p2b w ++
      seat_lines p3a p3b w ++ seat_lines p4a p4b w /\
    hands w' =
      hands (upd_hand dealer (fun h => set_isFaceDown (arr_set (isFaceDown h) 0 0) h) w) /\
    rankG w' = rankG w /\ suitG w' = suitG w /\ rnd w' = rnd w.
Proof.
  unfold dispResults.
  set (w0 := upd_hand dealer _ w).
  set (w1 := if truthy (busted (hands w0 dealer)) then _ else _).
  assert (Hl : forall pA pB, pA <> dealer -> pB <> dealer ->
                             seat_lines pA pB w1 = seat_lines pA pB w).
  { intros pA pB HA HB. unfold seat_lines, w1.
    destruct (truthy (busted (hands w0 dealer)));
      change (hands (send _ w0)) with (hands w0); unfold w0;
      rewrite !(upd_hand_other dealer pA), !(upd_hand_other dealer pB) by assumption;
      rewrite upd_hand_same; reflexivity. }
  assert (Ho : out w1 = out w ++
      [if truthy (busted (hands w dealer)) then "Dealer BUSTED!" else "Dealer stays with "]).
  { unfold w1, w0. rewrite upd_hand_same. simpl.
    destruct (truthy (busted (hands w dealer))); reflexivity. }
  destruct (dispResults_seat_out P1 p1a p1b w1 ltac:(reflexivity))
    as (w2 & -> & Ho2 & Eh2 & Er2 & Es2 & _ & En2).
  destruct (dispResults_seat_out P2 p2a p2b w2 ltac:(reflexivity))
    as (w3 & E3 & Ho3 & Eh3 & Er3 & Es3 & _ & En3).
  destruct (dispResults_seat_out P3 p3a p3b w3 ltac:(reflexivity))
    as (w4 & E4 & Ho4 & Eh4 & Er4 & Es4 & _ & En4).
  destruct (dispResults_seat_out P4 p4a p4b w4 ltac:(reflexivity))
    as (w5 & E5 & Ho5 & Eh5 & Er5 & Es5 & _ & En5).
  exists w5. simpl. rewrite E3. simpl. rewrite E4. simpl. split; [exact E5|].
  split; cycle 1.
  { assert (Er1 : hands w1 = hands w0 /\ rankG w1 = rankG w /\ suitG w1 = suitG w /\
                  rnd w1 = rnd w).
    { unfold w1. destruct (truthy (busted (hands w0 dealer))); repeat split. }
    destruct Er1 as (Eh1 & Er1 & Es1 & En1).
    rewrite Er5, Er4, Er3, Er2, Er1, Es5, Es4, Es3, Es2, Es1, En5, En4, En3, En2, En1.
    rewrite Eh5, Eh4, Eh3, Eh2, Eh1. repeat split. }
  assert (Hx : forall pA pB w' w'', hands w'' = hands w' ->
                              seat_lines pA pB w'' = seat_lines pA pB w').
  { intros pA pB w' w'' E. unfold seat_lines. rewrite E. reflexivity. }
  rewrite Ho5, Ho4, Ho3, Ho2, Ho.
  rewrite (Hx p4a p4b w1 w4) by congruence.
  rewrite (Hx p3a p3b w1 w3) by congruence.
  rewrite (Hx p2a p2b w1 w2) by congruence.
  rewrite !Hl by discriminate. rewrite <- !app_assoc. reflexivity.
Qed.

(** C2.  In every round, when the dealer's turn is over, the verdict
    [dispResults] sends for a hand is: [Lost] for a busted hand, whatever the
    dealer's value; for a hand that is not busted against a dealer who is
    not busted, [Won] iff V > D, [Pushed] iff V = D, [Lost] iff V < D; and
    [Won] for a hand that is not busted when the dealer busted.  These
    verdicts are what [dispResults] sends, seat by seat. *)
Theorem outcome_resolution (fuel : nat) (w w' : world) (p : hid) :
  round_ready w -> round_play fuel w = Some w' ->
  let h := hands w' p in
  let d := hands w' dealer in
  (busted h <> 0 -> Lost h d) /\
  (busted h = 0 -> busted d = 0 ->
     (Won h d <-> handvalue h > handvalue d) /\
     (Pushed h d <-> handvalue h = handvalue d) /\
     (Lost h d <-> handvalue h < handvalue d)) /\
  (busted h = 0 -> busted d <> 0 -> Won h d) /\
  (exists w'', round fuel w = Some w'' /\
     out w'' = out w' ++
       [if truthy (busted d) then "Dealer BUSTED!" else "Dealer stays with "] ++
       seat_lines p1a p1b w' ++ seat_lines p2a p2b w' ++
       seat_lines p3a p3b w' ++ seat_lines p4a p4b w').
Proof.
  intros Hready Hrun h d.
  destruct (round_play_table_ok fuel w w' Hready Hrun) as [_ Hc].
  destruct (result_text_cases h d) as (H1 & H2 & H3).
  split; [exact H1|]. split; [exact H2|]. split.
  - intros Hp Hd. apply H3; [exact Hp|exact Hd|].
    destruct (Hc p) as [_ [[_ Hv]|[Hb _]]]; [|subst h; congruence].
    destruct (Hc dealer) as [_ [[Hb _]|[_ [Hv' _]]]]; [subst d; congruence|].
    subst h d. lia.
  - destruct (dispResults_out w') as (w'' & E & Ho & _).
    exists w''. split; [|exact Ho]. unfold round. rewrite Hrun. exact E.
Qed.

Lemma outcome_resolution_witness :
  round_ready first_night /\
  exists w', round_play classifications first_night = Some w' /\
    handvalue (hands w' p1a) = 17 /\ handvalue (hands w' dealer) = 19 /\
    Lost (hands w' p1a) (hands w' dealer) /\ Lost (hands w' p3a) (hands w' dealer).
Proof.
  assert (Hr : round_ready first_night).
  { split; [split; reflexivity|]. split; [apply (bool_decide_unpack _); vm_compute; reflexivity|].
    split; [intros p; repeat split|].
    apply (bool_decide_unpack _). vm_compute. reflexivity. }
  split; [exact Hr|].
  destruct (round_play classifications first_night) as [w'|] eqn:E;
    [|exfalso; vm_compute in E; discriminate E].
  exists w'. split; [reflexivity|].
  destruct (outcome_resolution classifications first_night w' p1a Hr E) as (_ & H1 & _).
  destruct (outcome_resolution classifications first_night w' p3a Hr E) as (H3 & _).
  assert (Hv : handvalue (hands w' p1a) = 17 /\ handvalue (hands w' dealer) = 19 /\
               busted (hands w' p1a) = 0 /\ busted (hands w' dealer) = 0 /\
               busted (hands w' p3a) = 1).
  { clear H1 H3. vm_compute in E. injection E as <-. vm_compute. repeat split. }
  destruct Hv as (E1 & Ed & B1 & Bd & B3).
  split; [exact E1|]. split; [exact Ed|]. split.
  - apply (H1 B1 Bd). rewrite E1, Ed. reflexivity.
  - apply H3. rewrite B3. discriminate.
Defined.

(** ** From one round to the next *)

Lemma table_sized_ext (w w1 : world) :
  hands w1 = hands w -> rnd w1 = rnd w -> table_sized w -> table_sized w1.
Proof. intros Eh Er [H1 H2]. unfold table_sized. rewrite Eh, Er. split; assumption. Qed.

Lemma upd_hand_sized (p : hid) (f : hand -> hand) (w : world) :
  (forall h, hand_sized h -> hand_sized (f h)) ->
  table_sized w -> table_sized (upd_hand p f w).
Proof.
  intros Hf [Hh Hr]. split; [|exact Hr]. intros q.
  destruct (decide (q = p)) as [->|Hq].
  - rewrite upd_hand_same. apply Hf, Hh.
  - rewrite upd_hand_other by exact Hq. apply Hh.
Qed.

Lemma dealCard_sized (p : hid) (w : world) : table_sized w -> table_sized (dealCard p w).
Proof.
  intros [Hh Hr].
  destruct (Z_lt_le_dec (indexG w) SINGLEDECK) as [Hi|Hi];
    [destruct (Z_lt_le_dec (handsize (hands w p)) MAXHAND) as [Hn|Hn]|].
  2,3: rewrite dealCard_refused by lia; split; assumption.
  destruct (dealCard_dealt p w Hi Hn)
    as (_ & _ & _ & _ & Ernd & _ & Hother & Er & Es & Ef & _).
  split; [|rewrite Ernd; exact Hr]. intros q.
  destruct (decide (q = p)) as [->|Hq]; [|rewrite Hother by exact Hq; apply Hh].
  destruct (Hh p) as (H1 & H2 & H3).
  unfold hand_sized. rewrite Er, Es, Ef, !arr_set_length. repeat split; assumption.
Qed.

Lemma split_move_sized (pA pB : hid) (w : world) :
  table_sized w -> table_sized (split_move pA pB w).
Proof.
  intros H. unfold split_move.
  assert (Hs : forall v h, hand_sized h -> hand_sized (set_soft v h)) by (intros; assumption).
  assert (Hv : forall v h, hand_sized h -> hand_sized (set_handvalue v h)) by (intros; assumption).
  destruct (_ =? 1);
    repeat first
      [ apply upd_hand_sized;
        [ intros h (H1 & H2 & H3); unfold hand_sized; simpl;
          rewrite ?arr_set_length; repeat split; assumption | ]
      | exact H ].
Qed.

Lemma split_sized (ID : Z) (w w' : world) :
  table_sized w -> split ID w = Some w' -> table_sized w'.
Proof.
  intros H. unfold split, selectPlayer.
  repeat (destruct (ID =? _); simpl;
          [intros [= <-]; apply dealCard_sized, dealCard_sized, split_move_sized; exact H|]);
    discriminate.
Qed.

Lemma userInput_sized (fuel : nat) (s : string) (w w1 : world) (a : Z) :
  userInput fuel (send s w) = Some (a, w1) -> table_sized w -> table_sized w1.
Proof.
  intros H. destruct (userInput_frame _ _ _ _ H) as (Eh & _ & _ & _ & _ & Er).
  apply table_sized_ext; assumption.
Qed.

Lemma playTurn_sized (fuel : nat) (ID : Z) (w w' : world) :
  table_sized w -> playTurn fuel ID w = Some w' -> table_sized w'.
Proof.
  intros Hs Hrun. unfold playTurn in Hrun.
  destruct (selectPlayer ID w) as [[[pA pB]|] w0] eqn:Esel; [|discriminate Hrun].
  assert (Hs0 : table_sized w0).
  { unfold selectPlayer in Esel.
    repeat (destruct (ID =? _); [injection Esel as _ _ <-; exact Hs|]).
    destruct (ID =? DEALER); discriminate Esel. }
  simpl in Hrun.
  destruct (while_loop fuel (playTurn_first_body fuel ID pA) (1, w0)) as [w1|] eqn:E1;
    [|discriminate Hrun]. simpl in Hrun.
  assert (H1 : table_sized w1).
  { apply (while_loop_inv (fun s => table_sized (snd s)) table_sized
             (playTurn_first_body fuel ID pA)) with (n := fuel) (s := (1, w0));
      [|exact Hs0|exact E1].
    intros [a v] c Hv Hb. simpl in Hv. unfold playTurn_first_body in Hb.
    destruct (_ && _).
    - cbv zeta in Hb. destruct (userInput _ _) as [[ch v2]|] eqn:Eu; [|discriminate Hb].
      pose proof (userInput_sized _ _ _ _ _ Eu Hv) as Hv2. simpl in Hb.
      destruct (ch =? HIT).
      + destruct (split ID v2) as [v3|] eqn:Esp; [|discriminate Hb].
        simpl in Hb. injection Hb as <-. exact (split_sized _ _ _ Hv2 Esp).
      + simpl in Hb. injection Hb as <-. exact Hv2.
    - destruct (truthy (busted (hands v pA))); [injection Hb as <-; exact Hv|].
      destruct (handvalue (hands v pA) =? 21); [injection Hb as <-; exact Hv|].
      cbv zeta in Hb. destruct (userInput _ _) as [[ch v2]|] eqn:Eu; [|discriminate Hb].
      pose proof (userInput_sized _ _ _ _ _ Eu Hv) as Hv2. simpl in Hb.
      destruct (ch =? HIT); [|destruct (ch =? STAY)]; injection Hb as <-; simpl;
        [apply dealCard_sized| |]; exact Hv2. }
  destruct (truthy (empty (hands w1 pB))); [injection Hrun as <-; exact H1|].
  apply (while_loop_inv table_sized table_sized (playTurn_second_body fuel pB))
    with (n := fuel) (s := w1); [|exact H1|exact Hrun].
  intros v c Hv Hb. unfold playTurn_second_body in Hb.
  destruct (truthy (busted (hands v pB))); [injection Hb as <-; exact Hv|].
  destruct (handvalue (hands v pB) =? 21); [injection Hb as <-; exact Hv|].
  cbv zeta in Hb. destruct (userInput _ _) as [[ch v2]|] eqn:Eu; [|discriminate Hb].
  pose proof (userInput_sized _ _ _ _ _ Eu Hv) as Hv2. simpl in Hb.
  destruct (ch =? HIT); [|destruct (ch =? STAY)]; injection Hb as <-;
    [apply dealCard_sized| |]; exact Hv2.
Qed.

Lemma dealerTurn_sized (n : nat) (w w' : world) :
  table_sized w -> dealerTurn n w = Some w' -> table_sized w'.
Proof.
  unfold dealerTurn. intros Hs.
  apply (while_loop_inv table_sized table_sized dealer_body); [|exact Hs].
  intros s c Hv Hb.
  destruct (dealer_body_cases s) as [[_ E]|(_ & _ & msg & E)]; rewrite E in Hb;
    injection Hb as <-; [apply dealCard_sized|]; exact Hv.
Qed.

Lemma faceDown_sized (v : Z) (w : world) :
  table_sized w ->
  table_sized (upd_hand dealer (fun h => set_isFaceDown (arr_set (isFaceDown h) 0 v) h) w).
Proof.
  intros H. apply upd_hand_sized; [|exact H].
  intros h (H1 & H2 & H3). unfold hand_sized. simpl.
  rewrite arr_set_length. repeat split; assumption.
Qed.

Lemma round_play_sized (fuel : nat) (w w' : world) :
  round_ready w -> round_play fuel w = Some w' -> table_sized w'.
Proof.
  intros Hready Hrun. unfold round_play in Hrun.
  destruct (newRound_opening w Hready) as (_ & _ & Hrnd & Hh0).
  assert (Hs0 : table_sized (newRound w)) by (split; [intros p; apply (Hh0 p)|exact Hrnd]).
  assert (Hs2 : table_sized (opening_deal (newRound w))).
  { unfold opening_deal. rewrite !for_loop_S. change (for_loop 0 ?b ?s) with s.
    cbv beta zeta. repeat apply dealCard_sized. exact Hs0. }
  cbv zeta in Hrun.
  pose proof (faceDown_sized 1 _ Hs2) as Hs3.
  destruct (playTurn fuel P1 _) as [w4|] eqn:E1; [|discriminate Hrun]. simpl in Hrun.
  pose proof (playTurn_sized _ _ _ _ Hs3 E1) as Hs4.
  destruct (playTurn fuel P2 w4) as [w5|] eqn:E2; [|discriminate Hrun]. simpl in Hrun.
  pose proof (playTurn_sized _ _ _ _ Hs4 E2) as Hs5.
  destruct (playTurn fuel P3 w5) as [w6|] eqn:E3; [|discriminate Hrun]. simpl in Hrun.
  pose proof (playTurn_sized _ _ _ _ Hs5 E3) as Hs6.
  destruct (playTurn fuel P4 w6) as [w7|] eqn:E4; [|discriminate Hrun]. simpl in Hrun.
  pose proof (playTurn_sized _ _ _ _ Hs6 E4) as Hs7.
  exact (dealerTurn_sized _ _ _ (faceDown_sized 0 _ Hs7) Hrun).
Qed.

(** A round hands to the next one what it was handed itself. *)
Lemma round_ready_next (fuel : nat) (w w' : world) :
  round_ready w -> round fuel w = Some w' -> round_ready w'.
Proof.
  intros Hready Hrun. unfold round in Hrun.
  destruct (round_play fuel w) as [w1|] eqn:E; [|discriminate Hrun]. simpl in Hrun.
  destruct (round_play_table_ok _ _ _ Hready E) as [([Hl1 Hl2] & Hrk & _) _].
  destruct (round_play_sized _ _ _ Hready E) as [Hh Hrn].
  destruct (dispResults_out w1) as (w2 & E2 & _ & Eh & Er & Es & En).
  rewrite E2 in Hrun. injection Hrun as <-.
  destruct (faceDown_sized 0 w1 (conj Hh Hrn)) as [Hh' _].
  unfold round_ready, deck_sized. rewrite Eh, Er, Es, En.
  split; [split; assumption|]. split; [exact Hrk|]. split; assumption.
Qed.

(** Every round of [main] starts from a deck of playing cards and from
    hand arrays of the declared size. *)
Lemma main_rounds_ready (n fuel : nat) (rs : list Z) (ds : list Q) (w : world) :
  Forall (fun r => 0 <= r) rs ->
  rounds n fuel (initDeck (boot rs ds)) = Some w -> round_ready w.
Proof.
  intros Hrs.
  assert (H0 : round_ready (initDeck (boot rs ds))).
  { split; [split; reflexivity|]. split; [apply (bool_decide_unpack _); vm_compute; reflexivity|].
    split; [intros p; repeat split|exact Hrs]. }
  revert H0. generalize (initDeck (boot rs ds)). induction n as [|n IH]; intros w0 H0 Hrun.
  - injection Hrun as <-. exact H0.
  - simpl in Hrun. destruct (round fuel w0) as [w1|] eqn:E; [|discriminate Hrun].
    simpl in Hrun. apply (IH w1); [|exact Hrun]. exact (round_ready_next _ _ _ H0 E).
Qed.

(** ** Ranges *)

(** X16.  The integers of a hand stay small, whatever cards are dealt to
    it from [emptyHand] on and whether a deal is refused or not: [handsize]
    is within 0..MAXHAND, [soft] within 0..handsize, [handvalue] within
    0..11 * handsize and [busted] is 0 or 1, so that no 16-bit [int] of a
    hand overflows. *)
Lemma dealt_hand_bounds (h : hand) :
  dealt_hand h ->
  0 <= handsize h <= MAXHAND /\ 0 <= soft h <= handsize h /\
  0 <= handvalue h <= 11 * handsize h /\ (busted h = 0 \/ busted h = 1).
Proof.
  induction 1 as [p w|p w _ IH Hr].
  - destruct (emptyHand_fields p w) as (-> & -> & -> & -> & _). unfold MAXHAND. lia.
  - destruct (Z_lt_le_dec (indexG w) SINGLEDECK) as [Hi|Hi];
      [destruct (Z_lt_le_dec (handsize (hands w p)) MAXHAND) as [Hn|Hn]|].
    2,3: rewrite dealCard_refused by lia; exact IH.
    destruct (dealCard_dealt p w Hi Hn)
      as (_ & _ & _ & _ & _ & _ & _ & _ & _ & _ & En & _ & Hle & Hdem & Hbust).
    revert Hle Hdem Hbust. unfold next_card, rank_ok in Hr. simpl in Hr.
    set (r := arr_get (rankG w) (indexG w)) in *.
    set (h' := hands (dealCard p w) p) in *. set (h := hands w p) in *.
    set (pts := if r =? 1 then 11 else if (10 <=? r) && (r <=? 13) then 10 else r).
    set (sft := if r =? 1 then soft h + 1 else soft h).
    assert (Hpts : 1 <= pts <= 11 /\ soft h <= sft <= soft h + 1).
    { subst pts sft.
      destruct (Z.eqb_spec r 1); [|destruct (Z.leb_spec 10 r), (Z.leb_spec r 13); simpl]; lia. }
    clearbody pts sft. intros Hle Hdem Hbust. rewrite En.
    destruct (Z_le_gt_dec (handvalue h + pts) 21) as [Hv|Hv];
      [destruct (Hle Hv) as (-> & -> & ->); lia|].
    destruct (Z_lt_le_dec 0 sft) as [Hp|Hp];
      [destruct (Hdem ltac:(lia) Hp) as (-> & -> & ->)
      |destruct (Hbust ltac:(lia) Hp) as (-> & -> & ->)]; lia.
Qed.

Lemma dealt_hand_bounds_witness :
  let h := hands hard_21 p1a in
  handsize h = 3 /\ 0 <= handvalue h <= 11 * handsize h /\ 0 <= soft h <= handsize h.
Proof.
  intros h. split; [vm_compute; reflexivity|].
  destruct (dealt_hand_bounds h) as (_ & Hs & Hv & _); [|split; assumption].
  subst h. unfold hard_21.
  set (w2 := Nat.iter 2 (dealCard p1a) (Nat.iter 4 (dealCard p2a) fresh_table)).
  cbn [Nat.iter nat_rect]; rewrite !dealCard_other by discriminate.
  apply dealt_card; [|vm_compute; split; discriminate].
  cbn [Nat.iter nat_rect]; rewrite !dealCard_other by discriminate.
  subst w2. cbn [Nat.iter nat_rect].
  apply dealt_card; [|vm_compute; split; discriminate].
  apply dealt_card; [|vm_compute; split; discriminate].
  cbn [Nat.iter nat_rect]; rewrite !dealCard_other by discriminate.
  unfold fresh_table. unfold emptyHand at 1. rewrite set_hand_other by discriminate.
  apply dealt_empty.
Defined.

(** ** The dealer and a deck of 52 playing cards *)

Lemma upcoming_hard_sum (k : nat) (ranks : list Z) (i : Z) :
  0 <= i -> (Z.to_nat i + k <= length ranks)%nat ->
  upcoming k ranks i = hard_sum (take k (drop (Z.to_nat i) ranks)).
Proof.
  revert i. induction k as [|k IH]; intros i Hi Hlen; [reflexivity|].
  cbn [upcoming].
  destruct (lookup_lt_is_Some_2 ranks (Z.to_nat i) ltac:(lia)) as [x Hx].
  rewrite (drop_S _ _ _ Hx). cbn [take hard_sum foldr].
  rewrite IH by lia. replace (Z.to_nat (i + 1)) with (S (Z.to_nat i)) by lia.
  unfold arr_get. replace (0 <=? i) with true by (symmetry; apply Z.leb_le; lia).
  rewrite (list_lookup_total_correct _ _ _ Hx). reflexivity.
Qed.

(** Only Aces count 1 and only twos count 2. *)
Lemma hard_sum_lower (l : list Z) :
  Forall rank_ok l ->
  3 * Z.of_nat (length l) <=
    hard_sum l + 2 * Z.of_nat (length (filter (fun r => r = 1) l))
               + Z.of_nat (length (filter (fun r => r = 2) l)).
Proof.
  induction 1 as [|x l Hx _ IH]; [reflexivity|].
  rewrite !filter_cons. cbn [hard_sum foldr length].
  change (foldr (fun r s => hard_value r + s) 0 l) with (hard_sum l).
  unfold rank_ok in Hx. unfold hard_value.
  destruct (decide (x = 1)), (decide (x = 2)); try lia;
    destruct (Z.eqb_spec x 1); try lia;
    destruct (Z.leb_spec 10 x), (Z.leb_spec x 13); cbn [andb length]; lia.
Qed.

Lemma filter_take_drop_length (P : Z -> Prop) `{forall x, Decision (P x)}
    (l : list Z) (n k : nat) :
  (length (filter P (take k (drop n l))) <= length (filter P l))%nat.
Proof.
  rewrite <- (take_drop n l) at 2. rewrite <- (take_drop k (drop n l)) at 2.
  rewrite !filter_app, !length_app. lia.
Qed.

(** Any ten cards in a row of a deck of 52 playing cards count at least 18. *)
Lemma upcoming_standard_deck (w : world) :
  cards w ≡ₚ standard_deck -> deck_sized w -> 0 <= indexG w <= 42 ->
  18 <= upcoming 10 (rankG w) (indexG w).
Proof.
  intros Hperm Hsz Hi.
  assert (Hr : rankG w ≡ₚ standard_deck.*1).
  { rewrite <- (fst_cards w Hsz). rewrite Hperm. reflexivity. }
  destruct Hsz as [Hl _]. change (Z.to_nat SINGLEDECK) with 52%nat in Hl.
  rewrite upcoming_hard_sum by lia.
  set (l := take 10 (drop (Z.to_nat (indexG w)) (rankG w))).
  assert (Hlen : length l = 10%nat).
  { unfold l. rewrite length_take, length_drop. lia. }
  assert (Hok : Forall rank_ok l).
  { unfold l. apply Forall_take, Forall_drop. rewrite Hr.
    apply (bool_decide_unpack _). vm_compute. reflexivity. }
  assert (H1 : (length (filter (fun r : Z => r = 1%Z) l) <= 4)%nat).
  { unfold l. etransitivity; [apply filter_take_drop_length|]. rewrite Hr.
    vm_compute. repeat constructor. }
  assert (H2 : (length (filter (fun r : Z => r = 2%Z) l) <= 4)%nat).
  { unfold l. etransitivity; [apply filter_take_drop_length|]. rewrite Hr.
    vm_compute. repeat constructor. }
  pose proof (hard_sum_lower l Hok) as Hsum. lia.
Qed.

(** With a deck of 52 playing cards of which ten are left, the dealer who
    starts from the two cards of the opening deal is through after ten
    draws at most. *)
Lemma dealerTurn_returns_standard_deck (w : world) :
  cards w ≡ₚ standard_deck -> deck_sized w -> 0 <= indexG w <= 42 ->
  0 <= soft (hands w dealer) -> 0 <= hard_total (hands w dealer) ->
  handsize (hands w dealer) <= 2 ->
  exists w', dealerTurn 11 w = Some w' /\ dealer_stopped (hands w' dealer).
Proof.
  intros Hperm Hsz Hi Hs Hh Hn.
  pose proof (upcoming_standard_deck w Hperm Hsz Hi) as Hup.
  destruct (dealerTurn_returns 10 w Hs) as [w' Hrun];
    try (unfold SINGLEDECK, MAXHAND; lia).
  exists w'. split; [exact Hrun|]. exact (dealerTurn_stopped _ _ _ Hrun).
Qed.

(** C3 (as amended).  A pass of the dealer's loop draws one more card
    exactly when the dealer is not busted and the hand is below 17 or is a
    soft 17, and leaves the loop otherwise.  So the dealer never stops on a
    soft 17: when the loop is left the hand is bust, or is worth at least 17
    and, if exactly 17, hard ([dealer_stopped]).  The loop is left after at most [k] draws when the [k] cards to
    come lift the hand to a hard total of 18 and the deck and the hand have
    room for them; with a deck of 52 playing cards of which ten are left,
    that is after ten draws at most. *)
Theorem dealer_policy :
  (forall w, dealer_draws w ->
     dealer_body w = Some (Continue (dealCard dealer (send "Dealer hits!" w)))) /\
  (forall w, ~ dealer_draws w ->
     exists msg, dealer_body w = Some (Return (send msg w))) /\
  (forall w w', dealer_body w = Some (Return w') ->
     hands w' = hands w /\ ~ dealer_draws w /\ dealer_stopped (hands w' dealer) /\
     (busted (hands w' dealer) = 0 -> ~ soft_17 (hands w' dealer))) /\
  (forall n w w', dealerTurn n w = Some w' -> dealer_stopped (hands w' dealer)) /\
  (forall k w,
     0 <= soft (hands w dealer) ->
     indexG w + Z.of_nat k <= SINGLEDECK ->
     handsize (hands w dealer) + Z.of_nat k <= MAXHAND ->
     18 - hard_total (hands w dealer) <= upcoming k (rankG w) (indexG w) ->
     exists w', dealerTurn (S k) w = Some w' /\ dealer_stopped (hands w' dealer)) /\
  (forall w,
     cards w ≡ₚ standard_deck -> deck_sized w -> 0 <= indexG w <= 42 ->
     0 <= soft (hands w dealer) -> 0 <= hard_total (hands w dealer) ->
     handsize (hands w dealer) <= 2 ->
     exists w', dealerTurn 11 w = Some w' /\ dealer_stopped (hands w' dealer)).
Proof.
  split; [|split; [|split; [|split; [|split]]]].
  - intros w Hd. destruct (dealer_body_cases w) as [[_ E]|[Hn _]]; [exact E|contradiction].
  - intros w Hn. destruct (dealer_body_cases w) as [[Hd _]|(_ & _ & Hm)]; [contradiction|exact Hm].
  - intros w w' Hb.
    destruct (dealer_body_cases w) as [[_ E]|(Hn & Hst & msg & E)]; rewrite E in Hb;
      [discriminate Hb|]. injection Hb as <-. simpl.
    repeat split; try assumption.
    intros Hb0. destruct Hst as [Hbu|[_ Hs]]; [contradiction|exact Hs].
  - intros n w w'. apply dealerTurn_stopped.
  - intros k w Hs Hi Hn Hup. destruct (dealerTurn_returns k w Hs Hi Hn Hup) as [w' Hrun].
    exists w'. split; [exact Hrun|]. apply (dealerTurn_stopped _ _ _ Hrun).
  - apply dealerTurn_returns_standard_deck.
Qed.

Lemma dealer_policy_witness :
  let w := dealer_soft_17 in
  soft_17 (hands w dealer) /\
  dealer_body w = Some (Continue (dealCard dealer (send "Dealer hits!" w))) /\
  (exists w', dealerTurn 3 w = Some w' /\ dealer_stopped (hands w' dealer)) /\
  (exists w', dealerTurn 11 w = Some w' /\ dealer_stopped (hands w' dealer)).
Proof.
  intros w. destruct dealer_policy as (Hdraw & _ & _ & _ & Hret & Hstd).
  assert (Hs : soft_17 (hands w dealer)) by (split; [reflexivity|vm_compute; discriminate]).
  split; [exact Hs|]. split; [|split].
  - apply Hdraw. split; [reflexivity|right; exact Hs].
  - apply (Hret 2%nat w); vm_compute; discriminate.
  - apply (Hstd w).
    + apply (bool_decide_unpack _). vm_compute. reflexivity.
    + split; reflexivity.
    + vm_compute. split; discriminate.
    + vm_compute. discriminate.
    + vm_compute. discriminate.
    + vm_compute. discriminate.
Defined.

(** C3 as the specification states it fails in its last part: the dealer
    stops on a soft 18, a hand that is neither bust nor hard. *)
Lemma dealer_stops_on_soft_18 :
  let h := hands dealer_soft_18 dealer in
  hand_cards h = [(1, "s"%char); (7, "s"%char)] /\
  handvalue h = 18 /\ soft h = 1 /\ busted h = 0 /\
  dealerTurn 1 dealer_soft_18 = Some (send "Dealer stays with " dealer_soft_18) /\
  ~ (busted h <> 0 \/ (soft h = 0 /\ 17 <= handvalue h)).
Proof.
  intros h.
  assert (Hs : soft h = 1) by (vm_compute; reflexivity).
  assert (Hb : busted h = 0) by (vm_compute; reflexivity).
  split; [vm_compute; reflexivity|]. split; [vm_compute; reflexivity|].
  split; [exact Hs|]. split; [exact Hb|]. split; [vm_compute; reflexivity|].
  intros [Hb'|[Hs' _]]; [apply Hb'; exact Hb|rewrite Hs in Hs'; discriminate Hs'].
Qed.
Ltac not_internal := vm_compute; intros [H|[H|H]]; discriminate H.

Section Turn.
Variables (I : world -> Prop) (ID : Z) (pA pB : hid).
Hypothesis Hsel : forall w, selectPlayer ID w = (Some (pA, pB), w).
Hypothesis I_send : forall s w, ~ internal_error s -> I w -> I (send s w).
Hypothesis I_input : forall fuel w a w', I w -> userInput fuel w = Some (a, w') -> I w'.
Hypothesis I_dealA : forall w, I w -> I (dealCard pA w).
Hypothesis I_dealB : forall w, I w -> I (dealCard pB w).
Hypothesis I_move : forall w, I w -> I (split_move pA pB w).

Lemma userInput_preserves (fuel : nat) (s : string) (w w' : world) (a : Z) :
  ~ internal_error s -> I w -> userInput fuel (send s w) = Some (a, w') ->
  I w' /\ (a = HIT \/ a = STAY).
Proof.
  intros Hs Hw H. destruct (userInput_world _ _ _ _ H) as [_ Ha].
  split; [|exact Ha]. apply (I_input _ _ _ _ (I_send _ _ Hs Hw) H).
Qed.

Lemma split_preserves (w w' : world) : I w -> split ID w = Some w' -> I w'.
Proof.
  intros Hw H. unfold split in H. rewrite Hsel in H. simpl in H. injection H as <-.
  apply I_dealB, I_dealA, I_move, I_send; [|exact Hw].
  vm_compute. intros [H|[H|H]]; discriminate H.
Qed.


Lemma playTurn_first_preserves (fuel : nat) (s : Z * world) (c : ctl (Z * world) world) :
  I (snd s) -> playTurn_first_body fuel ID pA s = Some c ->
  match c with Continue s' => I (snd s') | Return r => I r end.
Proof.
  destruct s as [a v]. simpl. intros Hv Hb. unfold playTurn_first_body in Hb.
  destruct (_ && _).
  - cbv zeta in Hb. destruct (userInput _ _) as [[ch v2]|] eqn:Eu; [|discriminate Hb].
    destruct (fun H => userInput_preserves _ _ _ _ _ H Hv Eu) as [Hv2 _]; [not_internal|].
    simpl in Hb. destruct (ch =? HIT).
    + destruct (split ID v2) as [v3|] eqn:Esp; [|discriminate Hb].
      simpl in Hb. injection Hb as <-. exact (split_preserves _ _ Hv2 Esp).
    + simpl in Hb. injection Hb as <-. exact Hv2.
  - destruct (truthy (busted (hands v pA)));
      [injection Hb as <-; apply I_send; [not_internal|exact Hv]|].
    destruct (handvalue (hands v pA) =? 21);
      [injection Hb as <-; apply I_send; [not_internal|exact Hv]|].
    cbv zeta in Hb. destruct (userInput _ _) as [[ch v2]|] eqn:Eu; [|discriminate Hb].
    destruct (fun H => userInput_preserves _ _ _ _ _ H Hv Eu) as [Hv2 Hch]; [not_internal|].
    simpl in Hb.
    destruct (Z.eqb_spec ch HIT); [|destruct (Z.eqb_spec ch STAY)]; injection Hb as <-; simpl.
    + apply I_dealA, I_send; [not_internal|exact Hv2].
    + apply I_send; [not_internal|exact Hv2].
    + exfalso. destruct Hch; contradiction.
Qed.

Lemma playTurn_second_preserves (fuel : nat) (v : world) (c : ctl world world) :
  I v -> playTurn_second_body fuel pB v = Some c ->
  match c with Continue s' => I s' | Return r => I r end.
Proof.
  intros Hv Hb. unfold playTurn_second_body in Hb.
  destruct (truthy (busted (hands v pB)));
    [injection Hb as <-; apply I_send; [not_internal|exact Hv]|].
  destruct (handvalue (hands v pB) =? 21);
    [injection Hb as <-; apply I_send; [not_internal|exact Hv]|].
  cbv zeta in Hb. destruct (userInput _ _) as [[ch v2]|] eqn:Eu; [|discriminate Hb].
  destruct (fun H => userInput_preserves _ _ _ _ _ H Hv Eu) as [Hv2 Hch]; [not_internal|].
  simpl in Hb.
  destruct (Z.eqb_spec ch HIT); [|destruct (Z.eqb_spec ch STAY)]; injection Hb as <-; simpl.
  - apply I_dealB, I_send; [not_internal|exact Hv2].
  - apply I_send; [not_internal|exact Hv2].
  - exfalso. destruct Hch; contradiction.
Qed.

Lemma playTurn_preserves (fuel : nat) (w w' : world) :
  I w -> playTurn fuel ID w = Some w' -> I w'.
Proof.
  intros Hw Hrun. unfold playTurn in Hrun. rewrite Hsel in Hrun. simpl in Hrun.
  destruct (while_loop fuel (playTurn_first_body fuel ID pA) (1, w)) as [w1|] eqn:E1;
    [|discriminate Hrun]. simpl in Hrun.
  assert (H1 : I w1).
  { apply (while_loop_inv (fun s => I (snd s)) I (playTurn_first_body fuel ID pA))
      with (n := fuel) (s := (1, w)); [|exact Hw|exact E1].
    intros s c. apply playTurn_first_preserves. }
  destruct (truthy (empty (hands w1 pB))); [injection Hrun as <-; exact H1|].
  apply (while_loop_inv I I (playTurn_second_body fuel pB)) with (n := fuel) (s := w1);
    [|exact H1|exact Hrun].
  intros s c. apply playTurn_second_preserves.
Qed.
End Turn.

(** ** What a turn leaves untouched *)

Lemma turn_frame_refl (w : world) : turn_frame w w.
Proof. unfold turn_frame. repeat split; reflexivity. Qed.

Lemma turn_frame_trans (w1 w2 w3 : world) :
  turn_frame w1 w2 -> turn_frame w2 w3 -> turn_frame w1 w3.
Proof.
  intros (Er & Es & En & Hi & Ho & Hse) (Er' & Es' & En' & Hi' & Ho' & Hse').
  unfold turn_frame. rewrite Er', Es', En'.
  repeat split; try assumption; [lia|etrans; eassumption|etrans; eassumption].
Qed.

Lemma turn_frame_send (s : string) (w : world) : turn_frame w (send s w).
Proof.
  unfold turn_frame. simpl. repeat split; try reflexivity.
  apply prefix_app_r. reflexivity.
Qed.

Lemma turn_frame_dealCard (p : hid) (w : world) : turn_frame w (dealCard p w).
Proof.
  unfold dealCard.
  destruct ((indexG w >=? SINGLEDECK) || (handsize (hands w p) >=? MAXHAND)).
  - apply turn_frame_send.
  - unfold turn_frame. simpl. repeat split; try reflexivity. lia.
Qed.

Lemma turn_frame_split_move (pA pB : hid) (w : world) : turn_frame w (split_move pA pB w).
Proof.
  unfold split_move. destruct (_ =? 1); unfold turn_frame; simpl; repeat split; reflexivity.
Qed.

Lemma turn_frame_userInput (fuel : nat) (w w' : world) (a : Z) :
  userInput fuel w = Some (a, w') -> turn_frame w w' /\ hands w' = hands w.
Proof.
  intros H. destruct (userInput_sound _ _ _ _ H) as (_ & E & pre & c & mid & x & Es & _).
  split; [|rewrite E; reflexivity].
  unfold turn_frame. rewrite E at 1 2 3 4 5. simpl.
  repeat split; try reflexivity. rewrite Es.
  exists (pre ++ c :: mid ++ [x]). rewrite <- !app_assoc. simpl. rewrite <- app_assoc. reflexivity.
Qed.

Lemma internal_errors_send (s : string) (w : world) :
  ~ internal_error s -> internal_errors (send s w) = internal_errors w.
Proof.
  intros Hs. unfold internal_errors. simpl. rewrite filter_app, filter_cons_False by exact Hs.
  apply app_nil_r.
Qed.

Lemma internal_errors_dealCard (p : hid) (w : world) :
  internal_errors (dealCard p w) = internal_errors w.
Proof.
  unfold dealCard.
  destruct ((indexG w >=? SINGLEDECK) || (handsize (hands w p) >=? MAXHAND)).
  - apply internal_errors_send. not_internal.
  - reflexivity.
Qed.

Lemma internal_errors_split_move (pA pB : hid) (w : world) :
  internal_errors (split_move pA pB w) = internal_errors w.
Proof. unfold split_move. destruct (_ =? 1); reflexivity. Qed.

Lemma split_move_other (pA pB q : hid) (w : world) :
  q <> pA -> q <> pB -> hands (split_move pA pB w) q = hands w q.
Proof.
  intros HA HB. unfold split_move.
  destruct (_ =? 1); repeat rewrite ?upd_hand_other by assumption; reflexivity.
Qed.

(** The names of the two hands of a seat. *)
Lemma selectPlayer_some (ID : Z) (pA pB : hid) (w w0 : world) :
  selectPlayer ID w = (Some (pA, pB), w0) ->
  w0 = w /\ (forall w1, selectPlayer ID w1 = (Some (pA, pB), w1)) /\
  1 <= ID <= 4 /\ pA <> pB /\ pA <> dealer /\ pB <> dealer.
Proof.
  unfold selectPlayer.
  destruct (Z.eqb_spec ID P1); [|destruct (Z.eqb_spec ID P2); [|destruct (Z.eqb_spec ID P3);
    [|destruct (Z.eqb_spec ID P4); [|destruct (ID =? DEALER); discriminate]]]];
    intros [= <- <- <-]; subst ID; (split; [reflexivity|]); (split; [reflexivity|]);
    (split; [unfold P1, P2, P3, P4; lia|]); repeat split; discriminate.
Qed.

Lemma turn_kept_step (pA pB : hid) (w w1 w2 : world) :
  turn_kept pA pB w w1 -> frame pA pB w1 w2 -> turn_frame w1 w2 ->
  internal_errors w2 = internal_errors w1 -> turn_kept pA pB w w2.
Proof.
  intros (Hf & Ht & He) Hf' Ht' He'. split; [|split].
  - intros q HA HB. rewrite Hf' by assumption. apply Hf; assumption.
  - exact (turn_frame_trans _ _ _ Ht Ht').
  - congruence.
Qed.

Lemma playTurn_kept (fuel : nat) (ID : Z) (w w' : world) :
  playTurn fuel ID w = Some w' ->
  exists pA pB, selectPlayer ID w = (Some (pA, pB), w) /\ turn_kept pA pB w w'.
Proof.
  intros Hrun.
  destruct (selectPlayer ID w) as [[[pA pB]|] w0] eqn:Esel;
    [|unfold playTurn in Hrun; rewrite Esel in Hrun; discriminate Hrun].
  destruct (selectPlayer_some _ _ _ _ _ Esel) as (-> & Hsel & _).
  exists pA, pB. split; [reflexivity|].
  apply (playTurn_preserves (turn_kept pA pB w) ID pA pB Hsel) with (fuel := fuel) (w := w);
    [| | | | |split; [intros q _ _; reflexivity|split; [apply turn_frame_refl|reflexivity]]
     |exact Hrun].
  - intros s v Hs Hv. apply (turn_kept_step _ _ _ _ _ Hv);
      [intros q _ _; reflexivity|apply turn_frame_send|apply internal_errors_send, Hs].
  - intros n v a v' Hv Hu. destruct (turn_frame_userInput _ _ _ _ Hu) as [Ht Eh].
    apply (turn_kept_step _ _ _ _ _ Hv); [intros q _ _; rewrite Eh; reflexivity|exact Ht|].
    destruct (userInput_frame _ _ _ _ Hu) as (_ & _ & _ & _ & Eo & _).
    unfold internal_errors. rewrite Eo. reflexivity.
  - intros v Hv. apply (turn_kept_step _ _ _ _ _ Hv);
      [intros q HA _; apply dealCard_other, HA|apply turn_frame_dealCard
      |apply internal_errors_dealCard].
  - intros v Hv. apply (turn_kept_step _ _ _ _ _ Hv);
      [intros q _ HB; apply dealCard_other, HB|apply turn_frame_dealCard
      |apply internal_errors_dealCard].
  - intros v Hv. apply (turn_kept_step _ _ _ _ _ Hv);
      [intros q HA HB; apply split_move_other; assumption|apply turn_frame_split_move
      |apply internal_errors_split_move].
Qed.

Lemma all_hands_NoDup : NoDup all_hands.
Proof. apply (bool_decide_unpack _). vm_compute. reflexivity. Qed.

Lemma all_hands_elem (p : hid) : p ∈ all_hands.
Proof. unfold all_hands. destruct p; rewrite !elem_of_cons; tauto. Qed.

(** One hand gets one more card. *)
Lemma bind_hand_app {A} (f g : hid -> list A) (p : hid) (c : list A) (l : list hid) :
  NoDup l -> g p = f p ++ c -> (forall q, q <> p -> g q = f q) ->
  (l ≫= g) ≡ₚ (l ≫= f) ++ (if decide (p ∈ l) then c else []).
Proof.
  intros Hnd Hp Hq. induction l as [|x l IH].
  - reflexivity.
  - apply NoDup_cons in Hnd as [Hx Hnd]. specialize (IH Hnd).
    change ((x :: l) ≫= g) with (g x ++ (l ≫= g)).
    change ((x :: l) ≫= f) with (f x ++ (l ≫= f)).
    rewrite IH. destruct (decide (x = p)) as [->|Hne].
    + rewrite Hp. rewrite decide_False by exact Hx. rewrite decide_True by (apply elem_of_cons; left; reflexivity).
      rewrite app_nil_r, <- !app_assoc. apply Permutation_app_head, Permutation_app_comm.
    + rewrite (Hq x Hne). rewrite <- app_assoc. apply Permutation_app_head.
      destruct (decide (p ∈ l)) as [Hin|Hin].
      * rewrite decide_True by (apply elem_of_cons; right; exact Hin). reflexivity.
      * rewrite decide_False; [reflexivity|].
        rewrite elem_of_cons. intros [E|E]; [congruence|contradiction].
Qed.

Lemma dealt_cards_app (w w' : world) (p : hid) (c : list (Z * ascii)) :
  hand_cards (hands w' p) = hand_cards (hands w p) ++ c ->
  (forall q, q <> p -> hands w' q = hands w q) ->
  dealt_cards w' ≡ₚ dealt_cards w ++ c.
Proof.
  intros Hp Hq. unfold dealt_cards.
  rewrite (bind_hand_app (fun q => hand_cards (hands w q)) (fun q => hand_cards (hands w' q))
             p c all_hands all_hands_NoDup Hp).
  - rewrite decide_True by apply all_hands_elem. reflexivity.
  - intros q Hne. rewrite (Hq q Hne). reflexivity.
Qed.

Lemma card_at_lookup (w : world) (i : Z) :
  deck_sized w -> 0 <= i < SINGLEDECK -> cards w !! Z.to_nat i = Some (card_at w i).
Proof.
  intros [Hr Hs] Hi. unfold cards, card_at, arr_get.
  replace (0 <=? i) with true by (symmetry; apply Z.leb_le; lia).
  unfold SINGLEDECK in *.
  rewrite lookup_zip_with.
  rewrite (list_lookup_lookup_total_lt (rankG w)) by lia.
  rewrite (list_lookup_lookup_total_lt (suitG w)) by lia. reflexivity.
Qed.

Lemma dealCard_cards_ok (p : hid) (w : world) : cards_ok w -> cards_ok (dealCard p w).
Proof.
  intros (Hh & Hsz & Hi & Hperm).
  destruct (Z_lt_le_dec (indexG w) SINGLEDECK) as [Hlt|Hge];
    [destruct (Z_lt_le_dec (handsize (hands w p)) MAXHAND) as [Hn|Hn]|].
  2,3: rewrite dealCard_refused by lia; repeat split; try apply Hh; try apply Hsz;
       try apply Hi; exact Hperm.
  destruct (dealCard_dealt p w Hlt Hn)
    as (Ei & Er & Es & _ & _ & _ & Hother & Erk & Est & Efd & En & _).
  destruct (Hh p) as [Hps Hp0].
  split; [|split; [|split]].
  - intros q. destruct (decide (q = p)) as [->|Hq]; [|rewrite Hother by exact Hq; apply Hh].
    destruct Hps as (H1 & H2 & H3).
    unfold hand_sized. rewrite Erk, Est, Efd, En, !arr_set_length. repeat split; try assumption. lia.
  - unfold deck_sized. rewrite Er, Es. exact Hsz.
  - rewrite Ei. lia.
  - rewrite (dealt_cards_app w (dealCard p w) p [next_card w]);
      [|apply dealCard_appends; assumption|exact Hother].
    rewrite Hperm, Ei.
    replace (cards (dealCard p w)) with (cards w) by (unfold cards; rewrite Er, Es; reflexivity).
    replace (Z.to_nat (indexG w + 1)) with (S (Z.to_nat (indexG w))) by lia.
    rewrite (take_S_r _ _ (card_at w (indexG w))); [reflexivity|].
    apply card_at_lookup; [exact Hsz|lia].
Qed.

Lemma split_move_cards_ok (pA pB : hid) (w : world) :
  pA <> pB -> handsize (hands w pA) = 2 -> handsize (hands w pB) = 0 ->
  cards_ok w -> cards_ok (split_move pA pB w).
Proof.
  intros Hne HnA HnB (Hh & Hsz & Hi & Hperm).
  destruct (split_move_values pA pB w Hne)
    as (EnA & EnB & _ & _ & _ & _ & _ & Hother & Ei & Er & Es & _).
  destruct (split_move_cards pA pB w Hne (proj1 (Hh pA)) (proj1 (Hh pB)) HnA HnB)
    as (EcA & EcB & EcA' & EcB' & HsA' & HsB').
  split; [|split; [|split]].
  - intros q.
    destruct (decide (q = pA)) as [->|HqA]; [split; [exact HsA'|rewrite EnA; lia]|].
    destruct (decide (q = pB)) as [->|HqB]; [split; [exact HsB'|rewrite EnB; lia]|].
    rewrite Hother by assumption. apply Hh.
  - unfold deck_sized. rewrite Er, Es. exact Hsz.
  - rewrite Ei. exact Hi.
  - rewrite Ei. replace (cards (split_move pA pB w)) with (cards w)
      by (unfold cards; rewrite Er, Es; reflexivity).
    rewrite <- Hperm.
    (* both tables come from the one where the moved card is in no hand *)
    set (c1 := (arr_get (rank (hands w pA)) 1, arr_get (suit (hands w pA)) 1)) in *.
    set (mid := fun q => if decide (q = pA) then take 1 (hand_cards (hands w pA))
                         else hand_cards (hands w q)).
    assert (H1 : dealt_cards w ≡ₚ (all_hands ≫= mid) ++ [c1]).
    { unfold dealt_cards.
      rewrite (bind_hand_app mid (fun q => hand_cards (hands w q)) pA [c1] all_hands
                 all_hands_NoDup).
      - rewrite decide_True by apply all_hands_elem. reflexivity.
      - unfold mid. rewrite decide_True by reflexivity. rewrite EcA. reflexivity.
      - intros q Hq. unfold mid. rewrite decide_False by exact Hq. reflexivity. }
    set (mid' := fun q => if decide (q = pB) then [] else hand_cards (hands (split_move pA pB w) q)).
    assert (H2 : dealt_cards (split_move pA pB w) ≡ₚ (all_hands ≫= mid') ++ [c1]).
    { unfold dealt_cards.
      rewrite (bind_hand_app mid' (fun q => hand_cards (hands (split_move pA pB w) q)) pB [c1]
                 all_hands all_hands_NoDup).
      - rewrite decide_True by apply all_hands_elem. reflexivity.
      - unfold mid'. rewrite decide_True by reflexivity. rewrite EcB'. reflexivity.
      - intros q Hq. unfold mid'. rewrite decide_False by exact Hq. reflexivity. }
    rewrite H1, H2. apply Permutation_app_tail.
    replace (all_hands ≫= mid') with (all_hands ≫= mid); [reflexivity|].
    apply list_bind_ext; [|reflexivity]. intros q. unfold mid, mid'.
    destruct (decide (q = pA)) as [->|HqA].
    + rewrite decide_False by exact Hne. rewrite EcA', EcA. reflexivity.
    + destruct (decide (q = pB)) as [->|HqB]; [exact EcB|].
      rewrite Hother by assumption. reflexivity.
Qed.

Lemma cards_ok_ext (w w1 : world) :
  hands w1 = hands w -> rankG w1 = rankG w -> suitG w1 = suitG w ->
  indexG w1 = indexG w -> cards_ok w -> cards_ok w1.
Proof.
  intros Eh Er Es Ei H. unfold cards_ok, deck_sized, dealt_cards, cards in *.
  rewrite Eh, Er, Es, Ei. exact H.
Qed.

Lemma userInput_cards_ok (fuel : nat) (s : string) (w w1 : world) (a : Z) :
  userInput fuel (send s w) = Some (a, w1) ->
  hands w1 = hands w /\ (cards_ok w -> cards_ok w1).
Proof.
  intros H. destruct (userInput_frame _ _ _ _ H) as (Eh & Er & Es & Ei & _).
  split; [exact Eh|]. apply cards_ok_ext; assumption.
Qed.

Lemma playTurn_first_body_cards (fuel : nat) (ID : Z) (pA pB : hid)
    (s : Z * world) (c : ctl (Z * world) world) :
  (forall w0, selectPlayer ID w0 = (Some (pA, pB), w0)) -> pA <> pB ->
  first_loop_cards pA pB s ->
  playTurn_first_body fuel ID pA s = Some c ->
  match c with
  | Continue s' => first_loop_cards pA pB s'
  | Return r => cards_ok r
  end.
Proof.
  intros Hsel Hne Hinv Hrun. destruct s as [a w1].
  destruct Hinv as (Hok & Hopen).
  assert (Hne' : pB <> pA) by congruence.
  unfold playTurn_first_body in Hrun.
  destruct ((arr_get (rank (hands w1 pA)) 0 =? arr_get (rank (hands w1 pA)) 1) && truthy a)
    eqn:Eg.
  - apply split_offered_guard in Eg. destruct Eg as [Eeq Ha].
    destruct (Hopen Ha) as (HB & _ & H2). specialize (H2 Eeq).
    cbv zeta in Hrun.
    destruct (userInput fuel (send "SPLIT? (HIT for YES) (STAY for NO)" w1))
      as [[ch w2]|] eqn:Eu; [|discriminate Hrun].
    destruct (userInput_cards_ok _ _ _ _ _ Eu) as [Eh Hok2]. specialize (Hok2 Hok).
    simpl in Hrun. destruct (ch =? HIT).
    + destruct (split ID w2) as [w3|] eqn:Esp; [|discriminate Hrun].
      simpl in Hrun. injection Hrun as <-.
      unfold split in Esp. rewrite Hsel in Esp. simpl in Esp. injection Esp as <-.
      split; [|intros H; contradiction].
      apply dealCard_cards_ok, dealCard_cards_ok, split_move_cards_ok.
      * exact Hne.
      * change (hands (send "You split!" w2)) with (hands w2). rewrite Eh. exact H2.
      * change (hands (send "You split!" w2)) with (hands w2). rewrite Eh. exact HB.
      * revert Hok2. apply cards_ok_ext; reflexivity.
    + simpl in Hrun. injection Hrun as <-. split; [exact Hok2|intros H; contradiction].
  - assert (Hno : a <> 0 -> arr_get (rank (hands w1 pA)) 0 <> arr_get (rank (hands w1 pA)) 1).
    { intros Ha Heq. assert (split_offered pA a w1) as H by (split; assumption).
      apply split_offered_guard in H. congruence. }
    destruct (truthy (busted (hands w1 pA))).
    { injection Hrun as <-. revert Hok. apply cards_ok_ext; reflexivity. }
    destruct (Z.eqb_spec (handvalue (hands w1 pA)) 21) as [E21|E21].
    { injection Hrun as <-. revert Hok. apply cards_ok_ext; reflexivity. }
    cbv zeta in Hrun.
    destruct (userInput fuel (send "HIT or STAY?" w1)) as [[choice w2]|] eqn:Eu;
      [|discriminate Hrun].
    destruct (userInput_cards_ok _ _ _ _ _ Eu) as [Eh Hok2]. specialize (Hok2 Hok).
    simpl in Hrun.
    destruct (choice =? HIT); [|destruct (choice =? STAY)]; injection Hrun as <-.
    + set (wh := send "You hit!" w2).
      assert (Ehh : hands wh = hands w1) by exact Eh.
      assert (Hokh : cards_ok wh) by (revert Hok2; apply cards_ok_ext; reflexivity).
      split; [apply dealCard_cards_ok, Hokh|].
      intros Ha. destruct (Hopen Ha) as (HB & H2 & _).
      destruct (dealCard_keeps_first_two pA wh) as (H2' & E0 & E1);
        [rewrite Ehh; exact H2|].
      rewrite E0, E1, (dealCard_other pA pB wh Hne'), Ehh.
      split; [exact HB|]. split; [exact H2'|].
      intros Heq. exfalso. apply (Hno Ha Heq).
    + revert Hok2. apply cards_ok_ext; reflexivity.
    + revert Hok2. apply cards_ok_ext; reflexivity.
Qed.

Lemma playTurn_second_body_cards (fuel : nat) (pB : hid) (w1 : world) (c : ctl world world) :
  cards_ok w1 ->
  playTurn_second_body fuel pB w1 = Some c ->
  match c with
  | Continue w2 => cards_ok w2
  | Return r => cards_ok r
  end.
Proof.
  intros Hok Hrun. unfold playTurn_second_body in Hrun.
  destruct (truthy (busted (hands w1 pB))).
  { injection Hrun as <-. revert Hok. apply cards_ok_ext; reflexivity. }
  destruct (handvalue (hands w1 pB) =? 21).
  { injection Hrun as <-. revert Hok. apply cards_ok_ext; reflexivity. }
  cbv zeta in Hrun.
  destruct (userInput fuel (send "HIT or STAY?" w1)) as [[choice w2]|] eqn:Eu;
    [|discriminate Hrun].
  destruct (userInput_cards_ok _ _ _ _ _ Eu) as [Eh Hok2]. specialize (Hok2 Hok).
  simpl in Hrun.
  destruct (choice =? HIT); [|destruct (choice =? STAY)]; injection Hrun as <-.
  - apply dealCard_cards_ok. revert Hok2. apply cards_ok_ext; reflexivity.
  - revert Hok2. apply cards_ok_ext; reflexivity.
  - revert Hok2. apply cards_ok_ext; reflexivity.
Qed.

(** The turn of a seat with two cards in its primary hand and none in its
    secondary hand loses and invents no card. *)
Lemma playTurn_cards_ok (fuel : nat) (ID : Z) (pA pB : hid) (w w' : world) :
  (forall w0, selectPlayer ID w0 = (Some (pA, pB), w0)) -> pA <> pB ->
  cards_ok w -> handsize (hands w pA) = 2 -> handsize (hands w pB) = 0 ->
  playTurn fuel ID w = Some w' -> cards_ok w'.
Proof.
  intros Hsel Hne Hok HA HB Hrun. unfold playTurn in Hrun.
  rewrite Hsel in Hrun. simpl in Hrun.
  destruct (while_loop fuel (playTurn_first_body fuel ID pA) (1, w)) as [w1|] eqn:E1;
    [|discriminate Hrun]. simpl in Hrun.
  assert (H1 : cards_ok w1).
  { apply (while_loop_inv (first_loop_cards pA pB) cards_ok
             (playTurn_first_body fuel ID pA)) with (n := fuel) (s := (1, w));
      [|split; [exact Hok|]|exact E1].
    - intros s c Hs Hb. exact (playTurn_first_body_cards fuel ID pA pB s c Hsel Hne Hs Hb).
    - intros _. split; [exact HB|]. split; [lia|]. intros _. exact HA. }
  destruct (truthy (empty (hands w1 pB))).
  - injection Hrun as <-. exact H1.
  - apply (while_loop_inv cards_ok cards_ok (playTurn_second_body fuel pB))
      with (n := fuel) (s := w1); [|exact H1|exact Hrun].
    intros s c Hs Hb. exact (playTurn_second_body_cards fuel pB s c Hs Hb).
Qed.

Lemma dealerTurn_cards_ok (n : nat) (w w' : world) :
  cards_ok w -> dealerTurn n w = Some w' -> cards_ok w'.
Proof.
  unfold dealerTurn. intros Hok.
  apply (while_loop_inv cards_ok cards_ok dealer_body); [|exact Hok].
  intros s c Hs Hb.
  destruct (dealer_body_cases s) as [[_ E]|(_ & _ & msg & E)]; rewrite E in Hb;
    injection Hb as <-.
  - apply dealCard_cards_ok. revert Hs. apply cards_ok_ext; reflexivity.
  - revert Hs. apply cards_ok_ext; reflexivity.
Qed.

Lemma faceDown_cards_ok (v : Z) (w : world) :
  cards_ok w ->
  cards_ok (upd_hand dealer (fun h => set_isFaceDown (arr_set (isFaceDown h) 0 v) h) w).
Proof.
  intros (Hh & Hsz & Hi & Hperm). set (w' := upd_hand dealer _ w).
  assert (Hc : forall q, hand_cards (hands w' q) = hand_cards (hands w q) /\
                         handsize (hands w' q) = handsize (hands w q)).
  { intros q. unfold w'. destruct (decide (q = dealer)) as [->|Hq].
    - rewrite upd_hand_same. split; reflexivity.
    - rewrite upd_hand_other by exact Hq. split; reflexivity. }
  split; [|split; [exact Hsz|split; [exact Hi|]]].
  - intros q. destruct (Hc q) as [_ ->]. split; [|apply Hh].
    destruct (faceDown_sized v (set_rnd [] w)) as [Hs _];
      [split; [intros p; apply Hh|constructor]|]. exact (Hs q).
  - change (indexG w') with (indexG w). change (cards w') with (cards w).
    rewrite <- Hperm. unfold dealt_cards.
    erewrite list_bind_ext; [reflexivity| |reflexivity]. intros q. apply Hc.
Qed.

Lemma dealCard_sensor (p : hid) (w : world) : sensor (dealCard p w) = sensor w.
Proof.
  destruct (Z_lt_le_dec (indexG w) SINGLEDECK) as [Hi|Hi];
    [destruct (Z_lt_le_dec (handsize (hands w p)) MAXHAND) as [Hn|Hn]|].
  2,3: rewrite dealCard_refused by lia; reflexivity.
  apply (dealCard_dealt p w Hi Hn).
Qed.

(** The dealer's turn changes the dealer's hand only and reads no gesture. *)
Lemma dealerTurn_kept (n : nat) (w w' : world) :
  dealerTurn n w = Some w' ->
  (forall q, q <> dealer -> hands w' q = hands w q) /\ turn_frame w w' /\
  sensor w' = sensor w /\ internal_errors w' = internal_errors w.
Proof.
  unfold dealerTurn.
  set (K := fun w1 => (forall q, q <> dealer -> hands w1 q = hands w q) /\ turn_frame w w1 /\
                      sensor w1 = sensor w /\ internal_errors w1 = internal_errors w).
  apply (while_loop_inv K K dealer_body).
  - intros s c (Hq & Ht & Hs & He) Hb.
    assert (Hsend : forall msg, ~ internal_error msg -> K (send msg s)).
    { intros msg Hm. split; [exact Hq|]. split; [|split; [exact Hs|]].
      - exact (turn_frame_trans _ _ _ Ht (turn_frame_send msg s)).
      - rewrite internal_errors_send by exact Hm. exact He. }
    unfold dealer_body in Hb.
    destruct (truthy (busted (hands s dealer))); [injection Hb as <-; apply Hsend; not_internal|].
    destruct (_ || _); injection Hb as <-; [|apply Hsend; not_internal].
    destruct (Hsend "Dealer hits!" ltac:(not_internal)) as (Hq' & Ht' & Hs' & He').
    split; [|split; [|split]].
    + intros q Hne. rewrite dealCard_other by exact Hne. apply Hq', Hne.
    + exact (turn_frame_trans _ _ _ Ht' (turn_frame_dealCard _ _)).
    + rewrite <- Hs'. apply dealCard_sensor.
    + rewrite internal_errors_dealCard. exact He'.
  - split; [intros q _; reflexivity|]. split; [apply turn_frame_refl|]. split; reflexivity.
Qed.

Lemma emptyHand_cards (p : hid) (w : world) : cards (emptyHand p w) = cards w.
Proof. reflexivity. Qed.

Lemma cards_ok_fresh (v : world) :
  deck_ok v -> indexG v = 0 -> (forall p, opening_hand 0 (hands v p)) -> cards_ok v.
Proof.
  intros Hd Hi Hh.
  assert (He : forall p, hand_cards (hands v p) = []).
  { intros p. destruct (Hh p) as (_ & E & _). unfold hand_cards. rewrite E. reflexivity. }
  split; [|split; [apply Hd|split; [rewrite Hi; unfold SINGLEDECK; lia|]]].
  - intros p. destruct (Hh p) as (Hs & E & _). split; [exact Hs|lia].
  - rewrite Hi. unfold dealt_cards, all_hands. cbn [mbind list_bind app].
    rewrite !He. reflexivity.
Qed.

Lemma newRound_cards (w : world) :
  deck_sized w -> Forall (fun r => 0 <= r) (rnd w) -> cards (newRound w) ≡ₚ cards w.
Proof.
  intros Hsz Hrnd. unfold newRound.
  set (w9 := emptyHand p4b _).
  assert (Hsz9 : deck_sized w9) by exact Hsz.
  assert (Hrnd9 : Forall (fun r => 0 <= r) (rnd w9)) by exact Hrnd.
  destruct (shuffleDeck_inv w9 Hsz9 Hrnd9) as (_ & Hp & _). rewrite Hp.
  subst w9. rewrite !emptyHand_cards. reflexivity.
Qed.

Lemma newRound_cards_ok (w : world) :
  round_ready w -> cards_ok (newRound w) /\ cards (newRound w) ≡ₚ cards w.
Proof.
  intros Hready. destruct (newRound_opening w Hready) as (Hd & Hi & _ & Hh).
  split; [exact (cards_ok_fresh _ Hd Hi Hh)|].
  destruct Hready as (Hsz & _ & _ & Hrnd). exact (newRound_cards w Hsz Hrnd).
Qed.

Lemma opening_deal_kept (w : world) :
  cards_ok w -> cards_ok (opening_deal w) /\ turn_frame w (opening_deal w).
Proof.
  intros H. unfold opening_deal.
  rewrite !for_loop_S. change (for_loop 0 ?b ?s) with s. cbv beta zeta.
  split; [repeat apply dealCard_cards_ok; exact H|].
  repeat (eapply turn_frame_trans; [|apply turn_frame_dealCard]). apply turn_frame_refl.
Qed.

Lemma turn_frame_cards (w w' : world) : turn_frame w w' -> cards w' = cards w.
Proof. intros (Er & Es & _). unfold cards. rewrite Er, Es. reflexivity. Qed.

(** The four turns and the dealer's turn, from the table the opening deal
    leaves. *)
Lemma turns_cards_ok (fuel : nat) (w2 w' : world) :
  cards_ok w2 ->
  seat_fresh p1a p1b w2 -> seat_fresh p2a p2b w2 ->
  seat_fresh p3a p3b w2 -> seat_fresh p4a p4b w2 ->
  (w ← playTurn fuel P1
         (upd_hand dealer (fun h => set_isFaceDown (arr_set (isFaceDown h) 0 1) h) w2);
   w ← playTurn fuel P2 w;
   w ← playTurn fuel P3 w;
   w ← playTurn fuel P4 w;
   dealerTurn fuel
     (upd_hand dealer (fun h => set_isFaceDown (arr_set (isFaceDown h) 0 0) h) w)) = Some w' ->
  cards_ok w' /\ cards w' = cards w2.
Proof.
  intros Hc2 F1 F2 F3 F4 Hrun.
  pose proof (faceDown_cards_ok 1 w2 Hc2) as Hc3.
  destruct (faceDown_table 1 w2) as [_ Hfresh3].
  change (cards w2) with (cards (upd_hand dealer
    (fun h => set_isFaceDown (arr_set (isFaceDown h) 0 1) h) w2)).
  set (w3 := upd_hand dealer _ w2) in *.
  apply (Hfresh3 p1a p1b) in F1; try discriminate.
  apply (Hfresh3 p2a p2b) in F2; try discriminate.
  apply (Hfresh3 p3a p3b) in F3; try discriminate.
  apply (Hfresh3 p4a p4b) in F4; try discriminate.
  clearbody w3. clear Hfresh3 Hc2.
  assert (Hsz : forall pA pB v, seat_fresh pA pB v ->
            handsize (hands v pA) = 2 /\ handsize (hands v pB) = 0).
  { intros pA pB v [(_ & HA & _) (_ & HB & _)]. split; assumption. }
  destruct (playTurn fuel P1 w3) as [w4|] eqn:E1; [|discriminate Hrun]. simpl in Hrun.
  destruct (playTurn_kept _ _ _ _ E1) as (pA & pB & Hsel & Hfr4 & Ht4 & _).
  assert (pA = p1a /\ pB = p1b) as [-> ->]
    by (change (selectPlayer P1 w3) with (Some (p1a, p1b), w3) in Hsel; split; congruence).
  clear Hsel.
  pose proof (playTurn_cards_ok fuel P1 p1a p1b w3 w4 ltac:(reflexivity) ltac:(discriminate)
                Hc3 (proj1 (Hsz _ _ _ F1)) (proj2 (Hsz _ _ _ F1)) E1) as Hc4.
  apply (seat_fresh_frame p2a p2b _ _ _ _ Hfr4) in F2; try discriminate.
  apply (seat_fresh_frame p3a p3b _ _ _ _ Hfr4) in F3; try discriminate.
  apply (seat_fresh_frame p4a p4b _ _ _ _ Hfr4) in F4; try discriminate.
  rewrite <- (turn_frame_cards _ _ Ht4). clear Hc3 Hfr4 Ht4 E1 F1.
  destruct (playTurn fuel P2 w4) as [w5|] eqn:E2; [|discriminate Hrun]. simpl in Hrun.
  destruct (playTurn_kept _ _ _ _ E2) as (pA & pB & Hsel & Hfr5 & Ht5 & _).
  assert (pA = p2a /\ pB = p2b) as [-> ->]
    by (change (selectPlayer P2 w4) with (Some (p2a, p2b), w4) in Hsel; split; congruence).
  clear Hsel.
  pose proof (playTurn_cards_ok fuel P2 p2a p2b w4 w5 ltac:(reflexivity) ltac:(discriminate)
                Hc4 (proj1 (Hsz _ _ _ F2)) (proj2 (Hsz _ _ _ F2)) E2) as Hc5.
  apply (seat_fresh_frame p3a p3b _ _ _ _ Hfr5) in F3; try discriminate.
  apply (seat_fresh_frame p4a p4b _ _ _ _ Hfr5) in F4; try discriminate.
  rewrite <- (turn_frame_cards _ _ Ht5). clear Hc4 Hfr5 Ht5 E2 F2.
  destruct (playTurn fuel P3 w5) as [w6|] eqn:E3; [|discriminate Hrun]. simpl in Hrun.
  destruct (playTurn_kept _ _ _ _ E3) as (pA & pB & Hsel & Hfr6 & Ht6 & _).
  assert (pA = p3a /\ pB = p3b) as [-> ->]
    by (change (selectPlayer P3 w5) with (Some (p3a, p3b), w5) in Hsel; split; congruence).
  clear Hsel.
  pose proof (playTurn_cards_ok fuel P3 p3a p3b w5 w6 ltac:(reflexivity) ltac:(discriminate)
                Hc5 (proj1 (Hsz _ _ _ F3)) (proj2 (Hsz _ _ _ F3)) E3) as Hc6.
  apply (seat_fresh_frame p4a p4b _ _ _ _ Hfr6) in F4; try discriminate.
  rewrite <- (turn_frame_cards _ _ Ht6). clear Hc5 Hfr6 Ht6 E3 F3.
  destruct (playTurn fuel P4 w6) as [w7|] eqn:E4; [|discriminate Hrun]. simpl in Hrun.
  destruct (playTurn_kept _ _ _ _ E4) as (pA & pB & Hsel & _ & Ht7 & _).
  assert (pA = p4a /\ pB = p4b) as [-> ->]
    by (change (selectPlayer P4 w6) with (Some (p4a, p4b), w6) in Hsel; split; congruence).
  clear Hsel.
  pose proof (playTurn_cards_ok fuel P4 p4a p4b w6 w7 ltac:(reflexivity) ltac:(discriminate)
                Hc6 (proj1 (Hsz _ _ _ F4)) (proj2 (Hsz _ _ _ F4)) E4) as Hc7.
  rewrite <- (turn_frame_cards _ _ Ht7). clear Hc6 Ht7 E4 F4.
  pose proof (faceDown_cards_ok 0 w7 Hc7) as Hc8.
  destruct (dealerTurn_kept _ _ _ Hrun) as (_ & Ht & _).
  split; [exact (dealerTurn_cards_ok _ _ _ Hc8 Hrun)|].
  rewrite (turn_frame_cards _ _ Ht). reflexivity.
Qed.

Lemma round_play_cards_ok (fuel : nat) (w w' : world) :
  round_ready w -> round_play fuel w = Some w' -> cards_ok w' /\ cards w' ≡ₚ cards w.
Proof.
  intros Hready Hrun.
  destruct (newRound_opening w Hready) as (Hd0 & Hi0 & _ & Hh0).
  assert (Hop : opening 0 (fun _ => 0) (newRound w))
    by (split; [exact Hd0|split; [exact Hi0|exact Hh0]]).
  destruct (opening_deal_fresh _ Hop) as (_ & _ & F1 & F2 & F3 & F4 & _).
  destruct (newRound_cards_ok w Hready) as [Hc0 Hperm].
  destruct (opening_deal_kept _ Hc0) as [Hc2 Ht2].
  rewrite <- Hperm, <- (turn_frame_cards _ _ Ht2).
  destruct (turns_cards_ok fuel (opening_deal (newRound w)) w' Hc2 F1 F2 F3 F4 Hrun) as [H1 H2].
  split; [exact H1|]. rewrite H2. reflexivity.
Qed.

Lemma emptyHand_cleared (p : hid) (w : world) :
  hand_sized (hands w p) -> hands (emptyHand p w) p = cleared_hand.
Proof.
  intros (H1 & H2 & H3). unfold emptyHand. rewrite set_hand_same.
  destruct (hands w p) as [rk st fd n v b s e]. simpl in H1, H2, H3.
  change (Z.to_nat MAXHAND) with 12%nat in H1, H2, H3.
  explode_list rk H1. explode_list st H2. explode_list fd H3.
  vm_compute. reflexivity.
Qed.

Lemma shuffleDeck_slot_keeps (i : Z) (w : world) :
  hands (shuffleDeck_slot i w) = hands w /\ out (shuffleDeck_slot i w) = out w /\
  sensor (shuffleDeck_slot i w) = sensor w /\ indexG (shuffleDeck_slot i w) = indexG w /\
  rnd (shuffleDeck_slot i w) = drop 1 (rnd w).
Proof.
  unfold shuffleDeck_slot, rand. destruct (rnd w) as [|r rs] eqn:E; simpl; rewrite ?E;
    repeat split.
Qed.

Lemma shuffle_loop_keeps (n : nat) (w : world) :
  let w' := for_loop n shuffleDeck_slot w in
  hands w' = hands w /\ out w' = out w /\ sensor w' = sensor w /\ indexG w' = indexG w /\
  rnd w' = drop n (rnd w).
Proof.
  induction n as [|n IH]; cbv zeta.
  - repeat split.
  - rewrite for_loop_S.
    destruct (shuffleDeck_slot_keeps (Z.of_nat n) (for_loop n shuffleDeck_slot w))
      as (-> & -> & -> & -> & ->).
    destruct IH as (-> & -> & -> & -> & ->). rewrite drop_drop.
    replace (n + 1)%nat with (S n) by lia. repeat split.
Qed.

Lemma shuffleDeck_keeps (w : world) :
  hands (shuffleDeck w) = hands w /\ out (shuffleDeck w) = out w /\
  sensor (shuffleDeck w) = sensor w /\ indexG (shuffleDeck w) = 0 /\
  rnd (shuffleDeck w) = drop (Z.to_nat SINGLEDECK) (rnd w).
Proof.
  unfold shuffleDeck. exact (shuffle_loop_keeps (Z.to_nat SINGLEDECK) (set_indexG 0 w)).
Qed.

Lemma newRound_keeps (w : world) :
  out (newRound w) = out w /\ sensor (newRound w) = sensor w /\ indexG (newRound w) = 0 /\
  rnd (newRound w) = drop (Z.to_nat SINGLEDECK) (rnd w) /\
  forall p, hand_sized (hands w p) -> hands (newRound w) p = cleared_hand.
Proof.
  unfold newRound. set (w9 := emptyHand p4b _).
  destruct (shuffleDeck_keeps w9) as (Eh & -> & -> & -> & ->).
  split; [reflexivity|]. split; [reflexivity|]. split; [reflexivity|]. split; [reflexivity|].
  intros p Hs. rewrite Eh. subst w9.
  destruct p;
    repeat first [ rewrite emptyHand_cleared; [reflexivity|]
                 | rewrite emptyHand_other by discriminate ];
    repeat rewrite emptyHand_other by discriminate; exact Hs.
Qed.

Lemma dealing_step (w0 : world) (k : Z) (f : hid -> list (Z * ascii)) (p : hid) (w : world) :
  dealing w0 k f w -> 0 <= k < SINGLEDECK -> (length (f p) < Z.to_nat MAXHAND)%nat ->
  dealing w0 (k + 1) (fun q => if decide (q = p) then f p ++ [card_at w0 k] else f q)
          (dealCard p w).
Proof.
  intros (Er & Es & Ei & Eo & Hh) Hk Hn.
  destruct (Hh p) as (Hs & En & Ec).
  assert (Hi : indexG w < SINGLEDECK) by lia.
  assert (Hn' : handsize (hands w p) < MAXHAND) by (unfold MAXHAND in *; lia).
  destruct (dealCard_dealt p w Hi Hn')
    as (Ei' & Er' & Es' & Eo' & _ & _ & Hother & Erk & Est & Efd & En' & _).
  pose proof (dealCard_appends p w Hi Hn' ltac:(lia) Hs) as Ec'.
  unfold dealing. rewrite Er', Es', Ei', Eo', Er, Es, Ei, Eo.
  split; [reflexivity|]. split; [reflexivity|]. split; [reflexivity|]. split; [reflexivity|].
  intros q. destruct (decide (q = p)) as [->|Hq].
  - split; [|split].
    + destruct Hs as (H1 & H2 & H3). unfold hand_sized.
      rewrite Erk, Est, Efd, !arr_set_length. repeat split; assumption.
    + rewrite En', En, length_app. simpl. lia.
    + rewrite Ec', Ec. unfold next_card, card_at. rewrite Er, Es, Ei. reflexivity.
  - rewrite (Hother q Hq). apply Hh.
Qed.

Ltac dealing_step H p :=
  let H' := fresh "Hd" in
  pose proof (dealing_step _ _ _ p _ H ltac:(unfold SINGLEDECK; lia)
                ltac:(vm_compute; lia)) as H';
  clear H; rename H' into H.

(** The opening deal from a cleared table: who holds which card of the
    deck. *)
Lemma opening_deal_dealing (w : world) :
  (forall p, hand_sized (hands w p) /\ handsize (hands w p) = 0) -> indexG w = 0 ->
  exists f, dealing w 10 f (opening_deal w) /\
    f p1a = [card_at w 0; card_at w 5] /\ f p2a = [card_at w 1; card_at w 6] /\
    f p3a = [card_at w 2; card_at w 7] /\ f p4a = [card_at w 3; card_at w 8] /\
    f dealer = [card_at w 4; card_at w 9] /\
    f p1b = [] /\ f p2b = [] /\ f p3b = [] /\ f p4b = [].
Proof.
  intros Hh Hi.
  assert (H : dealing w 0 (fun _ => []) w).
  { split; [reflexivity|]. split; [reflexivity|]. split; [exact Hi|]. split; [reflexivity|].
    intros q. destruct (Hh q) as [Hs En]. split; [exact Hs|]. split; [exact En|].
    unfold hand_cards. rewrite En. reflexivity. }
  unfold opening_deal.
  rewrite !for_loop_S. change (for_loop 0 ?b ?s) with s. cbv beta zeta.
  dealing_step H p1a. dealing_step H p2a. dealing_step H p3a. dealing_step H p4a.
  dealing_step H dealer.
  dealing_step H p1a. dealing_step H p2a. dealing_step H p3a. dealing_step H p4a.
  dealing_step H dealer.
  eexists. split; [exact H|]. repeat split.
Qed.

Lemma hand_loop_over (fuel : nat) (p : hid) (w : world) (r : world) :
  (truthy (busted (hands w p)) = true /\ r = send "You BUSTED!" w) \/
  (truthy (busted (hands w p)) = false /\ (handvalue (hands w p) =? 21) = true /\
   r = send "You got TAPJACK!" w) \/
  (truthy (busted (hands w p)) = false /\ (handvalue (hands w p) =? 21) = false /\
   exists w1, hands w1 = hands w /\ r = send "You stayed!" w1) ->
  turn_over (hands r p) (out r) /\ empty (hands r p) = empty (hands w p).
Proof.
  unfold turn_over.
  intros [[Hb ->]|[(Hb & Hv & ->)|(Hb & Hv & w1 & Eh & ->)]]; simpl; rewrite ?Eh, last_snoc;
    (split; [|reflexivity]).
  - left. split; [reflexivity|]. apply truthy_true, Hb.
  - right; left. split; [reflexivity|]. split; [apply truthy_false, Hb|apply Z.eqb_eq, Hv].
  - right; right. split; [reflexivity|]. split; [apply truthy_false, Hb|apply Z.eqb_neq, Hv].
Qed.

Lemma dealCard_empty (p : hid) (w : world) :
  empty (hands w p) = 0 -> empty (hands (dealCard p w) p) = 0.
Proof.
  intros He.
  destruct (Z_lt_le_dec (indexG w) SINGLEDECK) as [Hi|Hi];
    [destruct (Z_lt_le_dec (handsize (hands w p)) MAXHAND) as [Hn|Hn]|].
  2,3: rewrite dealCard_refused by lia; exact He.
  apply (dealCard_dealt p w Hi Hn).
Qed.

Lemma playTurn_first_over (fuel n : nat) (ID : Z) (pA : hid) (s : Z * world) (r : world) :
  while_loop n (playTurn_first_body fuel ID pA) s = Some r ->
  turn_over (hands r pA) (out r).
Proof.
  apply (while_loop_inv (fun _ => True) (fun r => turn_over (hands r pA) (out r))
           (playTurn_first_body fuel ID pA)); [|exact I].
  intros [a v] c _ Hb. unfold playTurn_first_body in Hb.
  destruct (_ && _).
  { cbv zeta in Hb. destruct (userInput _ _) as [[ch v2]|]; [|discriminate Hb].
    simpl in Hb. destruct (ch =? HIT); [destruct (split ID v2); [|discriminate Hb]|];
      simpl in Hb; injection Hb as <-; exact I. }
  destruct (truthy (busted (hands v pA))) eqn:Eb.
  { injection Hb as <-. apply (hand_loop_over fuel pA v). left. split; [exact Eb|reflexivity]. }
  destruct (handvalue (hands v pA) =? 21) eqn:Ev.
  { injection Hb as <-. apply (hand_loop_over fuel pA v). right; left. repeat split; assumption. }
  cbv zeta in Hb. destruct (userInput _ _) as [[ch v2]|] eqn:Eu; [|discriminate Hb].
  destruct (userInput_world _ _ _ _ Eu) as [Ew Hch]. simpl in Hb.
  destruct (Z.eqb_spec ch HIT); [|destruct (Z.eqb_spec ch STAY)]; injection Hb as <-.
  - exact I.
  - apply (hand_loop_over fuel pA v). right; right. split; [exact Eb|]. split; [exact Ev|].
    exists v2. split; [rewrite Ew; reflexivity|reflexivity].
  - exfalso. destruct Hch; contradiction.
Qed.

Lemma playTurn_second_over (fuel n : nat) (pB : hid) (w r : world) :
  empty (hands w pB) = 0 ->
  while_loop n (playTurn_second_body fuel pB) w = Some r ->
  turn_over (hands r pB) (out r) /\ empty (hands r pB) = 0.
Proof.
  intros He.
  apply (while_loop_inv (fun v => empty (hands v pB) = 0)
           (fun r => turn_over (hands r pB) (out r) /\ empty (hands r pB) = 0)
           (playTurn_second_body fuel pB)); [|exact He].
  intros v c Hv Hb. unfold playTurn_second_body in Hb.
  destruct (truthy (busted (hands v pB))) eqn:Eb.
  { injection Hb as <-. rewrite <- Hv. apply (hand_loop_over fuel pB v).
    left. split; [exact Eb|reflexivity]. }
  destruct (handvalue (hands v pB) =? 21) eqn:Ev.
  { injection Hb as <-. rewrite <- Hv. apply (hand_loop_over fuel pB v).
    right; left. repeat split; assumption. }
  cbv zeta in Hb. destruct (userInput _ _) as [[ch v2]|] eqn:Eu; [|discriminate Hb].
  destruct (userInput_world _ _ _ _ Eu) as [Ew Hch]. simpl in Hb.
  assert (Eh : hands v2 = hands v) by (rewrite Ew; reflexivity).
  destruct (Z.eqb_spec ch HIT); [|destruct (Z.eqb_spec ch STAY)]; injection Hb as <-.
  - apply dealCard_empty. change (hands (send "You hit!" v2)) with (hands v2).
    rewrite Eh. exact Hv.
  - rewrite <- Hv. apply (hand_loop_over fuel pB v). right; right.
    split; [exact Eb|]. split; [exact Ev|]. exists v2. split; [exact Eh|reflexivity].
  - exfalso. destruct Hch; contradiction.
Qed.

Lemma playTurn_over (fuel : nat) (ID : Z) (w w' : world) :
  playTurn fuel ID w = Some w' ->
  exists pA pB, selectPlayer ID w = (Some (pA, pB), w) /\
    ((empty (hands w' pB) <> 0 /\ turn_over (hands w' pA) (out w')) \/
     (empty (hands w' pB) = 0 /\ turn_over (hands w' pB) (out w'))).
Proof.
  intros Hrun. unfold playTurn in Hrun.
  destruct (selectPlayer ID w) as [[[pA pB]|] w0] eqn:Esel; [|discriminate Hrun].
  destruct (selectPlayer_some _ _ _ _ _ Esel) as (-> & _).
  exists pA, pB. split; [reflexivity|]. simpl in Hrun.
  destruct (while_loop fuel (playTurn_first_body fuel ID pA) (1, w)) as [w1|] eqn:E1;
    [|discriminate Hrun]. simpl in Hrun.
  destruct (truthy (empty (hands w1 pB))) eqn:Ee.
  - injection Hrun as <-. left. split; [apply truthy_true, Ee|].
    exact (playTurn_first_over _ _ _ _ _ _ E1).
  - right. apply truthy_false in Ee.
    destruct (playTurn_second_over _ _ _ _ _ Ee Hrun) as [H1 H2]. split; assumption.
Qed.

(** ** No internal error *)

Lemma result_text_verdict (p d : hand) :
  result_text p d = " LOST with " \/ result_text p d = " PUSHED with " \/
  result_text p d = " WON with ".
Proof.
  unfold result_text.
  destruct (truthy (busted p)); [left; reflexivity|].
  destruct (Z.eqb_spec (handvalue p) (handvalue d)); [right; left; reflexivity|].
  destruct (truthy (busted d)); simpl.
  - rewrite andb_false_r, orb_true_r. right; right; reflexivity.
  - rewrite andb_true_r, orb_false_r.
    destruct (Z.ltb_spec (handvalue p) (handvalue d)); [left; reflexivity|].
    destruct (Z.gtb_spec (handvalue p) (handvalue d)); [right; right; reflexivity|lia].
Qed.








(** ** Properties of the round engine beyond the specification *)

(** X1.  [newRound] clears the table: whatever the hands held, each of the
    nine hands is left with all its slots zeroed, no card, value 0, not
    busted, not soft and marked empty; the cursor of the deck is back at 0;
    the shuffle has drawn exactly [SINGLEDECK] numbers from the generator;
    nothing is displayed and no gesture is read. *)
Theorem newRound_clears_table (w : world) :
  (forall p, hand_sized (hands w p)) ->
  (forall p, hands (newRound w) p = cleared_hand) /\
  indexG (newRound w) = 0 /\
  rnd (newRound w) = drop (Z.to_nat SINGLEDECK) (rnd w) /\
  out (newRound w) = out w /\ sensor (newRound w) = sensor w.
Proof.
  intros Hs. destruct (newRound_keeps w) as (Eo & Ese & Ei & Er & Hh).
  split; [intros p; apply Hh, Hs|]. repeat split; assumption.
Qed.

Lemma newRound_clears_table_witness :
  hands (newRound two_kings) p1a = cleared_hand /\
  handsize (hands two_kings p1a) = 2 /\ indexG (newRound two_kings) = 0.
Proof.
  destruct (newRound_clears_table two_kings) as (Hh & Hi & _).
  - intros p. destruct p; vm_compute; repeat split.
  - split; [apply Hh|]. split; [reflexivity|exact Hi].
Defined.

(** X2.  The opening deal of [main] goes round the table twice, seat 1 to
    seat 4 and then the dealer: from a cleared table, seat i holds the
    cards at positions i - 1 and i + 4 of the deck, the dealer those at
    positions 4 and 9, the secondary hands hold nothing, ten cards have
    left the deck and no deal was refused. *)
Theorem opening_deal_order (w : world) :
  (forall p, hand_sized (hands w p) /\ handsize (hands w p) = 0) -> indexG w = 0 ->
  let w' := opening_deal w in
  hand_cards (hands w' p1a) = [card_at w 0; card_at w 5] /\
  hand_cards (hands w' p2a) = [card_at w 1; card_at w 6] /\
  hand_cards (hands w' p3a) = [card_at w 2; card_at w 7] /\
  hand_cards (hands w' p4a) = [card_at w 3; card_at w 8] /\
  hand_cards (hands w' dealer) = [card_at w 4; card_at w 9] /\
  (forall p, p ∈ [p1b; p2b; p3b; p4b] -> hand_cards (hands w' p) = []) /\
  indexG w' = 10 /\ out w' = out w /\ cards w' = cards w.
Proof.
  intros Hh Hi w'. subst w'.
  destruct (opening_deal_dealing w Hh Hi)
    as (f & (Er & Es & Ei & Eo & Hf) & E1 & E2 & E3 & E4 & E5 & E6 & E7 & E8 & E9).
  rewrite <- E1, <- E2, <- E3, <- E4, <- E5.
  split; [apply Hf|]. split; [apply Hf|]. split; [apply Hf|]. split; [apply Hf|].
  split; [apply Hf|]. split; [|split; [exact Ei|split; [exact Eo|]]].
  - intros p Hp. rewrite !elem_of_cons, elem_of_nil in Hp.
    destruct (Hf p) as (_ & _ & ->).
    destruct Hp as [-> | [-> | [-> | [-> | []]]]]; assumption.
  - unfold cards. rewrite Er, Es. reflexivity.
Qed.

Lemma opening_deal_order_witness :
  hand_cards (hands (opening_deal (newRound first_night)) dealer) =
    [card_at (newRound first_night) 4; card_at (newRound first_night) 9] /\
  indexG (opening_deal (newRound first_night)) = 10.
Proof.
  destruct (opening_deal_order (newRound first_night)) as (_ & _ & _ & _ & Hd & _ & Hi & _).
  - intros p. destruct (newRound_keeps first_night) as (_ & _ & _ & _ & Hh).
    rewrite Hh by repeat split. split; repeat split.
  - apply newRound_keeps.
  - split; assumption.
Defined.

(** X3.  A call of [playTurn] that returns was made for one of the four
    seats, and it touches that seat only: no hand but the two hands of the
    seat changes, the deck arrays and the generator are as they were, the
    cursor of the deck has only advanced, the display has only grown and
    the sensor stream was only consumed. *)
Theorem playTurn_touches_own_seat (fuel : nat) (ID : Z) (w w' : world) :
  playTurn fuel ID w = Some w' ->
  exists pA pB, selectPlayer ID w = (Some (pA, pB), w) /\
    (forall q, q <> pA -> q <> pB -> hands w' q = hands w q) /\
    rankG w' = rankG w /\ suitG w' = suitG w /\ rnd w' = rnd w /\
    indexG w <= indexG w' /\ out w `prefix_of` out w' /\ sensor w' `suffix_of` sensor w.
Proof.
  intros Hrun. destruct (playTurn_kept _ _ _ _ Hrun) as (pA & pB & Hsel & Hfr & Ht & _).
  exists pA, pB. split; [exact Hsel|]. split; [exact Hfr|]. exact Ht.
Qed.

Lemma playTurn_touches_own_seat_witness :
  exists w', playTurn classifications P1 five_nine_stay = Some w' /\
    hands w' p2a = hands five_nine_stay p2a /\ hands w' dealer = hands five_nine_stay dealer /\
    rankG w' = rankG five_nine_stay.
Proof.
  destruct (playTurn classifications P1 five_nine_stay) as [w'|] eqn:E;
    [|exfalso; vm_compute in E; discriminate E].
  exists w'. split; [reflexivity|].
  destruct (playTurn_touches_own_seat _ _ _ _ E) as (pA & pB & Hsel & Hfr & Er & _).
  assert (Hseat : (Some (pA, pB), five_nine_stay) = (Some (p1a, p1b), five_nine_stay))
    by (rewrite <- Hsel; reflexivity).
  assert (EA : pA = p1a) by congruence. assert (EB : pB = p1b) by congruence. subst pA pB.
  split; [apply Hfr; discriminate|]. split; [apply Hfr; discriminate|exact Er].
Defined.

(** X4.  A turn ends in one of three ways only.  When [playTurn] returns,
    the hand played last (the secondary hand if the seat has one, the
    primary hand otherwise) is busted and the display says so, or it is
    not busted and stands at exactly 21, or it is not busted, not at 21 and
    the player chose STAY; the display's last text tells which. *)
Theorem playTurn_ends (fuel : nat) (ID : Z) (w w' : world) :
  playTurn fuel ID w = Some w' ->
  exists pA pB, selectPlayer ID w = (Some (pA, pB), w) /\
    let p := if truthy (empty (hands w' pB)) then pA else pB in
    let h := hands w' p in
    (last (out w') = Some "You BUSTED!" /\ busted h <> 0) \/
    (last (out w') = Some "You got TAPJACK!" /\ busted h = 0 /\ handvalue h = 21) \/
    (last (out w') = Some "You stayed!" /\ busted h = 0 /\ handvalue h <> 21).
Proof.
  intros Hrun. destruct (playTurn_over _ _ _ _ Hrun) as (pA & pB & Hsel & H).
  exists pA, pB. split; [exact Hsel|]. cbv zeta.
  destruct H as [[He H]|[He H]].
  - apply truthy_true in He. rewrite He. exact H.
  - apply truthy_false in He. rewrite He. exact H.
Qed.

Lemma playTurn_ends_witness :
  exists w', playTurn classifications P1 five_nine_stay = Some w' /\
    last (out w') = Some "You stayed!" /\ handvalue (hands w' p1a) = 14.
Proof.
  destruct (playTurn classifications P1 five_nine_stay) as [w'|] eqn:E;
    [|exfalso; vm_compute in E; discriminate E].
  exists w'. split; [reflexivity|].
  destruct (playTurn_ends _ _ _ _ E) as (pA & pB & _ & _).
  vm_compute in E. injection E as <-. split; reflexivity.
Defined.

(** X5.  The dealer's turn changes no hand but the dealer's, reads no
    gesture, leaves the deck arrays and the generator as they were and only
    advances the cursor of the deck. *)
Theorem dealerTurn_touches_dealer_only (fuel : nat) (w w' : world) :
  dealerTurn fuel w = Some w' ->
  (forall q, q <> dealer -> hands w' q = hands w q) /\
  sensor w' = sensor w /\ rankG w' = rankG w /\ suitG w' = suitG w /\ rnd w' = rnd w /\
  indexG w <= indexG w' /\ out w `prefix_of` out w'.
Proof.
  intros Hrun. destruct (dealerTurn_kept _ _ _ Hrun) as (Hq & (Er & Es & En & Hi & Ho & _) & Hs & _).
  repeat split; assumption.
Qed.

Lemma dealerTurn_touches_dealer_only_witness :
  exists w', dealerTurn 3 dealer_soft_17 = Some w' /\
    hands w' p1a = hands dealer_soft_17 p1a /\ indexG dealer_soft_17 <= indexG w'.
Proof.
  destruct (dealerTurn 3 dealer_soft_17) as [w'|] eqn:E;
    [|exfalso; vm_compute in E; discriminate E].
  exists w'. split; [reflexivity|].
  destruct (dealerTurn_touches_dealer_only _ _ _ E) as (Hq & _ & _ & _ & _ & Hi & _).
  split; [apply Hq; discriminate|exact Hi].
Defined.

Lemma round_cards (fuel : nat) (w w' : world) :
  round_ready w -> round fuel w = Some w' -> cards w' ≡ₚ cards w.
Proof.
  intros Hready Hrun. unfold round in Hrun.
  destruct (round_play fuel w) as [w1|] eqn:E; [|discriminate Hrun]. simpl in Hrun.
  destruct (round_play_cards_ok _ _ _ Hready E) as [_ Hp].
  destruct (dispResults_out w1) as (w2 & E2 & _ & _ & Er & Es & _).
  rewrite E2 in Hrun. injection Hrun as <-. rewrite <- Hp. unfold cards. rewrite Er, Es.
  reflexivity.
Qed.

Lemma boot_round_ready (rs : list Z) (ds : list Q) :
  Forall (fun r => 0 <= r) rs -> round_ready (initDeck (boot rs ds)).
Proof.
  intros Hrs. split; [split; reflexivity|].
  split; [apply (bool_decide_unpack _); vm_compute; reflexivity|].
  split; [intros p; repeat split|exact Hrs].
Qed.

Lemma rounds_cards (n fuel : nat) (w w' : world) :
  round_ready w -> rounds n fuel w = Some w' -> round_ready w' /\ cards w' ≡ₚ cards w.
Proof.
  revert w. induction n as [|n IH]; intros w Hready Hrun.
  - injection Hrun as <-. split; [exact Hready|reflexivity].
  - simpl in Hrun. destruct (round fuel w) as [w1|] eqn:E; [|discriminate Hrun].
    simpl in Hrun.
    destruct (IH w1 (round_ready_next _ _ _ Hready E) Hrun) as [H1 H2].
    split; [exact H1|]. rewrite H2. exact (round_cards _ _ _ Hready E).
Qed.

(** X6.  A round loses and invents no card.  When the dealer's turn is over
    the hands hold, between them, exactly the cards that have left the
    deck, each where it was dealt or moved by a split; the deck is the deck
    the round started with, shuffled; so with a deck of distinct cards no
    card is in two hands or twice in one. *)
Theorem round_conserves_cards (fuel : nat) (w w' : world) :
  round_ready w -> round_play fuel w = Some w' ->
  dealt_cards w' ≡ₚ take (Z.to_nat (indexG w')) (cards w') /\
  cards w' ≡ₚ cards w /\ 0 <= indexG w' <= SINGLEDECK /\
  (NoDup (cards w) -> NoDup (dealt_cards w')).
Proof.
  intros Hready Hrun.
  destruct (round_play_cards_ok _ _ _ Hready Hrun) as [(_ & _ & Hi & Hd) Hp].
  split; [exact Hd|]. split; [exact Hp|]. split; [exact Hi|].
  intros Hnd. rewrite Hd. rewrite <- Hp in Hnd.
  rewrite <- (take_drop (Z.to_nat (indexG w')) (cards w')) in Hnd.
  apply NoDup_app in Hnd. apply Hnd.
Qed.

Lemma round_conserves_cards_witness :
  round_ready first_night /\
  exists w', round_play classifications first_night = Some w' /\
    NoDup (dealt_cards w') /\ length (dealt_cards w') = Z.to_nat (indexG w').
Proof.
  assert (Hr : round_ready first_night).
  { apply boot_round_ready. apply (bool_decide_unpack _). vm_compute. reflexivity. }
  split; [exact Hr|].
  destruct (round_play classifications first_night) as [w'|] eqn:E;
    [|exfalso; vm_compute in E; discriminate E].
  exists w'. split; [reflexivity|].
  destruct (round_conserves_cards _ _ _ Hr E) as (Hd & Hp & Hi & Hnd).
  split.
  - apply Hnd. unfold first_night. rewrite initDeck_cards by (split; reflexivity).
    apply standard_deck_NoDup.
  - rewrite Hd, length_take.
    assert (Hl : length (cards w') = 52%nat).
    { rewrite Hp. unfold first_night. rewrite initDeck_cards by (split; reflexivity).
      reflexivity. }
    rewrite Hl. unfold SINGLEDECK in Hi. lia.
Defined.

(** X7.  [main] plays every round with the 52 standard cards: after any
    number of rounds the deck holds each (rank, suit) pair once, in some
    order, and the deck and hand arrays have their declared sizes. *)
Theorem main_deck_standard (n fuel : nat) (rs : list Z) (ds : list Q) (w : world) :
  Forall (fun r => 0 <= r) rs ->
  rounds n fuel (initDeck (boot rs ds)) = Some w ->
  cards w ≡ₚ standard_deck /\ NoDup (cards w) /\ deck_sized w /\
  (forall p, hand_sized (hands w p)).
Proof.
  intros Hrs Hrun.
  destruct (rounds_cards n fuel _ w (boot_round_ready rs ds Hrs) Hrun) as [Hready Hp].
  rewrite initDeck_cards in Hp by (split; reflexivity).
  split; [exact Hp|]. split; [rewrite Hp; apply standard_deck_NoDup|].
  destruct Hready as (Hsz & _ & Hh & _). split; assumption.
Qed.

Lemma main_deck_standard_witness :
  exists w, rounds 1 classifications first_night = Some w /\ cards w ≡ₚ standard_deck.
Proof.
  destruct (rounds 1 classifications first_night) as [w|] eqn:E;
    [|exfalso; vm_compute in E; discriminate E].
  exists w. split; [reflexivity|]. unfold first_night in E.
  destruct (fun H => main_deck_standard _ _ _ _ _ H E) as (Hp & _);
    [apply (bool_decide_unpack _); vm_compute; reflexivity|exact Hp].
Defined.



(** X9.  In every round [main] plays, when the dealer's turn is over the
    flags of every hand agree with its value: a hand is busted exactly when
    its value is above 21, a busted hand has no soft Ace left, and the
    [busted] flag is 0 or 1. *)
Theorem main_round_flags (n fuel : nat) (rs : list Z) (ds : list Q) (w w' : world) (p : hid) :
  Forall (fun r => 0 <= r) rs ->
  rounds n fuel (initDeck (boot rs ds)) = Some w ->
  round_play fuel w = Some w' ->
  let h := hands w' p in
  (busted h <> 0 <-> 21 < handvalue h) /\ (busted h = 0 \/ busted h = 1) /\
  (busted h <> 0 -> soft h = 0) /\ 0 <= soft h.
Proof.
  intros Hrs Hn Hrun h.
  pose proof (main_rounds_ready n fuel rs ds w Hrs Hn) as Hready.
  destruct (round_play_table_ok fuel w w' Hready Hrun) as [_ Hc].
  destruct (Hc p) as [Hs [[Hb Hv]|(Hb & Hv & Hso)]]; fold h in Hs, Hb, Hv |- *;
    try fold h in Hso; repeat split; try intros; try lia.
Qed.

Lemma main_round_flags_witness :
  exists w', round_play classifications first_night = Some w' /\
    (busted (hands w' p3a) <> 0 <-> 21 < handvalue (hands w' p3a)).
Proof.
  destruct (round_play classifications first_night) as [w'|] eqn:E;
    [|exfalso; vm_compute in E; discriminate E].
  exists w'. split; [reflexivity|].
  refine (proj1 (main_round_flags 0 classifications _ _ _ w' p3a _ (eq_refl : rounds 0 _ first_night = _) E)).
  apply (bool_decide_unpack _). vm_compute. reflexivity.
Defined.

(** ** The deck never runs out *)

Lemma hard_sum_app (l k : list Z) : hard_sum (l ++ k) = hard_sum l + hard_sum k.
Proof.
  unfold hard_sum. induction l as [|x l IH]; [reflexivity|]. simpl. rewrite IH. lia.
Qed.

Lemma hard_sum_perm (l k : list Z) : l ≡ₚ k -> hard_sum l = hard_sum k.
Proof.
  unfold hard_sum. induction 1 as [|x l k _ IH|x y l|l k m _ IH1 _ IH2]; simpl; lia.
Qed.

Lemma filter_length_submseteq {A} (P : A -> Prop) `{forall x, Decision (P x)} (l k : list A) :
  l ⊆+ k -> (length (filter P l) <= length (filter P k))%nat.
Proof.
  induction 1 as [|x l k _ IH|x y l|x l k _ IH|l k m _ IH1 _ IH2];
    rewrite ?filter_cons; repeat case_decide; simpl; lia.
Qed.

Lemma bind_elem_submseteq {A B} (f : A -> list B) (x : A) (l : list A) :
  x ∈ l -> f x ⊆+ l ≫= f.
Proof.
  induction l as [|y l IH]; intros Hx; [apply elem_of_nil in Hx; contradiction|].
  change ((y :: l) ≫= f) with (f y ++ (l ≫= f)).
  apply elem_of_cons in Hx as [->|Hx].
  - apply submseteq_inserts_r. reflexivity.
  - apply submseteq_inserts_l, IH, Hx.
Qed.

(** The ranks of a hand are ranks of cards of the deck, each as often as
    the deck has it at most. *)
Lemma hand_ranks_submseteq (w : world) (p : hid) :
  cards_ok w -> cards w ≡ₚ standard_deck -> hand_ranks (hands w p) ⊆+ standard_deck.*1.
Proof.
  intros (_ & _ & _ & Hd) Hstd. unfold hand_ranks.
  apply fmap_submseteq. rewrite <- Hstd.
  etrans; [apply (bind_elem_submseteq (fun q => hand_cards (hands w q)) p all_hands),
                 all_hands_elem|].
  fold (dealt_cards w). rewrite Hd. apply submseteq_take.
Qed.

Lemma hand_ranks_lower (w : world) (p : hid) :
  cards_ok w -> cards w ≡ₚ standard_deck ->
  Forall rank_ok (hand_ranks (hands w p)) /\
  3 * Z.of_nat (length (hand_ranks (hands w p))) - 12 <= hard_sum (hand_ranks (hands w p)).
Proof.
  intros Hc Hstd. pose proof (hand_ranks_submseteq w p Hc Hstd) as Hsub.
  assert (Hok : Forall rank_ok (hand_ranks (hands w p))).
  { apply Forall_forall. intros r Hr. pose proof (elem_of_submseteq _ _ _ Hr Hsub) as Hin.
    clear Hr. revert r Hin. apply Forall_forall. apply (bool_decide_unpack _).
    vm_compute. reflexivity. }
  split; [exact Hok|].
  pose proof (filter_length_submseteq (fun r => r = 1) _ _ Hsub) as H1.
  pose proof (filter_length_submseteq (fun r => r = 2) _ _ Hsub) as H2.
  change (length (filter (fun r => r = 1) standard_deck.*1)) with 4%nat in H1.
  change (length (filter (fun r => r = 2) standard_deck.*1)) with 4%nat in H2.
  pose proof (hard_sum_lower _ Hok). lia.
Qed.

Lemma hand_ranks_length (h : hand) :
  hand_sized h -> 0 <= handsize h ->
  length (hand_ranks h) = Nat.min (Z.to_nat (handsize h)) (Z.to_nat MAXHAND).
Proof.
  intros (Hr & Hs & _) Hn. unfold hand_ranks, hand_cards.
  rewrite length_fmap, length_take, length_zip_with_l_eq by lia. rewrite Hr. reflexivity.
Qed.

Lemma val_ok_upper (h : hand) : val_ok h -> hard_sum (hand_ranks h) <= 34.
Proof. unfold val_ok, hard_total. lia. Qed.

(** A table on which every card has left the deck: impossible, the hands
    cannot hold the value of the whole deck. *)
Lemma deck_not_exhausted (w : world) : sound w -> indexG w < SINGLEDECK.
Proof.
  intros (_ & Hc & Hstd & Hv).
  pose proof Hc as (_ & [Hlr Hls] & Hi & Hd).
  destruct (Z_lt_le_dec (indexG w) SINGLEDECK) as [Hlt|Hge]; [exact Hlt|exfalso].
  assert (E : indexG w = 52) by (unfold SINGLEDECK in *; lia).
  rewrite E in Hd. rewrite take_ge in Hd
    by (unfold cards; rewrite length_zip_with_l_eq by lia; rewrite Hlr; reflexivity).
  assert (Hsum : hard_sum (dealt_cards w).*1 = 340).
  { rewrite (hard_sum_perm _ (standard_deck.*1)); [reflexivity|]. rewrite Hd, Hstd. reflexivity. }
  unfold dealt_cards, all_hands in Hsum. cbn [mbind list_bind] in Hsum.
  rewrite !fmap_app, !hard_sum_app in Hsum. cbn [fmap list_fmap hard_sum foldr] in Hsum.
  pose proof (val_ok_upper _ (Hv p1a)). pose proof (val_ok_upper _ (Hv p1b)).
  pose proof (val_ok_upper _ (Hv p2a)). pose proof (val_ok_upper _ (Hv p2b)).
  pose proof (val_ok_upper _ (Hv p3a)). pose proof (val_ok_upper _ (Hv p3b)).
  pose proof (val_ok_upper _ (Hv p4a)). pose proof (val_ok_upper _ (Hv p4b)).
  pose proof (val_ok_upper _ (Hv dealer)).
  unfold hand_ranks in *. lia.
Qed.

(** A hand that stands at 20 or less has room for a card. *)
Lemma hand_not_full (w : world) (p : hid) :
  sound w -> handvalue (hands w p) <= 20 -> handsize (hands w p) < MAXHAND.
Proof.
  intros (_ & Hc & Hstd & Hv) H20.
  destruct (Z_lt_le_dec (handsize (hands w p)) MAXHAND) as [Hlt|Hge]; [exact Hlt|exfalso].
  destruct (hand_ranks_lower w p Hc Hstd) as [_ Hlow].
  destruct Hc as (Hh & _). destruct (Hh p) as [Hs H0].
  rewrite (hand_ranks_length _ Hs H0) in Hlow.
  destruct (Hv p) as (Hso & Hsum & _). unfold hard_total, MAXHAND in *.
  rewrite Nat.min_r in Hlow by lia. lia.
Qed.

(** Every deal of a round is made to a hand that stands at 20 or less: it
    is not refused, and it keeps the table sound. *)
Lemma deal_site (p : hid) (w : world) :
  sound w -> handvalue (hands w p) <= 20 ->
  sound (dealCard p w) /\ out (dealCard p w) = out w /\
  (exact_hand (hands w p) -> exact_hand (hands (dealCard p w) p)).
Proof.
  intros Hsound H20.
  pose proof (deck_not_exhausted w Hsound) as Hi.
  pose proof (hand_not_full w p Hsound H20) as Hn.
  destruct Hsound as (Hok & Hc & Hstd & Hv).
  destruct (dealCard_dealt p w Hi Hn)
    as (_ & Er & Es & Eo & _ & _ & Hother & _ & _ & _ & _ & _ & Hle & Hdem & Hbust).
  destruct (Hv p) as (Hso & Hsum & H31).
  destruct (dealCard_hard_total p w Hi Hn Hso) as [Hso' Eht].
  destruct Hc as (Hh & Hc'). destruct (Hh p) as [Hsz H0].
  pose proof (dealCard_appends p w Hi Hn H0 Hsz) as Eapp.
  assert (Er' : hand_ranks (hands (dealCard p w) p) =
                hand_ranks (hands w p) ++ [arr_get (rankG w) (indexG w)]).
  { unfold hand_ranks. rewrite Eapp, fmap_app. reflexivity. }
  assert (Hrk : rank_ok (arr_get (rankG w) (indexG w))).
  { apply (deck_ok_next w); [apply Hok|exact Hi]. }
  assert (Esum : hard_sum (hand_ranks (hands (dealCard p w) p)) =
                 hard_sum (hand_ranks (hands w p)) + hard_value (arr_get (rankG w) (indexG w))).
  { rewrite Er', hard_sum_app. unfold hard_sum. simpl. lia. }
  split; [|split; [exact Eo|]].
  - split; [apply dealCard_table_ok; [exact Hok|lia]|].
    split; [apply dealCard_cards_ok; split; assumption|].
    split; [unfold cards; rewrite Er, Es; exact Hstd|].
    intros q. destruct (decide (q = p)) as [->|Hq]; [|rewrite (Hother q Hq); apply Hv].
    split; [exact Hso'|]. split; [rewrite Esum, Eht; lia|].
    revert Hle Hdem Hbust. unfold rank_ok in Hrk.
    set (r := arr_get (rankG w) (indexG w)) in *.
    set (pts := if r =? 1 then 11 else if (10 <=? r) && (r <=? 13) then 10 else r).
    assert (Hpts : pts <= 11).
    { subst pts. destruct (r =? 1); [lia|]. destruct (Z.leb_spec 10 r); simpl; [|lia].
      destruct (Z.leb_spec r 13); simpl; lia. }
    clearbody pts. generalize (if r =? 1 then soft (hands w p) + 1 else soft (hands w p)).
    intros sft Hle Hdem Hbust.
    destruct (Z_le_gt_dec (handvalue (hands w p) + pts) 21) as [Hv21|Hv21];
      [destruct (Hle Hv21) as (-> & _); lia|].
    destruct (Z_lt_le_dec 0 sft) as [Hp|Hp];
      [destruct (Hdem ltac:(lia) Hp) as (-> & _)|destruct (Hbust ltac:(lia) Hp) as (-> & _)]; lia.
  - unfold exact_hand. intros Ex. rewrite Esum, Eht, Ex. reflexivity.
Qed.

Lemma sound_ext (w w1 : world) :
  hands w1 = hands w -> rankG w1 = rankG w -> suitG w1 = suitG w ->
  indexG w1 = indexG w -> sound w -> sound w1.
Proof.
  intros Eh Er Es Ei (Hok & Hc & Hstd & Hv).
  split; [exact (table_ok_ext w w1 Eh Er Es Ei Hok)|].
  split; [exact (cards_ok_ext w w1 Eh Er Es Ei Hc)|].
  split; [unfold cards; rewrite Er, Es; exact Hstd|].
  rewrite Eh. exact Hv.
Qed.

Lemma refusals_send (s : string) (w : world) :
  s <> deal_error -> refusals (send s w) = refusals w.
Proof.
  intros Hs. unfold refusals. simpl. rewrite filter_app, filter_cons_False by exact Hs.
  apply app_nil_r.
Qed.

Lemma refusals_out (w w1 : world) : out w1 = out w -> refusals w1 = refusals w.
Proof. intros E. unfold refusals. rewrite E. reflexivity. Qed.

Lemma userInput_sound_table (fuel : nat) (s : string) (w w1 : world) (a : Z) :
  s <> deal_error -> userInput fuel (send s w) = Some (a, w1) ->
  hands w1 = hands w /\ refusals w1 = refusals w /\ (sound w -> sound w1).
Proof.
  intros Hs H. destruct (userInput_frame _ _ _ _ H) as (Eh & Er & Es & Ei & Eo & _).
  split; [exact Eh|]. split.
  - unfold refusals. rewrite Eo. apply (refusals_send s w Hs).
  - apply sound_ext; assumption.
Qed.

(** The card move of a split of a pair keeps the table sound and leaves
    both hands at 20 or less. *)
Lemma split_move_sound (pA pB : hid) (w : world) :
  pA <> pB -> sound w -> exact_hand (hands w pA) ->
  handsize (hands w pA) = 2 -> busted (hands w pA) = 0 ->
  arr_get (rank (hands w pA)) 0 = arr_get (rank (hands w pA)) 1 ->
  rank_ok (arr_get (rank (hands w pA)) 1) ->
  opening_hand 0 (hands w pB) ->
  let m := split_move pA pB w in
  sound m /\ handvalue (hands m pA) <= 20 /\ handvalue (hands m pB) <= 20 /\ out m = out w.
Proof.
  intros Hne (Hok & Hc & Hstd & Hv) Hex HnA HbA Heq Hr (_ & HnB & HbB & _ & HvB & _) m.
  destruct (HvB eq_refl) as [HvB0 HsB0].
  destruct (split_move_values pA pB w Hne)
    as (_ & _ & _ & _ & EbA & EbB & _ & Hfr & Ei & Er & Es & Eo & Hace & Hnon).
  pose proof Hc as (Hh & _).
  destruct (split_move_cards pA pB w Hne (proj1 (Hh pA)) (proj1 (Hh pB)) HnA HnB)
    as (EcA & _ & EcA' & EcB' & _ & _).
  fold m in EbA, EbB, Hfr, Ei, Er, Es, Eo, Hace, Hnon, EcA', EcB'.
  assert (HrA : hand_ranks (hands m pA) = [arr_get (rank (hands w pA)) 1])
    by (unfold hand_ranks; rewrite EcA'; simpl; rewrite Heq; reflexivity).
  assert (HrB : hand_ranks (hands m pB) = [arr_get (rank (hands w pA)) 1])
    by (unfold hand_ranks; rewrite EcB'; reflexivity).
  unfold exact_hand, hand_ranks in Hex. rewrite EcA in Hex. simpl in Hex. rewrite Heq in Hex.
  destruct Hok as [Hd Hcons].
  destruct (Hcons pA) as [HsA [[_ HvA]|[HbA' _]]]; [|congruence].
  destruct (Hv pA) as (_ & _ & _).
  unfold rank_ok in Hr. revert Hex HrA HrB Hace Hnon.
  set (r := arr_get (rank (hands w pA)) 1). intros Hex HrA HrB Hace Hnon.
  assert (Hhv : hard_value r <= r <= hard_value r + 3 /\ (r = 1 -> hard_value r = 1) /\
                (r <> 1 -> 2 <= hard_value r)).
  { unfold hard_value. destruct (Z.eqb_spec r 1); [lia|].
    destruct (Z.leb_spec 10 r), (Z.leb_spec r 13); simpl; lia. }
  unfold hard_total in Hex. cbn [hard_sum foldr] in Hex.
  assert (Hvals : (0 <= soft (hands m pA) /\
                   hard_value r <= handvalue (hands m pA) - 10 * soft (hands m pA) + 3 /\
                   handvalue (hands m pA) <= 20) /\
                  (0 <= soft (hands m pB) /\
                   hard_value r <= handvalue (hands m pB) - 10 * soft (hands m pB) + 3 /\
                   handvalue (hands m pB) <= 20)).
  { destruct (Z.eq_dec r 1) as [E1|E1].
    - destruct (Hace E1) as (-> & -> & -> & ->). lia.
    - destruct (Hnon E1) as (-> & -> & -> & ->). lia. }
  destruct Hvals as [(SA & TA & VA) (SB & TB & VB)].
  split; [|split; [exact VA|split; [exact VB|exact Eo]]].
  split; [|split; [|split]].
  - split; [unfold deck_ok, deck_sized; rewrite Er, Es, Ei; exact Hd|].
    intros q. destruct (decide (q = pA)) as [->|HqA]; [|destruct (decide (q = pB)) as [->|HqB]].
    + unfold hand_consistent. rewrite EbA. lia.
    + unfold hand_consistent. rewrite EbB. lia.
    + rewrite Hfr by assumption. apply Hcons.
  - apply split_move_cards_ok; assumption.
  - unfold cards. rewrite Er, Es. exact Hstd.
  - intros q. destruct (decide (q = pA)) as [->|HqA]; [|destruct (decide (q = pB)) as [->|HqB]].
    + unfold val_ok, hard_total. rewrite HrA. cbn [hard_sum foldr]. lia.
    + unfold val_ok, hard_total. rewrite HrB. cbn [hard_sum foldr]. lia.
    + rewrite Hfr by assumption. apply Hv.
Qed.

Lemma not_busted_below_21 (w : world) (p : hid) :
  table_ok w -> truthy (busted (hands w p)) = false -> handvalue (hands w p) <> 21 ->
  handvalue (hands w p) <= 20.
Proof.
  intros [_ Hc] Hb Hv. apply truthy_false in Hb.
  destruct (Hc p) as [_ [[_ H]|[H _]]]; [lia|congruence].
Qed.

Ltac not_deal_error := let H := fresh in intros H; vm_compute in H; discriminate H.

Lemma playTurn_first_body_sound (fuel : nat) (ID : Z) (pA pB : hid) (w : world)
    (s : Z * world) (c : ctl (Z * world) world) :
  (forall w0, selectPlayer ID w0 = (Some (pA, pB), w0)) -> pA <> pB ->
  first_loop_sound pA pB w s ->
  playTurn_first_body fuel ID pA s = Some c ->
  match c with
  | Continue s' => first_loop_sound pA pB w s'
  | Return r => sound r /\ frame pA pB w r /\ refusals r = refusals w
  end.
Proof.
  intros Hsel Hne (H1 & H2 & Hstd & Hv & Href & Hex) Hrun.
  pose proof (playTurn_first_body_inv fuel ID pA pB w s c Hsel Hne H1 Hrun) as P1.
  pose proof (playTurn_first_body_cards fuel ID pA pB s c Hsel Hne H2 Hrun) as P2.
  destruct s as [a w1]. cbn [fst snd] in *.
  assert (Hsound : sound w1).
  { split; [apply H1|]. split; [apply H2|]. split; assumption. }
  assert (Hne' : pB <> pA) by congruence.
  unfold playTurn_first_body in Hrun.
  destruct ((arr_get (rank (hands w1 pA)) 0 =? arr_get (rank (hands w1 pA)) 1) && truthy a)
    eqn:Eg.
  - apply split_offered_guard in Eg. destruct Eg as [Eeq Ha].
    destruct H1 as (_ & _ & Hopen). destruct (Hopen Ha) as (_ & Hr & HB & Hb).
    specialize (Hb Eeq). destruct H2 as (_ & Hopen2). destruct (Hopen2 Ha) as (_ & _ & Hn2).
    specialize (Hn2 Eeq). specialize (Hex Ha).
    cbv zeta in Hrun.
    destruct (userInput fuel (send "SPLIT? (HIT for YES) (STAY for NO)" w1))
      as [[ch w2]|] eqn:Eu; [|discriminate Hrun].
    destruct (fun H => userInput_sound_table _ _ _ _ _ H Eu) as (Eh & Er2 & Hs2);
      [not_deal_error|].
    specialize (Hs2 Hsound).
    simpl in Hrun. destruct (ch =? HIT).
    + destruct (split ID w2) as [w3|] eqn:Esp; [|discriminate Hrun].
      simpl in Hrun. injection Hrun as <-.
      split; [exact P1|]. split; [exact P2|]. cbn [fst snd].
      unfold split in Esp. rewrite Hsel in Esp. simpl in Esp. injection Esp as <-.
      set (ws := send "You split!" w2).
      assert (Hsws : sound ws) by (revert Hs2; apply sound_ext; reflexivity).
      destruct (split_move_sound pA pB ws Hne Hsws) as (Hm & HvA & HvB & Eo);
        try (change (hands ws) with (hands w2); rewrite Eh; assumption).
      destruct (deal_site pA _ Hm HvA) as (Hm2 & Eo2 & _).
      destruct (deal_site pB (dealCard pA (split_move pA pB ws)) Hm2) as (Hm3 & Eo3 & _);
        [rewrite dealCard_other by exact Hne'; exact HvB|].
      split; [apply Hm3|]. split; [apply Hm3|]. split; [|intros H; contradiction].
      rewrite (refusals_out ws) by congruence.
      unfold ws. rewrite refusals_send by not_deal_error. congruence.
    + simpl in Hrun. injection Hrun as <-.
      split; [exact P1|]. split; [exact P2|]. cbn [fst snd].
      split; [apply Hs2|]. split; [apply Hs2|]. split; [congruence|intros H; contradiction].
  - destruct (truthy (busted (hands w1 pA))) eqn:Eb.
    { injection Hrun as <-. destruct P1 as [_ Hfr].
      split; [revert Hsound; apply sound_ext; reflexivity|]. split; [exact Hfr|].
      rewrite refusals_send by not_deal_error. exact Href. }
    destruct (Z.eqb_spec (handvalue (hands w1 pA)) 21) as [E21|E21].
    { injection Hrun as <-. destruct P1 as [_ Hfr].
      split; [revert Hsound; apply sound_ext; reflexivity|]. split; [exact Hfr|].
      rewrite refusals_send by not_deal_error. exact Href. }
    cbv zeta in Hrun.
    destruct (userInput fuel (send "HIT or STAY?" w1)) as [[choice w2]|] eqn:Eu;
      [|discriminate Hrun].
    destruct (fun H => userInput_sound_table _ _ _ _ _ H Eu) as (Eh & Er2 & Hs2);
      [not_deal_error|].
    specialize (Hs2 Hsound). simpl in Hrun.
    destruct (choice =? HIT); [|destruct (choice =? STAY)]; injection Hrun as <-.
    + split; [exact P1|]. split; [exact P2|]. cbn [fst snd].
      set (wh := send "You hit!" w2).
      assert (Hswh : sound wh) by (revert Hs2; apply sound_ext; reflexivity).
      assert (Ehh : hands wh = hands w1) by exact Eh.
      destruct (deal_site pA wh Hswh) as (Hd & Eo & Hexd).
      { rewrite Ehh. apply not_busted_below_21; [apply Hsound|exact Eb|exact E21]. }
      split; [apply Hd|]. split; [apply Hd|]. split.
      * rewrite (refusals_out wh) by exact Eo.
        unfold wh. rewrite refusals_send by not_deal_error. congruence.
      * intros Ha. apply Hexd. rewrite Ehh. apply Hex, Ha.
    + destruct P1 as [_ Hfr].
      split; [revert Hs2; apply sound_ext; reflexivity|]. split; [exact Hfr|].
      rewrite refusals_send by not_deal_error. congruence.
    + destruct P1 as [_ Hfr].
      split; [revert Hs2; apply sound_ext; reflexivity|]. split; [exact Hfr|].
      rewrite refusals_send by not_deal_error. congruence.
Qed.

Lemma playTurn_second_body_sound (fuel : nat) (pB : hid) (w w1 : world) (c : ctl world world) :
  sound w1 /\ refusals w1 = refusals w ->
  playTurn_second_body fuel pB w1 = Some c ->
  match c with
  | Continue w2 => sound w2 /\ refusals w2 = refusals w
  | Return r => sound r /\ refusals r = refusals w
  end.
Proof.
  intros [Hsound Href] Hrun. unfold playTurn_second_body in Hrun.
  destruct (truthy (busted (hands w1 pB))) eqn:Eb.
  { injection Hrun as <-.
    split; [revert Hsound; apply sound_ext; reflexivity|].
    rewrite refusals_send by not_deal_error. exact Href. }
  destruct (Z.eqb_spec (handvalue (hands w1 pB)) 21) as [E21|E21].
  { injection Hrun as <-.
    split; [revert Hsound; apply sound_ext; reflexivity|].
    rewrite refusals_send by not_deal_error. exact Href. }
  cbv zeta in Hrun.
  destruct (userInput fuel (send "HIT or STAY?" w1)) as [[choice w2]|] eqn:Eu;
    [|discriminate Hrun].
  destruct (fun H => userInput_sound_table _ _ _ _ _ H Eu) as (Eh & Er2 & Hs2);
      [not_deal_error|].
  specialize (Hs2 Hsound). simpl in Hrun.
  destruct (choice =? HIT); [|destruct (choice =? STAY)]; injection Hrun as <-.
  - set (wh := send "You hit!" w2).
    assert (Hswh : sound wh) by (revert Hs2; apply sound_ext; reflexivity).
    assert (Ehh : hands wh = hands w1) by exact Eh.
    destruct (deal_site pB wh Hswh) as (Hd & Eo & _).
    { rewrite Ehh. apply not_busted_below_21; [apply Hsound|exact Eb|exact E21]. }
    split; [exact Hd|].
    rewrite (refusals_out wh) by exact Eo.
    unfold wh. rewrite refusals_send by not_deal_error. congruence.
  - split; [revert Hs2; apply sound_ext; reflexivity|].
    rewrite refusals_send by not_deal_error. congruence.
  - split; [revert Hs2; apply sound_ext; reflexivity|].
    rewrite refusals_send by not_deal_error. congruence.
Qed.

(** The turn of a fresh seat, in a round played with the 52 standard cards,
    is dealt every card it asks for. *)
Lemma playTurn_sound (fuel : nat) (ID : Z) (pA pB : hid) (w w' : world) :
  (forall w0, selectPlayer ID w0 = (Some (pA, pB), w0)) -> pA <> pB ->
  sound w -> seat_fresh pA pB w -> exact_hand (hands w pA) ->
  playTurn fuel ID w = Some w' ->
  sound w' /\ refusals w' = refusals w.
Proof.
  intros Hsel Hne Hsound Hfresh Hex Hrun.
  pose proof Hfresh as [HA HB].
  unfold playTurn in Hrun. rewrite Hsel in Hrun. simpl in Hrun.
  destruct (while_loop fuel (playTurn_first_body fuel ID pA) (1, w)) as [w1|] eqn:E1;
    [|discriminate Hrun]. simpl in Hrun.
  assert (H1 : sound w1 /\ frame pA pB w w1 /\ refusals w1 = refusals w).
  { apply (while_loop_inv (first_loop_sound pA pB w)
             (fun r => sound r /\ frame pA pB w r /\ refusals r = refusals w)
             (playTurn_first_body fuel ID pA)) with (n := fuel) (s := (1, w)); [| |exact E1].
    - intros s c Hs Hb. exact (playTurn_first_body_sound fuel ID pA pB w s c Hsel Hne Hs Hb).
    - destruct Hsound as (Hok & Hc & Hstd & Hv).
      destruct HA as (_ & En & Eb & _ & _ & _ & H2). destruct (H2 eq_refl) as [_ Hr].
      destruct HB as (HsB & EnB & HB').
      split; [|split; [|split; [exact Hstd|split; [exact Hv|split; [reflexivity|]]]]].
      + split; [exact Hok|]. split; [intros q _ _; reflexivity|]. intros _.
        split; [lia|]. split; [exact Hr|]. split; [exact (conj HsB (conj EnB HB'))|].
        intros _. exact Eb.
      + split; [exact Hc|]. intros _. split; [exact EnB|]. split; [lia|]. intros _. exact En.
      + intros _. exact Hex. }
  destruct H1 as (Hs1 & _ & Hr1).
  destruct (truthy (empty (hands w1 pB))).
  - injection Hrun as <-. split; assumption.
  - apply (while_loop_inv (fun v => sound v /\ refusals v = refusals w)
             (fun r => sound r /\ refusals r = refusals w)
             (playTurn_second_body fuel pB)) with (n := fuel) (s := w1);
      [|split; assumption|exact Hrun].
    intros s c Hs Hb. exact (playTurn_second_body_sound fuel pB w s c Hs Hb).
Qed.

Lemma dealerTurn_sound (n : nat) (w w' : world) :
  sound w -> dealerTurn n w = Some w' -> sound w' /\ refusals w' = refusals w.
Proof.
  unfold dealerTurn. intros Hsound.
  apply (while_loop_inv (fun v => sound v /\ refusals v = refusals w)
           (fun r => sound r /\ refusals r = refusals w) dealer_body);
    [|split; [exact Hsound|reflexivity]].
  intros s c [Hs Hr] Hb.
  destruct (dealer_body_cases s) as [[Hd E]|(_ & _ & msg & E)].
  - rewrite E in Hb. injection Hb as <-.
    set (wh := send "Dealer hits!" s).
    assert (Hswh : sound wh) by (revert Hs; apply sound_ext; reflexivity).
    destruct (deal_site dealer wh Hswh) as (Hd' & Eo & _).
    { change (hands wh) with (hands s). destruct Hd as [_ [Hlt|[H17 _]]]; lia. }
    split; [exact Hd'|].
    rewrite (refusals_out wh) by exact Eo.
    unfold wh. rewrite refusals_send by not_deal_error. exact Hr.
  - unfold dealer_body in Hb, E.
    destruct (truthy (busted (hands s dealer))).
    + injection Hb as <-. split; [revert Hs; apply sound_ext; reflexivity|].
      rewrite refusals_send by not_deal_error. exact Hr.
    + destruct (_ || _).
      * discriminate E.
      * injection Hb as <-. split; [revert Hs; apply sound_ext; reflexivity|].
        rewrite refusals_send by not_deal_error. exact Hr.
Qed.

Lemma opening_hand_exact (h : hand) : opening_hand 0 h -> val_ok h /\ exact_hand h.
Proof.
  intros (_ & En & _ & _ & H0 & _). destruct (H0 eq_refl) as [Ev Es].
  unfold val_ok, exact_hand, hard_total, hand_ranks, hand_cards.
  rewrite En, Ev, Es. simpl. lia.
Qed.

Lemma newRound_sound (w : world) :
  round_ready w -> cards w ≡ₚ standard_deck ->
  sound (newRound w) /\ (forall q, exact_hand (hands (newRound w) q)) /\
  refusals (newRound w) = refusals w.
Proof.
  intros Hready Hstd.
  destruct (newRound_opening w Hready) as (Hd & Hi & _ & Hh).
  destruct (newRound_cards_ok w Hready) as [Hc Hperm].
  split; [|split].
  - split; [|split; [exact Hc|split; [rewrite Hperm; exact Hstd|]]].
    + split; [exact Hd|]. intros q. apply (opening_hand_consistent 0); [left; reflexivity|apply Hh].
    + intros q. apply opening_hand_exact, Hh.
  - intros q. apply opening_hand_exact, Hh.
  - apply refusals_out. apply newRound_keeps.
Qed.

Lemma opening_sound_step (w0 : world) (i : Z) (cnt : hid -> Z) (p : hid) (w : world) :
  opening_sound w0 i cnt w -> 0 <= cnt p < 2 ->
  opening_sound w0 (i + 1) (fun q => if decide (q = p) then cnt p + 1 else cnt q) (dealCard p w).
Proof.
  intros (Hop & Hs & Hex & Eo) Hk.
  pose proof (deck_not_exhausted w Hs) as Hi.
  assert (Hi' : i < SINGLEDECK) by (destruct Hop as (_ & <- & _); exact Hi).
  assert (H20 : handvalue (hands w p) <= 20).
  { destruct Hop as (_ & _ & Hh). destruct (Hh p) as (_ & _ & _ & _ & H0 & H1 & _).
    destruct (Z.eq_dec (cnt p) 0) as [E|E]; [destruct (H0 E); lia|].
    assert (H : handvalue (hands w p) <= 11) by (apply H1; lia). lia. }
  destruct (deal_site p w Hs H20) as (Hs' & Eo' & Hex').
  split; [exact (opening_step i cnt p w Hop Hi' Hk)|]. split; [exact Hs'|].
  split; [|congruence].
  intros q. destruct (decide (q = p)) as [->|Hq]; [apply Hex', Hex|].
  rewrite dealCard_other by exact Hq. apply Hex.
Qed.

Ltac sound_step H p :=
  let H' := fresh "Hos" in
  pose proof (opening_sound_step _ _ _ p _ H ltac:(vm_compute; split; [discriminate|reflexivity]))
    as H';
  clear H; rename H' into H.

Lemma opening_deal_sound (w : world) :
  opening 0 (fun _ => 0) w -> sound w -> (forall q, exact_hand (hands w q)) ->
  sound (opening_deal w) /\ (forall q, exact_hand (hands (opening_deal w) q)) /\
  out (opening_deal w) = out w.
Proof.
  intros Hop Hs Hex.
  assert (H : opening_sound w 0 (fun _ => 0) w)
    by (split; [exact Hop|split; [exact Hs|split; [exact Hex|reflexivity]]]).
  unfold opening_deal.
  rewrite !for_loop_S. change (for_loop 0 ?b ?s) with s. cbv beta zeta.
  sound_step H p1a. sound_step H p2a. sound_step H p3a. sound_step H p4a. sound_step H dealer.
  sound_step H p1a. sound_step H p2a. sound_step H p3a. sound_step H p4a. sound_step H dealer.
  destruct H as (_ & Hs' & Hex' & Eo). split; [exact Hs'|]. split; assumption.
Qed.

Lemma faceDown_sound (v : Z) (w : world) :
  let w' := upd_hand dealer (fun h => set_isFaceDown (arr_set (isFaceDown h) 0 v) h) w in
  (sound w -> sound w') /\
  (forall q, exact_hand (hands w q) -> exact_hand (hands w' q)) /\
  refusals w' = refusals w.
Proof.
  intros w'.
  assert (Hq : forall q, val_ok (hands w q) -> val_ok (hands w' q)).
  { intros q. unfold w'. destruct (decide (q = dealer)) as [->|Hq].
    - rewrite upd_hand_same. intros H. exact H.
    - rewrite upd_hand_other by exact Hq. intros H. exact H. }
  split; [|split; [|reflexivity]].
  - intros (Hok & Hc & Hstd & Hv). split; [apply (faceDown_table v w), Hok|].
    split; [apply faceDown_cards_ok, Hc|]. split; [exact Hstd|].
    intros q. apply Hq, Hv.
  - intros q. unfold w'. destruct (decide (q = dealer)) as [->|Hne].
    + rewrite upd_hand_same. intros H. exact H.
    + rewrite upd_hand_other by exact Hne. intros H. exact H.
Qed.

Lemma round_play_before_dealer (fuel : nat) (w : world) :
  round_play fuel w = w ← before_dealer fuel w; dealerTurn fuel w.
Proof.
  unfold round_play, before_dealer. cbv zeta.
  destruct (playTurn fuel P1 _) as [w4|]; [|reflexivity]. cbn [mbind option_bind].
  destruct (playTurn fuel P2 w4) as [w5|]; [|reflexivity]. cbn [mbind option_bind].
  destruct (playTurn fuel P3 w5) as [w6|]; [|reflexivity]. cbn [mbind option_bind].
  destruct (playTurn fuel P4 w6) as [w7|]; reflexivity.
Qed.

Lemma turns_sound (fuel : nat) (w2 w' : world) :
  sound w2 ->
  seat_fresh p1a p1b w2 -> seat_fresh p2a p2b w2 ->
  seat_fresh p3a p3b w2 -> seat_fresh p4a p4b w2 ->
  (forall q, exact_hand (hands w2 q)) ->
  (w ← playTurn fuel P1
         (upd_hand dealer (fun h => set_isFaceDown (arr_set (isFaceDown h) 0 1) h) w2);
   w ← playTurn fuel P2 w;
   w ← playTurn fuel P3 w;
   w ← playTurn fuel P4 w;
   Some (upd_hand dealer (fun h => set_isFaceDown (arr_set (isFaceDown h) 0 0) h) w))
  = Some w' ->
  sound w' /\ refusals w' = refusals w2.
Proof.
  intros Hs2 F1 F2 F3 F4 Hex Hrun.
  destruct (faceDown_sound 1 w2) as (Hs3 & Hex3 & <-). specialize (Hs3 Hs2).
  destruct (faceDown_table 1 w2) as [_ Hfresh3].
  pose proof (Hex3 p1a (Hex p1a)) as X1. pose proof (Hex3 p2a (Hex p2a)) as X2.
  pose proof (Hex3 p3a (Hex p3a)) as X3. pose proof (Hex3 p4a (Hex p4a)) as X4.
  set (w3 := upd_hand dealer _ w2) in *.
  apply (Hfresh3 p1a p1b) in F1; try discriminate.
  apply (Hfresh3 p2a p2b) in F2; try discriminate.
  apply (Hfresh3 p3a p3b) in F3; try discriminate.
  apply (Hfresh3 p4a p4b) in F4; try discriminate.
  clearbody w3. clear Hfresh3 Hs2 Hex Hex3.
  destruct (playTurn fuel P1 w3) as [w4|] eqn:E1; [|discriminate Hrun]. simpl in Hrun.
  destruct (playTurn_kept _ _ _ _ E1) as (pA & pB & Hsel & Hfr4 & _).
  assert (pA = p1a /\ pB = p1b) as [-> ->]
    by (change (selectPlayer P1 w3) with (Some (p1a, p1b), w3) in Hsel; split; congruence).
  clear Hsel.
  destruct (playTurn_sound fuel P1 p1a p1b w3 w4 ltac:(reflexivity) ltac:(discriminate)
              Hs3 F1 X1 E1) as [Hs4 <-].
  apply (seat_fresh_frame p2a p2b _ _ _ _ Hfr4) in F2; try discriminate.
  apply (seat_fresh_frame p3a p3b _ _ _ _ Hfr4) in F3; try discriminate.
  apply (seat_fresh_frame p4a p4b _ _ _ _ Hfr4) in F4; try discriminate.
  rewrite <- (Hfr4 p2a) in X2 by discriminate. rewrite <- (Hfr4 p3a) in X3 by discriminate.
  rewrite <- (Hfr4 p4a) in X4 by discriminate.
  clear Hs3 Hfr4 E1 F1 X1.
  destruct (playTurn fuel P2 w4) as [w5|] eqn:E2; [|discriminate Hrun]. simpl in Hrun.
  destruct (playTurn_kept _ _ _ _ E2) as (pA & pB & Hsel & Hfr5 & _).
  assert (pA = p2a /\ pB = p2b) as [-> ->]
    by (change (selectPlayer P2 w4) with (Some (p2a, p2b), w4) in Hsel; split; congruence).
  clear Hsel.
  destruct (playTurn_sound fuel P2 p2a p2b w4 w5 ltac:(reflexivity) ltac:(discriminate)
              Hs4 F2 X2 E2) as [Hs5 <-].
  apply (seat_fresh_frame p3a p3b _ _ _ _ Hfr5) in F3; try discriminate.
  apply (seat_fresh_frame p4a p4b _ _ _ _ Hfr5) in F4; try discriminate.
  rewrite <- (Hfr5 p3a) in X3 by discriminate. rewrite <- (Hfr5 p4a) in X4 by discriminate.
  clear Hs4 Hfr5 E2 F2 X2.
  destruct (playTurn fuel P3 w5) as [w6|] eqn:E3; [|discriminate Hrun]. simpl in Hrun.
  destruct (playTurn_kept _ _ _ _ E3) as (pA & pB & Hsel & Hfr6 & _).
  assert (pA = p3a /\ pB = p3b) as [-> ->]
    by (change (selectPlayer P3 w5) with (Some (p3a, p3b), w5) in Hsel; split; congruence).
  clear Hsel.
  destruct (playTurn_sound fuel P3 p3a p3b w5 w6 ltac:(reflexivity) ltac:(discriminate)
              Hs5 F3 X3 E3) as [Hs6 <-].
  apply (seat_fresh_frame p4a p4b _ _ _ _ Hfr6) in F4; try discriminate.
  rewrite <- (Hfr6 p4a) in X4 by discriminate.
  clear Hs5 Hfr6 E3 F3 X3.
  destruct (playTurn fuel P4 w6) as [w7|] eqn:E4; [|discriminate Hrun]. simpl in Hrun.
  destruct (playTurn_sound fuel P4 p4a p4b w6 w7 ltac:(reflexivity) ltac:(discriminate)
              Hs6 F4 X4 E4) as [Hs7 <-].
  injection Hrun as <-.
  destruct (faceDown_sound 0 w7) as (Hs8 & _ & Hr8). split; [exact (Hs8 Hs7)|exact Hr8].
Qed.

Lemma before_dealer_sound (fuel : nat) (w w' : world) :
  round_ready w -> cards w ≡ₚ standard_deck -> before_dealer fuel w = Some w' ->
  sound w' /\ refusals w' = refusals w.
Proof.
  intros Hready Hstd Hrun.
  destruct (newRound_opening w Hready) as (Hd0 & Hi0 & _ & Hh0).
  assert (Hop : opening 0 (fun _ => 0) (newRound w))
    by (split; [exact Hd0|split; [exact Hi0|exact Hh0]]).
  destruct (opening_deal_fresh _ Hop) as (_ & _ & F1 & F2 & F3 & F4 & _).
  destruct (newRound_sound w Hready Hstd) as (Hs0 & Hex0 & <-).
  destruct (opening_deal_sound _ Hop Hs0 Hex0) as (Hs2 & Hex2 & Eo).
  rewrite <- (refusals_out _ _ Eo).
  exact (turns_sound fuel (opening_deal (newRound w)) w' Hs2 F1 F2 F3 F4 Hex2 Hrun).
Qed.

Lemma round_play_refusals (fuel : nat) (w w' : world) :
  round_ready w -> cards w ≡ₚ standard_deck -> round_play fuel w = Some w' ->
  refusals w' = refusals w.
Proof.
  intros Hready Hstd Hrun. rewrite round_play_before_dealer in Hrun.
  destruct (before_dealer fuel w) as [w8|] eqn:E; [|discriminate Hrun].
  cbn [mbind option_bind] in Hrun.
  destruct (before_dealer_sound _ _ _ Hready Hstd E) as [Hs <-].
  apply (dealerTurn_sound _ _ _ Hs Hrun).
Qed.

(** In a sound table the dealer's loop returns: every draw is dealt and
    lifts the hand by at least 1. *)
Lemma dealerTurn_ends (k : nat) (w : world) :
  sound w -> 18 - hard_total (hands w dealer) <= Z.of_nat k ->
  exists w', dealerTurn (S k) w = Some w'.
Proof.
  revert w. induction k as [|k IH]; intros w Hs Hk;
    unfold dealerTurn in *; cbn [while_loop];
    destruct (dealer_body_cases w) as [[Hd E]|(_ & _ & msg & E)]; rewrite E;
    try (eexists; reflexivity).
  - exfalso. destruct Hs as (_ & _ & _ & Hv). destruct (Hv dealer) as (Hso & _).
    destruct Hd as [_ Hd]. unfold hard_total, soft_17 in *. simpl in Hk. nia.
  - set (wh := send "Dealer hits!" w).
    assert (Hswh : sound wh) by (revert Hs; apply sound_ext; reflexivity).
    assert (H20 : handvalue (hands wh dealer) <= 20)
      by (change (hands wh) with (hands w); destruct Hd as [_ [Hlt|[H17 _]]]; lia).
    pose proof (deck_not_exhausted wh Hswh) as Hi.
    pose proof (hand_not_full wh dealer Hswh H20) as Hn.
    destruct (deal_site dealer wh Hswh H20) as (Hs' & _ & _).
    destruct Hswh as (Hok & _ & _ & Hv). destruct (Hv dealer) as (Hso & _).
    destruct (dealCard_hard_total dealer wh Hi Hn Hso) as [_ Hh].
    pose proof (deck_ok_next wh (proj1 Hok) Hi) as Hr. unfold next_card, rank_ok in Hr.
    simpl in Hr. apply IH; [exact Hs'|]. rewrite Hh.
    change (hands wh) with (hands w). change (rankG wh) with (rankG w).
    change (indexG wh) with (indexG w).
    assert (Hhv : 1 <= hard_value (arr_get (rankG w) (indexG w))).
    { unfold hard_value. destruct (Z.eqb_spec (arr_get (rankG w) (indexG w)) 1); [lia|].
      destruct (_ && _); lia. }
    lia.
Qed.

Lemma seat_lines_refusals (pA pB : hid) (w : world) :
  filter (fun s => s = deal_error) (seat_lines pA pB w) = [].
Proof.
  assert (Hr : forall p d, result_text p d <> deal_error).
  { intros p d. destruct (result_text_verdict p d) as [-> | [-> | ->]]; not_deal_error. }
  unfold seat_lines. destruct (truthy (empty (hands w pB))); simpl;
    rewrite ?filter_cons_False, ?filter_nil; first [reflexivity | apply Hr | not_deal_error].
Qed.

Lemma dispResults_refusals (w w' : world) :
  dispResults w = Some w' -> refusals w' = refusals w.
Proof.
  intros H. destruct (dispResults_out w) as (w2 & E & Ho & _).
  rewrite E in H. injection H as <-. unfold refusals. rewrite Ho.
  rewrite !filter_app, !seat_lines_refusals, filter_cons_False, filter_nil, !app_nil_r;
    [reflexivity|].
  destruct (truthy (busted (hands w dealer))); not_deal_error.
Qed.

Lemma rounds_refusals (n fuel : nat) (w w' : world) :
  round_ready w -> cards w ≡ₚ standard_deck -> rounds n fuel w = Some w' ->
  refusals w' = refusals w.
Proof.
  revert w. induction n as [|n IH]; intros w Hready Hstd Hrun.
  - injection Hrun as <-. reflexivity.
  - simpl in Hrun. destruct (round fuel w) as [w1|] eqn:E; [|discriminate Hrun].
    simpl in Hrun.
    rewrite (IH w1 (round_ready_next _ _ _ Hready E)
               ltac:(rewrite (round_cards _ _ _ Hready E); exact Hstd) Hrun).
    unfold round in E. destruct (round_play fuel w) as [w0|] eqn:E0; [|discriminate E].
    simpl in E. rewrite (dispResults_refusals _ _ E).
    exact (round_play_refusals _ _ _ Hready Hstd E0).
Qed.

(** X17.  [main] never runs out of cards and never overfills a hand.
    However many rounds are played and whatever the players do, every
    [dealCard] of every round is carried out: the display never shows
    ERROR: Cannot Deal Card!.  The 52 cards count 340 with every Ace as 1,
    a hand stops being dealt to once it stands above 20, and a split miscounts
    a moved card by 3 at most, so the nine hands can never hold the whole
    deck, nor one hand twelve cards while it stands at 20 or less. *)
Theorem main_never_refuses_a_deal (n fuel : nat) (rs : list Z) (ds : list Q) (w : world) :
  Forall (fun r => 0 <= r) rs ->
  rounds n fuel (initDeck (boot rs ds)) = Some w ->
  (deal_error ∉ out w) /\
  forall w', round_play fuel w = Some w' -> deal_error ∉ out w'.
Proof.
  intros Hrs Hrun.
  pose proof (boot_round_ready rs ds Hrs) as H0.
  assert (Hstd0 : cards (initDeck (boot rs ds)) ≡ₚ standard_deck)
    by (rewrite initDeck_cards by (split; reflexivity); reflexivity).
  destruct (rounds_cards n fuel _ w H0 Hrun) as [Hready Hp].
  pose proof (rounds_refusals n fuel _ w H0 Hstd0 Hrun) as Hr.
  change (refusals (initDeck (boot rs ds))) with (@nil string) in Hr.
  assert (Hno : forall v, refusals v = [] -> deal_error ∉ out v).
  { intros v Hv Hin. assert (H : deal_error ∈ refusals v)
      by (apply list_elem_of_filter; split; [reflexivity|exact Hin]).
    rewrite Hv in H. apply elem_of_nil in H. exact H. }
  split; [apply Hno, Hr|].
  intros w' Hplay. apply Hno.
  rewrite (round_play_refusals fuel w w' Hready ltac:(rewrite Hp; exact Hstd0) Hplay).
  exact Hr.
Qed.

Lemma main_never_refuses_a_deal_witness :
  exists w, rounds 1 classifications first_night = Some w /\
    (deal_error ∉ out w) /\ ("You hit!" ∈ out w).
Proof.
  destruct (rounds 1 classifications first_night) as [w|] eqn:E;
    [|exfalso; vm_compute in E; discriminate E].
  exists w. split; [reflexivity|]. split.
  - unfold first_night in E.
    destruct (fun H => main_never_refuses_a_deal _ _ _ _ _ H E) as [H _];
      [apply (bool_decide_unpack _); vm_compute; reflexivity|exact H].
  - vm_compute in E. injection E as <-. apply (bool_decide_unpack _). vm_compute. reflexivity.
Defined.

(** X18.  In every round of [main] the dealer's turn ends.  Once the four
    turns of a round have returned, the dealer's loop returns within 22
    passes, whatever the deck holds: no draw is refused, each draw lifts
    the hand, and the loop is left busted or at 17 or more and not on a
    soft 17. *)
Theorem main_dealer_turn_ends (n fuel : nat) (rs : list Z) (ds : list Q) (w w1 : world) :
  Forall (fun r => 0 <= r) rs ->
  rounds n fuel (initDeck (boot rs ds)) = Some w ->
  before_dealer fuel w = Some w1 -> (22 <= fuel)%nat ->
  exists w', dealerTurn fuel w1 = Some w' /\ round_play fuel w = Some w' /\
    dealer_stopped (hands w' dealer).
Proof.
  intros Hrs Hrun Hb Hfuel.
  pose proof (boot_round_ready rs ds Hrs) as H0.
  assert (Hstd0 : cards (initDeck (boot rs ds)) ≡ₚ standard_deck)
    by (rewrite initDeck_cards by (split; reflexivity); reflexivity).
  destruct (rounds_cards n fuel _ w H0 Hrun) as [Hready Hp].
  destruct (before_dealer_sound fuel w w1 Hready ltac:(rewrite Hp; exact Hstd0) Hb) as [Hs _].
  destruct (dealerTurn_ends 21 w1 Hs) as [w' Hd].
  { destruct Hs as (_ & Hc & Hstd & Hv). destruct (Hv dealer) as (_ & Hsum & _).
    assert (H : 0 <= hard_sum (hand_ranks (hands w1 dealer))).
    { destruct (hand_ranks_lower w1 dealer Hc Hstd) as [Hok _].
      clear -Hok. induction Hok as [|r l Hr _ IH]; [reflexivity|].
      cbn [hard_sum foldr]. change (foldr _ 0 l) with (hard_sum l).
      unfold rank_ok in Hr. unfold hard_value. destruct (r =? 1); [lia|].
      destruct (_ && _); lia. }
    simpl. lia. }
  exists w'.
  assert (Hd' : dealerTurn fuel w1 = Some w').
  { unfold dealerTurn in *. apply (while_loop_fuel _ 22 fuel _ _ Hd Hfuel). }
  split; [exact Hd'|]. split.
  - rewrite round_play_before_dealer, Hb. exact Hd'.
  - exact (dealerTurn_stopped _ _ _ Hd').
Qed.

Lemma main_dealer_turn_ends_witness :
  exists w1 w', before_dealer 201 first_night = Some w1 /\
    dealerTurn 201 w1 = Some w' /\ round_play 201 first_night = Some w'.
Proof.
  destruct (before_dealer 201 first_night) as [w1|] eqn:E;
    [|exfalso; vm_compute in E; discriminate E].
  unfold first_night in E.
  destruct (fun H => main_dealer_turn_ends 0 201 _ _ _ w1 H eq_refl E) as (w' & H1 & H2 & _);
    [apply (bool_decide_unpack _); vm_compute; reflexivity|lia|].
  exists w1, w'. split; [reflexivity|]. split; [exact H1|exact H2].
Defined.

(** ** The display *)

Lemma writes_id : Display.writes (fun t => t) [].
Proof. intros [f s]. simpl. rewrite app_nil_r. reflexivity. Qed.

Lemma writes_comp (f g : Display.term -> Display.term) (s s' : list ascii) :
  Display.writes f s -> Display.writes g s' -> Display.writes (fun t => g (f t)) (s ++ s').
Proof.
  intros Hf Hg t. rewrite Hf, Hg. simpl. rewrite <- app_assoc. reflexivity.
Qed.

Lemma writes_sendChar (c : ascii) : Display.writes (Display.sendChar c) [c].
Proof. intros t. reflexivity. Qed.

Lemma writes_send (s : string) : Display.writes (Display.send s) (list_ascii_of_string s).
Proof. intros t. reflexivity. Qed.

Lemma writes_iter (n : nat) (f : Display.term -> Display.term) (s : list ascii) :
  Display.writes f s -> Display.writes (Nat.iter n f) (concat (replicate n s)).
Proof.
  intros Hf. induction n as [|n IH].
  - apply writes_id.
  - intros t. change (Nat.iter (S n) f t) with (f (Nat.iter n f t)).
    rewrite (IH t), Hf. simpl.
    rewrite <- app_assoc. f_equal. f_equal.
    clear. induction n as [|n IH]; simpl; [rewrite app_nil_r; reflexivity|].
    rewrite <- app_assoc, IH. reflexivity.
Qed.

Lemma concat_replicate_singleton {A} (n : nat) (c : A) :
  concat (replicate n [c]) = replicate n c.
Proof. induction n as [|n IH]; simpl; [|rewrite IH]; reflexivity. Qed.

Lemma writes_fillScreen (n : Z) :
  Display.writes (Display.fillScreen n) (replicate (Z.to_nat n) Display.NLc).
Proof.
  unfold Display.fillScreen. rewrite <- concat_replicate_singleton.
  apply writes_iter, writes_sendChar.
Qed.

Lemma writes_alignCenter (width : Z) :
  Display.writes (Display.alignCenter width)
    (replicate (Z.to_nat (Z.quot (Display.TERMWIDTH - width) 2)) " "%char).
Proof.
  unfold Display.alignCenter. rewrite <- concat_replicate_singleton.
  apply writes_iter, writes_sendChar.
Qed.

(** A [for] loop of writers writes what its passes write. *)
Lemma writes_for_loop (n : nat) (cell : Z -> Display.term -> Display.term)
    (P : list ascii -> Prop) :
  (forall k, 0 <= k < Z.of_nat n -> exists s, Display.writes (cell k) s /\ P s) ->
  exists ss, Display.writes (for_loop n cell) (concat ss) /\ length ss = n /\ Forall P ss.
Proof.
  induction n as [|n IH]; intros Hcell.
  - exists []. split; [apply writes_id|]. split; [reflexivity|constructor].
  - destruct IH as (ss & Hw & Hl & HP); [intros k Hk; apply Hcell; lia|].
    destruct (Hcell (Z.of_nat n)) as (s & Hs & HPs); [lia|].
    exists (ss ++ [s]). split; [|split].
    + intros t. rewrite for_loop_S, Hs, Hw. simpl.
      rewrite concat_app. simpl. rewrite app_nil_r, <- app_assoc. reflexivity.
    + rewrite length_app. simpl. lia.
    + apply Forall_app. split; [exact HP|]. constructor; [exact HPs|constructor].
Qed.

Lemma for_loop_ext {S : Type} (n : nat) (f g : Z -> S -> S) (s : S) :
  (forall k x, 0 <= k < Z.of_nat n -> f k x = g k x) -> for_loop n f s = for_loop n g s.
Proof.
  intros H. induction n as [|n IH]; [reflexivity|].
  rewrite !for_loop_S, IH by (intros; apply H; lia). apply H. lia.
Qed.

(** *** Ranks *)

Lemma rank_cases (r : Z) :
  1 <= r <= 13 ->
  r = 1 \/ r = 2 \/ r = 3 \/ r = 4 \/ r = 5 \/ r = 6 \/ r = 7 \/ r = 8 \/ r = 9 \/ r = 10 \/
  r = 11 \/ r = 12 \/ r = 13.
Proof. lia. Qed.

Ltac each_rank H :=
  apply rank_cases in H;
  destruct H as [-> | [-> | [-> | [-> | [-> | [-> | [-> | [-> | [-> | [-> | [-> | [-> | ->]]]]]]]]]]]].

(** X10.  [rankConvert] shows every rank of a playing card as one of the
    thirteen characters A 2 3 4 5 6 7 8 9 T J Q K, the character at the
    position of the rank, and two different ranks as two different
    characters. *)
Theorem rankConvert_distinct (r : Z) :
  rank_ok r ->
  list_ascii_of_string "A23456789TJQK" !! Z.to_nat (r - 1) = Some (Display.rankConvert r) /\
  forall r', rank_ok r' -> Display.rankConvert r = Display.rankConvert r' -> r = r'.
Proof.
  intros Hr. unfold rank_ok in *. split.
  - each_rank Hr; reflexivity.
  - intros r' Hr' E. each_rank Hr; each_rank Hr'; first [reflexivity | vm_compute in E; discriminate E].
Qed.

Lemma rankConvert_distinct_witness :
  Display.rankConvert 10 = "T"%char /\ Display.rankConvert 7 = "7"%char.
Proof.
  destruct (rankConvert_distinct 10) as [H10 _]; [vm_compute; split; discriminate|].
  destruct (rankConvert_distinct 7) as [H7 _]; [vm_compute; split; discriminate|].
  change (Some "T"%char = Some (Display.rankConvert 10)) in H10.
  change (Some "7"%char = Some (Display.rankConvert 7)) in H7.
  split; congruence.
Defined.

(** *** The picture of a hand *)

Lemma send_cell_ok (s : string) :
  bool_decide (Display.cell_ok (list_ascii_of_string s)) = true ->
  exists l, Display.writes (Display.send s) l /\ Display.cell_ok l.
Proof.
  intros H. exists (list_ascii_of_string s). split; [apply writes_send|].
  apply bool_decide_eq_true in H. exact H.
Qed.

Lemma rankConvert_inline (r : Z) : 0 <= r <= 13 -> Display.rankConvert r <> Display.NLc.
Proof.
  intros Hr. assert (r = 0 \/ 1 <= r <= 13) as [-> | H] by lia; [discriminate|].
  each_rank H; discriminate.
Qed.

Lemma border_cell_ok (p : hand) (k : Z) :
  exists l, Display.writes (Display.border_cell p k) l /\ Display.cell_ok l.
Proof. apply send_cell_ok. reflexivity. Qed.

Lemma spacer_cell_ok (p : hand) (k : Z) :
  exists l, Display.writes (Display.spacer_cell p k) l /\ Display.cell_ok l.
Proof.
  unfold Display.spacer_cell. destruct (truthy _); apply send_cell_ok; reflexivity.
Qed.

Lemma body_cell_ok (down h d c s : string) (p : hand) (k : Z) :
  bool_decide (Forall (fun x => Display.cell_ok (list_ascii_of_string x)) [down; h; d; c; s]) = true ->
  exists l, Display.writes (Display.body_cell down h d c s p k) l /\ Display.cell_ok l.
Proof.
  intros H. apply bool_decide_eq_true in H.
  rewrite !Forall_cons in H. destruct H as (H1 & H2 & H3 & H4 & H5 & _).
  unfold Display.body_cell.
  destruct (truthy _); [|repeat destruct (Ascii.eqb _ _)];
    first [ eexists; split; [apply writes_send|assumption]
          | apply send_cell_ok; reflexivity ].
Qed.

Lemma toprank_cell_ok (p : hand) (k : Z) :
  0 <= arr_get (rank p) k <= 13 ->
  exists l, Display.writes (Display.toprank_cell p k) l /\ Display.cell_ok l.
Proof.
  intros Hr. unfold Display.toprank_cell.
  destruct (truthy _); [apply send_cell_ok; reflexivity|].
  exists (list_ascii_of_string " | " ++ [Display.rankConvert (arr_get (rank p) k)] ++
          list_ascii_of_string "         " ++ list_ascii_of_string "|").
  split; [|split].
  - intros t. unfold Display.send, Display.sendChar. simpl. rewrite <- !app_assoc. reflexivity.
  - reflexivity.
  - unfold Display.inline. simpl. repeat constructor; try discriminate.
    apply rankConvert_inline, Hr.
Qed.

Lemma botrank_cell_ok (p : hand) (k : Z) :
  0 <= arr_get (rank p) k <= 13 ->
  exists l, Display.writes (Display.botrank_cell p k) l /\ Display.cell_ok l.
Proof.
  intros Hr. unfold Display.botrank_cell.
  destruct (truthy _); [apply send_cell_ok; reflexivity|].
  exists (list_ascii_of_string " |" ++ list_ascii_of_string "         " ++
          [Display.rankConvert (arr_get (rank p) k)] ++ list_ascii_of_string " |").
  split; [|split].
  - intros t. unfold Display.send, Display.sendChar. simpl. rewrite <- !app_assoc. reflexivity.
  - reflexivity.
  - unfold Display.inline. simpl. repeat constructor; try discriminate.
    apply rankConvert_inline, Hr.
Qed.

Lemma concat_cells (ss : list (list ascii)) :
  Forall Display.cell_ok ss -> length (concat ss) = (14 * length ss)%nat /\ Display.inline (concat ss).
Proof.
  induction 1 as [|s ss [Hl Hi] _ [IHl IHi]]; [split; [reflexivity|constructor]|].
  simpl. rewrite length_app, Hl, IHl. split; [lia|]. apply Forall_app. split; assumption.
Qed.

Lemma card_row_writes (numCards : Z) (cell : Z -> Display.term -> Display.term) :
  0 <= numCards <= MAXHAND ->
  (forall k, 0 <= k < numCards -> exists l, Display.writes (cell k) l /\ Display.cell_ok l) ->
  exists row, Display.writes (Display.card_row numCards cell) (row ++ [Display.NLc]) /\
              Display.row_ok numCards row.
Proof.
  intros Hn Hcell. unfold MAXHAND in Hn.
  destruct (writes_for_loop (Z.to_nat (numCards mod 65536)) cell Display.cell_ok) as (ss & Hw & Hl & Hss).
  { intros k Hk. apply Hcell. rewrite Z.mod_small in Hk by lia. lia. }
  rewrite Z.mod_small in Hl by lia.
  destruct (concat_cells ss Hss) as [Hlen Hin].
  exists (replicate (Z.to_nat (Z.quot (Display.TERMWIDTH - numCards * 14) 2)) " "%char ++ concat ss).
  split.
  - intros t. unfold Display.card_row. cbv zeta.
    rewrite (writes_alignCenter (numCards * 14) t), Hw. unfold Display.sendChar. simpl.
    rewrite <- !app_assoc. reflexivity.
  - unfold Display.row_ok. cbv zeta. rewrite length_app, length_replicate, Hlen, Hl.
    split; [reflexivity|]. split.
    + apply Forall_app. split; [|exact Hin]. apply Forall_replicate. discriminate.
    + rewrite take_app_length'; [reflexivity|symmetry; apply length_replicate].
Qed.

Lemma lines_rows (l : list ascii) (rows : list (list ascii)) :
  Forall Display.inline rows ->
  length (filter (fun c => c = Display.NLc) (l ++ concat (map (fun r => r ++ [Display.NLc]) rows)))
  = (length (filter (fun c => c = Display.NLc) l) + length rows)%nat.
Proof.
  intros H. rewrite filter_app, length_app. f_equal.
  induction H as [|r rows Hr _ IH]; [reflexivity|].
  simpl. rewrite !filter_app, !length_app, IH.
  assert (E : filter (fun c => c = Display.NLc) r = []).
  { clear -Hr. induction Hr as [|c r Hc _ IH]; [reflexivity|].
    rewrite filter_cons_False by exact Hc. exact IH. }
  rewrite E. reflexivity.
Qed.

Lemma row_ok_fits (numCards : Z) (row : list ascii) :
  0 <= numCards <= MAXHAND -> Display.row_ok numCards row ->
  (Z.of_nat (length row) <= Display.TERMWIDTH <-> numCards <= 11).
Proof.
  unfold MAXHAND, Display.row_ok, Display.TERMWIDTH. intros Hn (Hl & _). rewrite Hl.
  assert (numCards = 12 \/ numCards <= 11) as [-> | H] by lia;
    [split; [intros H; vm_compute in H; exfalso; apply H; reflexivity|lia]|].
  split; [intros _; exact H|intros _].
  pose proof (Z.quot_pos (165 - numCards * 14) 2 ltac:(lia) ltac:(lia)) as Hq.
  pose proof (Z.mul_quot_le (165 - numCards * 14) 2 ltac:(lia) ltac:(lia)) as Hm.
  lia.
Qed.

(** X11.  [cardPrint] draws a hand of up to [MAXHAND] cards as ten lines,
    each closed by a line feed and free of any other: a left margin of
    (TERMWIDTH - 14 n) / 2 spaces, then fourteen characters for each of the
    n cards.  It takes ten lines off [SCREENFILL].  The picture fits the
    width of the terminal exactly when the hand holds at most eleven
    cards. *)
Theorem cardPrint_layout (p : hand) (t : Display.term) :
  0 <= handsize p <= MAXHAND ->
  (forall k, 0 <= k < handsize p -> 0 <= arr_get (rank p) k <= 13) ->
  exists rows,
    length rows = 10%nat /\ Forall (Display.row_ok (handsize p)) rows /\
    Display.sent (Display.cardPrint p t) =
      Display.sent t ++ concat (map (fun r => r ++ [Display.NLc]) rows) /\
    Display.SCREENFILL (Display.cardPrint p t) = Display.SCREENFILL t - 10 /\
    Display.lines (Display.cardPrint p t) = (Display.lines t + 10)%nat /\
    Forall (fun r => Z.of_nat (length r) <= Display.TERMWIDTH <-> handsize p <= 11) rows.
Proof.
  intros Hn Hr.
  assert (Hbody : forall down h d c s,
            bool_decide (Forall (fun x => Display.cell_ok (list_ascii_of_string x)) [down; h; d; c; s]) = true ->
            exists row, Display.writes (Display.card_row (handsize p)
                                          (Display.body_cell down h d c s p)) (row ++ [Display.NLc]) /\
                        Display.row_ok (handsize p) row).
  { intros down h d c s H. apply card_row_writes; [exact Hn|].
    intros k _. apply body_cell_ok, H. }
  destruct (card_row_writes (handsize p) (Display.border_cell p) Hn) as (r1 & W1 & O1);
    [intros k _; apply border_cell_ok|].
  destruct (card_row_writes (handsize p) (Display.toprank_cell p) Hn) as (r2 & W2 & O2);
    [intros k Hk; apply toprank_cell_ok, Hr, Hk|].
  destruct (card_row_writes (handsize p) (Display.spacer_cell p) Hn) as (r3 & W3 & O3);
    [intros k _; apply spacer_cell_ok|].
  destruct (Hbody " |#### U ####|" " |    _ _    |" " |     ^     |"
                  " |     _     |" " |     .     |" eq_refl) as (r4 & W4 & O4).
  destruct (Hbody " |#### N ####|" " |   ( V )   |" " |    / \    |"
                  " |    (&)    |" " |    /&\    |" eq_refl) as (r5 & W5 & O5).
  destruct (Hbody " |#### L ####|" " |    \ /    |" " |    \ /    |"
                  " |   (&&&)   |" " |   (&&&)   |" eq_refl) as (r6 & W6 & O6).
  destruct (Hbody " |#### V ####|" " |     V     |" " |     V     |"
                  " |     ^     |" " |     ^     |" eq_refl) as (r7 & W7 & O7).
  destruct (card_row_writes (handsize p) (Display.botrank_cell p) Hn) as (r9 & W9 & O9);
    [intros k Hk; apply botrank_cell_ok, Hr, Hk|].
  clear Hbody.
  set (rows := [r1; r2; r3; r4; r5; r6; r7; r3; r9; r1]).
  assert (Hrows : Forall (Display.row_ok (handsize p)) rows)
    by (subst rows; repeat (constructor; [assumption|]); constructor).
  assert (E : Display.cardPrint p t =
              Display.mkTerm (Display.SCREENFILL t - 10)
                (Display.sent t ++ concat (map (fun r => r ++ [Display.NLc]) rows))).
  { pose proof (writes_comp _ _ _ _ (writes_comp _ _ _ _ (writes_comp _ _ _ _
      (writes_comp _ _ _ _ (writes_comp _ _ _ _ (writes_comp _ _ _ _ (writes_comp _ _ _ _
      (writes_comp _ _ _ _ (writes_comp _ _ _ _ W1 W2) W3) W4) W5) W6) W7) W3) W9) W1 t) as C.
    cbv beta in C. unfold Display.cardPrint. cbv zeta. rewrite C.
    unfold Display.set_SCREENFILL, rows. cbn [Display.SCREENFILL Display.sent map concat].
    rewrite <- !app_assoc. rewrite app_nil_r. reflexivity. }
  exists rows. split; [reflexivity|]. split; [exact Hrows|]. rewrite E.
  split; [reflexivity|]. split; [reflexivity|]. split.
  - unfold Display.lines. cbn [Display.sent]. rewrite lines_rows; [reflexivity|].
    eapply Forall_impl; [exact Hrows|]. intros r (_ & Hi & _). exact Hi.
  - eapply Forall_impl; [exact Hrows|]. intros r Hok. apply row_ok_fits; assumption.
Qed.

Lemma cardPrint_layout_witness :
  let t := Display.mkTerm Display.TERMHEIGHT [] in
  Display.lines (Display.cardPrint (hands two_kings p1a) t) = 10%nat /\
  Display.SCREENFILL (Display.cardPrint (hands two_kings p1a) t) = 18.
Proof.
  intros t.
  destruct (cardPrint_layout (hands two_kings p1a) t) as (rows & _ & _ & _ & Hs & Hl & _).
  - vm_compute. split; discriminate.
  - intros k Hk. change (handsize (hands two_kings p1a)) with 2 in Hk.
    assert (k = 0 \/ k = 1) as [-> | ->] by lia; vm_compute; split; discriminate.
  - split; [exact Hl|exact Hs].
Defined.

(** *** Cards that lie face down *)

Lemma card_row_ext (numCards : Z) (f g : Z -> Display.term -> Display.term) (t : Display.term) :
  0 <= numCards <= MAXHAND ->
  (forall k x, 0 <= k < numCards -> f k x = g k x) ->
  Display.card_row numCards f t = Display.card_row numCards g t.
Proof.
  intros Hn H. unfold Display.card_row. cbv zeta. f_equal.
  apply for_loop_ext. intros k x Hk. apply H.
  unfold MAXHAND in Hn. rewrite Z.mod_small in Hk by lia. lia.
Qed.

Lemma cells_same_face_up (p q : hand) (k : Z) (x : Display.term) :
  Display.same_face_up p q -> 0 <= k < handsize p ->
  Display.toprank_cell p k x = Display.toprank_cell q k x /\
  Display.spacer_cell p k x = Display.spacer_cell q k x /\
  Display.botrank_cell p k x = Display.botrank_cell q k x /\
  forall down h d c s,
    Display.body_cell down h d c s p k x = Display.body_cell down h d c s q k x.
Proof.
  intros [_ H] Hk. destruct (H k Hk) as [Ef Ev].
  unfold Display.toprank_cell, Display.spacer_cell, Display.botrank_cell, Display.body_cell.
  rewrite <- Ef. destruct (truthy (arr_get (isFaceDown p) k)).
  - repeat split.
  - destruct (Ev eq_refl) as [-> ->]. repeat split.
Qed.

(** X12.  [cardPrint] gives away nothing of a card that lies face down:
    two hands with the same number of cards, the same cards face down and
    the same rank and suit wherever a card is face up are drawn with the
    same characters, whatever the ranks and suits of the hidden cards. *)
Theorem cardPrint_hides_face_down (p q : hand) (t : Display.term) :
  0 <= handsize p <= MAXHAND -> Display.same_face_up p q ->
  Display.cardPrint p t = Display.cardPrint q t.
Proof.
  intros Hn Hsame. pose proof (proj1 Hsame) as En.
  unfold Display.cardPrint. cbv zeta. rewrite <- En.
  assert (Hb : forall x, Display.card_row (handsize p) (Display.border_cell p) x =
                         Display.card_row (handsize p) (Display.border_cell q) x)
    by reflexivity.
  assert (Ht : forall x, Display.card_row (handsize p) (Display.toprank_cell p) x =
                         Display.card_row (handsize p) (Display.toprank_cell q) x).
  { intros x. apply card_row_ext; [exact Hn|]. intros k y Hk.
    apply (cells_same_face_up p q k y Hsame Hk). }
  assert (Hs : forall x, Display.card_row (handsize p) (Display.spacer_cell p) x =
                         Display.card_row (handsize p) (Display.spacer_cell q) x).
  { intros x. apply card_row_ext; [exact Hn|]. intros k y Hk.
    apply (cells_same_face_up p q k y Hsame Hk). }
  assert (Hr : forall x, Display.card_row (handsize p) (Display.botrank_cell p) x =
                         Display.card_row (handsize p) (Display.botrank_cell q) x).
  { intros x. apply card_row_ext; [exact Hn|]. intros k y Hk.
    apply (cells_same_face_up p q k y Hsame Hk). }
  assert (Hy : forall down h d c s x,
             Display.card_row (handsize p) (Display.body_cell down h d c s p) x =
             Display.card_row (handsize p) (Display.body_cell down h d c s q) x).
  { intros down h d c s x. apply card_row_ext; [exact Hn|]. intros k y Hk.
    apply (cells_same_face_up p q k y Hsame Hk). }
  rewrite !Hb, !Ht, !Hs, !Hr, !Hy. reflexivity.
Qed.

Lemma cardPrint_hides_face_down_witness :
  let down := fun h => set_isFaceDown (arr_set (isFaceDown h) 0 1) h in
  let t := Display.mkTerm Display.TERMHEIGHT [] in
  Display.cardPrint (down (hands two_kings p1a)) t =
  Display.cardPrint (down (set_rank (arr_set (rank (hands two_kings p1a)) 0 5)
                             (hands two_kings p1a))) t.
Proof.
  intros down t. apply cardPrint_hides_face_down.
  - vm_compute. split; discriminate.
  - split; [vm_compute; reflexivity|]. intros k Hk.
    assert (E : handsize (down (hands two_kings p1a)) = 2) by (vm_compute; reflexivity).
    rewrite E in Hk. clear E.
    assert (k = 0 \/ k = 1) as [-> | ->] by lia; vm_compute; split; try reflexivity;
      try discriminate. intros _. split; reflexivity.
Defined.

(** *** Numbers *)

Lemma digit_inline (v : Z) : Display.to_char (v mod 10 + Display.ASCII_NUM) <> Display.NLc.
Proof.
  pose proof (Z.mod_pos_bound v 10 ltac:(lia)) as H.
  assert (v mod 10 = 0 \/ v mod 10 = 1 \/ v mod 10 = 2 \/ v mod 10 = 3 \/ v mod 10 = 4 \/
          v mod 10 = 5 \/ v mod 10 = 6 \/ v mod 10 = 7 \/ v mod 10 = 8 \/ v mod 10 = 9)
    as [-> | [-> | [-> | [-> | [-> | [-> | [-> | [-> | [-> | ->]]]]]]]]] by lia; discriminate.
Qed.

Lemma digits_inline (n : nat) (v : Z) (acc : list ascii) :
  Display.inline acc -> Display.inline (Display.digits n v acc).
Proof.
  revert v acc. induction n as [|n IH]; intros v acc Hacc; [exact Hacc|].
  cbn [Display.digits]. cbv zeta.
  assert (H : Display.inline (Display.to_char (v mod 10 + Display.ASCII_NUM) :: acc))
    by (constructor; [apply digit_inline|exact Hacc]).
  destruct (v / 10 =? 0); [exact H|apply IH, H].
Qed.

Lemma itoa_inline (v : Z) : Display.inline (Display.itoa v).
Proof.
  unfold Display.itoa. destruct (v <? 0).
  - constructor; [discriminate|]. apply digits_inline. constructor.
  - apply digits_inline. constructor.
Qed.

Lemma digits_length (n : nat) (v : Z) (acc : list ascii) (k : nat) :
  0 <= v < 10 ^ Z.of_nat k -> (1 <= k)%nat ->
  (length (Display.digits n v acc) <= k + length acc)%nat.
Proof.
  revert v acc k. induction n as [|n IH]; intros v acc k Hv Hk; [simpl; lia|].
  cbn [Display.digits]. cbv zeta.
  destruct (Z.eqb_spec (v / 10) 0) as [E|E]; [simpl; lia|].
  assert (Hk2 : (2 <= k)%nat).
  { destruct k as [|[|k]]; [lia| |lia]. exfalso. apply E.
    apply Z.div_small. change (10 ^ Z.of_nat 1) with 10 in Hv. lia. }
  specialize (IH (v / 10) (Display.to_char (v mod 10 + Display.ASCII_NUM) :: acc) (k - 1)%nat).
  simpl in IH. assert (H10 : 10 ^ Z.of_nat k = 10 * 10 ^ Z.of_nat (k - 1)).
  { replace (Z.of_nat k) with (Z.succ (Z.of_nat (k - 1))) by lia.
    apply Z.pow_succ_r. lia. }
  assert (Hd : 0 <= v / 10 < 10 ^ Z.of_nat (k - 1)).
  { split; [apply Z.div_pos; lia|]. apply Z.div_lt_upper_bound; lia. }
  specialize (IH Hd ltac:(lia)). lia.
Qed.

Lemma send_itoa_writes (size : nat) (v : Z) (k : nat) :
  0 <= v < 10 ^ Z.of_nat k -> (1 <= k < size)%nat ->
  Display.writes_opt (Display.send_itoa size v) (Display.itoa v) /\
  Display.inline (Display.itoa v) /\ (1 <= length (Display.itoa v) <= k)%nat.
Proof.
  intros Hv Hk.
  assert (Hl : (1 <= length (Display.itoa v) <= k)%nat).
  { unfold Display.itoa. destruct (Z.ltb_spec v 0); [lia|].
    pose proof (digits_length 5 v [] k Hv ltac:(lia)) as H1. cbn [length] in H1.
    split; [|lia].
    cbn [Display.digits]. cbv zeta. destruct (v / 10 =? 0); [simpl; lia|].
    generalize (Display.to_char (v mod 10 + Display.ASCII_NUM)). intros c.
    generalize (v / 10). intros v'. clear.
    assert (G : forall n x acc, (length acc <= length (Display.digits n x acc))%nat).
    { induction n as [|n IH]; intros x acc; [simpl; lia|].
      cbn [Display.digits]. cbv zeta. destruct (x / 10 =? 0); [simpl; lia|].
      etrans; [|apply IH]. simpl. lia. }
    specialize (G 4%nat v' [c]). simpl in G. lia. }
  split; [|split; [apply itoa_inline|exact Hl]].
  intros t. unfold Display.send_itoa. cbv zeta.
  rewrite decide_True by lia. reflexivity.
Qed.

(** *** Screens *)

Ltac display_step :=
  first [ rewrite (writes_fillScreen _ _) | rewrite (writes_alignCenter _ _)
        | rewrite (writes_send _ _) | rewrite (writes_sendChar _ _) ];
  cbn [Display.SCREENFILL Display.sent Display.set_SCREENFILL].

Lemma lines_app (t : Display.term) (s : list ascii) (t' : Display.term) :
  Display.sent t' = Display.sent t ++ s ->
  Display.lines t' = (Display.lines t + length (filter (fun c => c = Display.NLc) s))%nat.
Proof. intros E. unfold Display.lines. rewrite E, filter_app, length_app. reflexivity. Qed.

Lemma filter_inline (s : list ascii) :
  Display.inline s -> filter (fun c => c = Display.NLc) s = [].
Proof.
  induction 1 as [|c s Hc _ IH]; [reflexivity|].
  rewrite filter_cons_False by exact Hc. exact IH.
Qed.

Lemma filter_line_feeds (n : nat) :
  filter (fun c => c = Display.NLc) (replicate n Display.NLc) = replicate n Display.NLc.
Proof.
  induction n as [|n IH]; [reflexivity|]. simpl.
  rewrite filter_cons_True by reflexivity. rewrite IH. reflexivity.
Qed.

Lemma title_screen_lines (title : list ascii) (t t' : Display.term) :
  Display.title_screen title t t' ->
  Display.lines t' = (Display.lines t + Z.to_nat (Display.TERMHEIGHT + 1))%nat.
Proof.
  intros (pad & E & Hi & _). rewrite (lines_app t _ t' E). f_equal.
  rewrite !filter_app, !filter_line_feeds, (filter_inline title Hi).
  rewrite (filter_inline (replicate pad " "%char)) by (apply Forall_replicate; discriminate).
  rewrite !length_app, !length_replicate. reflexivity.
Qed.

Lemma dispTurn_title (ID : Z) (t : Display.term) :
  0 <= ID <= 9 ->
  Display.title_screen
    (if ID =? DEALER then list_ascii_of_string "DEALER'S TURN"
     else list_ascii_of_string "PLAYER " ++ [Display.to_char (ID + Display.ASCII_NUM)] ++
          list_ascii_of_string "'S TURN")
    t (Display.dispTurn ID t).
Proof.
  intros HID. unfold Display.dispTurn. cbv zeta.
  destruct (ID =? DEALER).
  - exists 76%nat. repeat display_step. split; [|split; [|split]].
    + rewrite <- !app_assoc. reflexivity.
    + apply (bool_decide_unpack _). vm_compute. reflexivity.
    + vm_compute. split; discriminate.
    + reflexivity.
  - exists 75%nat. repeat display_step. split; [|split; [|split]].
    + rewrite <- !app_assoc. reflexivity.
    + unfold Display.inline. simpl. repeat constructor; try discriminate.
      assert (ID = 0 \/ ID = 1 \/ ID = 2 \/ ID = 3 \/ ID = 4 \/ ID = 5 \/ ID = 6 \/ ID = 7 \/
              ID = 8 \/ ID = 9)
        as [-> | [-> | [-> | [-> | [-> | [-> | [-> | [-> | [-> | ->]]]]]]]]] by lia; discriminate.
    + vm_compute. split; discriminate.
    + reflexivity.
Qed.

Lemma dispRound_title (round : Z) (t : Display.term) :
  1 <= round < 1000 ->
  exists t', Display.dispRound round t = Some t' /\
    Display.title_screen (list_ascii_of_string "Round " ++ Display.itoa round) t t'.
Proof.
  intros Hr.
  destruct (send_itoa_writes 5 round 3) as (Hw & Hi & Hl); [simpl; lia|lia|].
  unfold Display.dispRound. cbv zeta. rewrite Hw. cbn [mbind option_bind].
  eexists. split; [reflexivity|]. exists 79%nat. repeat display_step. split; [|split; [|split]].
  - rewrite <- !app_assoc. reflexivity.
  - apply Forall_app. split; [apply (bool_decide_unpack _); vm_compute; reflexivity|exact Hi].
  - rewrite length_app. unfold Display.TERMWIDTH. simpl length. lia.
  - reflexivity.
Qed.

(** X13.  Every screen between the plays scrolls the terminal by exactly
    one page.  [dispBlank] sends TERMHEIGHT + 1 line feeds and nothing
    else.  [dispTurn] and [dispRound] send fifteen line feeds, one title
    line (DEALER'S TURN, PLAYER i'S TURN, Round n) centred to within two
    columns, and line feeds up to TERMHEIGHT + 1 in all, whatever was on
    the screen before; the round number fits its buffer for each of the 999
    rounds of [main]. *)
Theorem screens_scroll_one_page (t : Display.term) :
  Display.dispBlank t =
    Display.mkTerm Display.TERMHEIGHT
      (Display.sent t ++ replicate (Z.to_nat (Display.TERMHEIGHT + 1)) Display.NLc) /\
  Display.title_screen (list_ascii_of_string "DEALER'S TURN") t (Display.dispTurn DEALER t) /\
  (forall ID, 1 <= ID <= 9 ->
     Display.title_screen
       (list_ascii_of_string "PLAYER " ++ [Display.to_char (ID + Display.ASCII_NUM)] ++
        list_ascii_of_string "'S TURN") t (Display.dispTurn ID t)) /\
  (forall round, 1 <= round < 1000 ->
     exists t', Display.dispRound round t = Some t' /\
       Display.title_screen (list_ascii_of_string "Round " ++ Display.itoa round) t t') /\
  (forall title t', Display.title_screen title t t' ->
     Display.lines t' = (Display.lines t + Z.to_nat (Display.TERMHEIGHT + 1))%nat).
Proof.
  split; [|split; [|split; [|split]]].
  - unfold Display.dispBlank. cbv zeta. repeat display_step.
    rewrite <- app_assoc. reflexivity.
  - apply (dispTurn_title DEALER t). vm_compute. split; discriminate.
  - intros ID HID. pose proof (dispTurn_title ID t ltac:(lia)) as H.
    destruct (Z.eqb_spec ID DEALER) as [E|_]; [unfold DEALER in E; lia|exact H].
  - intros round. apply dispRound_title.
  - intros title t'. apply title_screen_lines.
Qed.

Lemma screens_scroll_one_page_witness :
  let t := Display.mkTerm 3 (list_ascii_of_string "You stayed!") in
  Display.lines (Display.dispTurn 2 t) = 29%nat /\
  exists t', Display.dispRound 999 t = Some t' /\ Display.lines t' = 29%nat.
Proof.
  intros t. destruct (screens_scroll_one_page t) as (_ & _ & Hturn & Hround & Hlines).
  split.
  - apply (Hlines _ _ (Hturn 2 ltac:(lia))).
  - destruct (Hround 999 ltac:(lia)) as (t' & E & Ht).
    exists t'. split; [exact E|]. apply (Hlines _ _ Ht).
Defined.

(** *** The header of a play screen *)

Lemma selectPlayer_fst (i : Z) (w1 w2 : world) :
  fst (selectPlayer i w1) = fst (selectPlayer i w2).
Proof.
  unfold selectPlayer. repeat (destruct (i =? _); [reflexivity|]). reflexivity.
Qed.

Lemma selectPlayer_fst_player (i : Z) (w : world) (pA pB : hid) :
  fst (selectPlayer i w) = Some (pA, pB) -> pA <> dealer /\ pB <> dealer.
Proof.
  unfold selectPlayer.
  repeat (destruct (i =? _); [intros [= <- <-]; split; discriminate|]). discriminate.
Qed.

Lemma dispUpper_seat_pointers (w : world) (i : Z) (s : option (option (hid * hid) * Display.term)) :
  Display.seat_pointers_ok s -> Display.seat_pointers_ok (Display.dispUpper_seat w i s).
Proof.
  intros Hs. unfold Display.dispUpper_seat.
  destruct s as [[sel t]|]; [|exact I]. cbn [mbind option_bind]. cbv zeta.
  destruct (fst (selectPlayer i w)) as [[pA pB]|] eqn:E.
  - apply selectPlayer_fst_player in E. cbn [mbind option_bind].
    destruct (Display.send_itoa 6 _ _); [|exact I]. cbn [mbind option_bind].
    destruct (if negb _ then _ else _); [|exact I]. exact E.
  - destruct sel as [[pA pB]|]; [|exact I]. cbn [mbind option_bind].
    destruct (Display.send_itoa 6 _ _); [|exact I]. cbn [mbind option_bind].
    destruct (if negb _ then _ else _); [|exact I]. exact Hs.
Qed.

Lemma dispUpper_seat_same (w1 w2 : world) (i : Z)
    (s : option (option (hid * hid) * Display.term)) :
  (forall p, p <> dealer -> handvalue (hands w1 p) = handvalue (hands w2 p) /\
                            empty (hands w1 p) = empty (hands w2 p)) ->
  Display.seat_pointers_ok s ->
  Display.dispUpper_seat w1 i s = Display.dispUpper_seat w2 i s.
Proof.
  intros Hw Hs. unfold Display.dispUpper_seat.
  destruct s as [[sel t]|]; [|reflexivity]. cbn [mbind option_bind]. cbv zeta.
  rewrite (selectPlayer_fst i w1 w2).
  destruct (fst (selectPlayer i w2)) as [[pA pB]|] eqn:E.
  - apply selectPlayer_fst_player in E. destruct E as [HA HB].
    cbn [mbind option_bind].
    destruct (Hw pA HA) as [-> _]. destruct (Hw pB HB) as [-> ->]. reflexivity.
  - destruct sel as [[pA pB]|]; [|reflexivity]. destruct Hs as [HA HB].
    cbn [mbind option_bind].
    destruct (Hw pA HA) as [-> _]. destruct (Hw pB HB) as [-> ->]. reflexivity.
Qed.

Lemma dispUpper_loop_same (w1 w2 : world) (n : nat)
    (s : option (option (hid * hid) * Display.term)) :
  (forall p, p <> dealer -> handvalue (hands w1 p) = handvalue (hands w2 p) /\
                            empty (hands w1 p) = empty (hands w2 p)) ->
  Display.seat_pointers_ok s ->
  for_loop n (fun i => Display.dispUpper_seat w1 (i + 1)) s =
  for_loop n (fun i => Display.dispUpper_seat w2 (i + 1)) s /\
  Display.seat_pointers_ok (for_loop n (fun i => Display.dispUpper_seat w2 (i + 1)) s).
Proof.
  intros Hw Hs. induction n as [|n [IH1 IH2]]; [split; [reflexivity|exact Hs]|].
  rewrite !for_loop_S, IH1. split.
  - apply dispUpper_seat_same; assumption.
  - apply dispUpper_seat_pointers, IH2.
Qed.

(** X14.  The header of a play screen shows nothing of a card of the
    dealer that lies face down.  [dispUpper] sends the same characters for
    two tables on which the hands of the players have the same values and
    the same [empty] flags and the dealer shows the same cards: the rank
    and the suit of a hidden card, and the value of the dealer's hand, have
    no part in it. *)
Theorem dispUpper_hides_hole_card (ID : Z) (w1 w2 : world) (t : Display.term) :
  (forall p, p <> dealer -> handvalue (hands w1 p) = handvalue (hands w2 p) /\
                            empty (hands w1 p) = empty (hands w2 p)) ->
  0 <= handsize (hands w1 dealer) <= MAXHAND ->
  Display.same_face_up (hands w1 dealer) (hands w2 dealer) ->
  Display.dispUpper ID w1 t = Display.dispUpper ID w2 t.
Proof.
  intros Hw Hn Hd. unfold Display.dispUpper.
  destruct (if ID =? DEALER then _ else _) as [ID' t'].
  destruct (dispUpper_loop_same w1 w2 (Z.to_nat ID')
              (Some (None, Display.send (String Display.TAB (String Display.TAB
                 (String Display.TAB (String Display.TAB EmptyString)))) t')) Hw I) as [-> _].
  destruct (for_loop _ _ _) as [[sel t'']|]; [|reflexivity].
  cbn [mbind option_bind]. cbv zeta. f_equal.
  apply cardPrint_hides_face_down; assumption.
Qed.

Lemma dispUpper_hides_hole_card_witness :
  let w1 := upd_hand dealer (fun h => set_isFaceDown (arr_set (isFaceDown h) 0 1) h)
              dealer_soft_17 in
  let w2 := upd_hand dealer (fun h => set_handvalue 16 (set_rank (arr_set (rank h) 0 13) h)) w1 in
  let t := Display.mkTerm Display.TERMHEIGHT [] in
  handvalue (hands w1 dealer) = 17 /\ handvalue (hands w2 dealer) = 16 /\
  Display.dispUpper P1 w1 t = Display.dispUpper P1 w2 t.
Proof.
  intros w1 w2 t. split; [vm_compute; reflexivity|]. split; [vm_compute; reflexivity|].
  apply dispUpper_hides_hole_card.
  - intros p Hp. unfold w2. rewrite upd_hand_other by exact Hp. split; reflexivity.
  - vm_compute. split; discriminate.
  - split; [vm_compute; reflexivity|]. intros k Hk.
    assert (E : handsize (hands w1 dealer) = 2) by (vm_compute; reflexivity).
    rewrite E in Hk. clear E.
    assert (k = 0 \/ k = 1) as [-> | ->] by lia; vm_compute; split; try reflexivity;
      try discriminate. intros _. split; reflexivity.
Defined.

Lemma dispUpper_seat_writes (w : world) (i : Z) (sel : option (hid * hid)) (t : Display.term) :
  1 <= i <= 4 -> (forall p, 0 <= handvalue (hands w p) < 100000) ->
  exists s sel', Display.inline s /\
    Display.dispUpper_seat w i (Some (sel, t)) =
      Some (sel', Display.mkTerm (Display.SCREENFILL t) (Display.sent t ++ s)).
Proof.
  intros Hi Hv. unfold Display.dispUpper_seat. cbn [mbind option_bind]. cbv zeta.
  destruct (selectPlayer_seat i w Hi) as (pA & pB & -> & _). cbn [fst mbind option_bind].
  destruct (send_itoa_writes 6 (handvalue (hands w pA)) 5 (Hv pA) ltac:(lia)) as (WA & IA & _).
  destruct (send_itoa_writes 6 (handvalue (hands w pB)) 5 (Hv pB) ltac:(lia)) as (WB & IB & _).
  rewrite WA. cbn [mbind option_bind].
  assert (Hchar : Display.to_char (i + Display.ASCII_NUM) <> Display.NLc).
  { assert (i = 1 \/ i = 2 \/ i = 3 \/ i = 4) as [-> | [-> | [-> | ->]]] by lia; discriminate. }
  destruct (negb (truthy (empty (hands w pB)))).
  - rewrite WB. cbn [mbind option_bind]. eexists. eexists. split; cycle 1.
    + repeat display_step. rewrite <- !app_assoc. reflexivity.
    + unfold Display.inline. rewrite !Forall_app. repeat split;
        first [exact IA | exact IB | repeat constructor; first [exact Hchar | discriminate]].
  - cbn [mbind option_bind]. eexists. eexists. split; cycle 1.
    + repeat display_step. rewrite <- !app_assoc. reflexivity.
    + unfold Display.inline. rewrite !Forall_app. repeat split;
        first [exact IA | repeat constructor; first [exact Hchar | discriminate]].
Qed.

Lemma dispUpper_loop_writes (w : world) (n : nat) (t : Display.term) :
  (n <= 4)%nat -> (forall p, 0 <= handvalue (hands w p) < 100000) ->
  exists s sel', Display.inline s /\
    for_loop n (fun i => Display.dispUpper_seat w (i + 1)) (Some (None, t)) =
      Some (sel', Display.mkTerm (Display.SCREENFILL t) (Display.sent t ++ s)).
Proof.
  intros Hn Hv. induction n as [|n IH].
  - exists [], None. split; [constructor|]. destruct t as [f s]. simpl.
    rewrite app_nil_r. reflexivity.
  - destruct IH as (s & sel & Hs & E); [lia|]. rewrite for_loop_S, E.
    destruct (dispUpper_seat_writes w (Z.of_nat n + 1) sel
                (Display.mkTerm (Display.SCREENFILL t) (Display.sent t ++ s)) ltac:(lia) Hv)
      as (s' & sel' & Hs' & E').
    rewrite E'. exists (s ++ s'), sel'. split; [apply Forall_app; split; assumption|].
    cbn [Display.SCREENFILL Display.sent]. rewrite <- app_assoc. reflexivity.
Qed.

(** X15.  The header of a play screen takes what it uses off
    [SCREENFILL].  For the dealer or any of the four seats, [dispUpper]
    fits every hand value into its buffer, sends exactly thirteen lines
    (the line of the hand values, an empty line, the caption and the ten
    lines of the dealer's cards) and lowers [SCREENFILL] by thirteen, so
    that [fillScreen(SCREENFILL)] completes the page from wherever the
    screen stood. *)
Theorem dispUpper_header (ID : Z) (w : world) (t : Display.term) :
  0 <= ID <= 4 -> (forall p, 0 <= handvalue (hands w p) < 100000) ->
  0 <= handsize (hands w dealer) <= MAXHAND ->
  (forall k, 0 <= k < handsize (hands w dealer) -> 0 <= arr_get (rank (hands w dealer)) k <= 13) ->
  exists t', Display.dispUpper ID w t = Some t' /\
    Display.lines t' = (Display.lines t + 13)%nat /\
    Display.SCREENFILL t' = Display.SCREENFILL t - 13 /\
    (13 <= Display.SCREENFILL t ->
     Display.lines (Display.fillScreen (Display.SCREENFILL t') t') =
       (Display.lines t + Z.to_nat (Display.SCREENFILL t))%nat).
Proof.
  intros HID Hv Hn Hr. unfold Display.dispUpper.
  assert (Hhead : exists ID' s, (Z.to_nat ID' <= 4)%nat /\ Display.inline s /\
            (if ID =? DEALER then (4, Display.send "DEALER'S TURN.  " t)
             else (ID, Display.send "'S TURN."
                         (Display.sendChar (Display.to_char (ID + Display.ASCII_NUM))
                            (Display.send "PLAYER " t)))) =
            (ID', Display.mkTerm (Display.SCREENFILL t) (Display.sent t ++ s))).
  { destruct (ID =? DEALER).
    - exists 4. eexists. split; [simpl; lia|]. split; [|reflexivity].
      apply (bool_decide_unpack _). vm_compute. reflexivity.
    - exists ID. eexists. split; [lia|]. split; cycle 1.
      + repeat display_step. rewrite <- !app_assoc. reflexivity.
      + unfold Display.inline. simpl. repeat constructor; try discriminate.
        assert (ID = 0 \/ ID = 1 \/ ID = 2 \/ ID = 3 \/ ID = 4)
          as [-> | [-> | [-> | [-> | ->]]]] by lia; discriminate. }
  cbv zeta. destruct Hhead as (ID' & s0 & HID' & Hs0 & ->).
  destruct (dispUpper_loop_writes w (Z.to_nat ID')
              (Display.send (String Display.TAB (String Display.TAB (String Display.TAB
                 (String Display.TAB EmptyString))))
                 (Display.mkTerm (Display.SCREENFILL t) (Display.sent t ++ s0))) HID' Hv)
    as (s1 & sel & Hs1 & ->).
  cbn [mbind option_bind]. eexists. split; [reflexivity|].
  match goal with |- context [Display.cardPrint _ ?x] => set (t1 := x) end.
  destruct (cardPrint_layout (hands w dealer) t1 Hn Hr) as (rows & Hlen & Hrows & Es & Ef & El & _).
  assert (E1 : Display.sent t1 = Display.sent t ++
                 (s0 ++ replicate 4 Display.TAB ++ s1 ++ [Display.NLc; Display.NLc] ++
                  replicate 73 " "%char ++ list_ascii_of_string "Dealer is showing:" ++
                  [Display.NLc])).
  { unfold t1. repeat display_step. rewrite <- !app_assoc. reflexivity. }
  assert (F1 : Display.SCREENFILL t1 = Display.SCREENFILL t - 3).
  { unfold t1. repeat display_step. reflexivity. }
  assert (L1 : Display.lines t1 = (Display.lines t + 3)%nat).
  { rewrite (lines_app t _ t1 E1). f_equal.
    rewrite !filter_app, (filter_inline s0 Hs0), (filter_inline s1 Hs1).
    rewrite (filter_inline (replicate 4 Display.TAB)) by (apply Forall_replicate; discriminate).
    rewrite (filter_inline (replicate 73 " "%char)) by (apply Forall_replicate; discriminate).
    reflexivity. }
  rewrite El, Ef, L1, F1. split; [lia|]. split; [lia|].
  intros H13. rewrite (lines_app (Display.cardPrint (hands w dealer) t1) _ _
                         (f_equal Display.sent (writes_fillScreen _ _))).
  rewrite filter_line_feeds, length_replicate, El, L1. lia.
Qed.

Lemma dispUpper_header_witness :
  let t := Display.mkTerm Display.TERMHEIGHT [] in
  exists t', Display.dispUpper DEALER dealer_soft_17 t = Some t' /\
    Display.lines t' = 13%nat /\ Display.SCREENFILL t' = 15.
Proof.
  intros t. destruct (dispUpper_header DEALER dealer_soft_17 t) as (t' & E & Hl & Hf & _).
  - vm_compute. split; discriminate.
  - intros p. destruct p; vm_compute; split; first [discriminate | reflexivity].
  - vm_compute. split; discriminate.
  - intros k Hk.
    assert (E : handsize (hands dealer_soft_17 dealer) = 2) by (vm_compute; reflexivity).
    rewrite E in Hk. clear E.
    assert (k = 0 \/ k = 1) as [-> | ->] by lia; vm_compute; split; discriminate.
  - exists t'. split; [exact E|]. split; [exact Hl|exact Hf].
Defined.
